(** * dnsdiag: a shallow embedding of [dnsdiag.py]

    The program probes the configured resolvers, resolves the name-server
    host names of every test through the selected resolver, sends each query
    to every resolved address, compares the answers of the name servers with
    one another and then with the baseline of the previous run.

    The embedding follows the Python text function by function.  Python
    objects that are shared and mutated in place (the lists held by the test
    dictionary and by [answers]) live in an explicit store of list objects;
    exceptions are a result type; the network, the wall clock and the two
    library renderers are parameters of the development. *)

From stdpp Require Import base option list gmap strings sorting.
From Stdlib Require Import ZArith NArith Ascii DecimalNat DecimalString.

(** ** Python values found in the parsed YAML configuration *)

Inductive pyval :=
  | PNone
  | PBool (b : bool)
  | PInt (z : Z)
  | PStr (s : string).

#[global] Instance pyval_eq_dec : EqDecision pyval.
Proof. solve_decision. Defined.

(** Truth value of an object in a condition ([if x:], [not x]). *)
Definition truthy (v : pyval) : bool :=
  match v with
  | PNone => false
  | PBool b => b
  | PInt z => negb (z =? 0)%Z
  | PStr s => negb (bool_decide (s = ""))
  end.

(** A dictionary is true iff it has at least one key. *)
Definition dict_truthy {V} (d : gmap string V) : bool :=
  negb (bool_decide (d = ∅)).

(** ** The DNS library (dnspython), as far as the program sees it *)

Inductive transport := TCP | UDP.

(** [dns.rdatatype.A] and [dns.rdatatype.NS]. *)
Definition rdatatype_A : N := 1.
Definition rdatatype_NS : N := 2.

(** The record type handed to [make_query]: an enumeration member in
    [test_resolver] and [name2ip], the configured text in [test_dns_query]. *)
Inductive rdspec :=
  | RdCode (code : N)
  | RdText (text : string).

Record message := Message {
  m_name : string;
  m_rdtype : rdspec;
  m_want_dnssec : pyval;
}.

(** One element of an RRset: its type and its [to_text()]. *)
Record rdata := Rdata {
  rdtype : N;
  to_text : string;
}.

Record response := Response {
  answer : list (list rdata);
  options : list string;
}.

(** What [dns.query.udp] / [dns.query.tcp] does with a request. *)
Inductive outcome :=
  | Answered (r : response)
  | RaisesDNS          (* a [dns.exception.DNSException] *)
  | RaisesOther.       (* any other exception, e.g. one of the socket layer *)

Record request := Request {
  rq_transport : transport;
  rq_where : pyval;
  rq_message : message;
}.

(** ** Exceptions *)

Inductive exn :=
  | DNSException
  | OSError
  | KeyError (key : string)
  | AttributeError
  | TypeError
  | ValueError
  | IndexError
  | UnboundLocalError (var : string)
  | JSONDecodeError
  | FileNotFoundError
  | NoWorkingResolverFound                          (* line 102 *)
  | NoARecordFound (domain : string) (ip : pyval)   (* line 137 *)
  | LoopBound.  (* not a Python exception: see [store_report] *)

#[global] Instance exn_eq_dec : EqDecision exn.
Proof. solve_decision. Defined.

Inductive res (A : Type) :=
  | Ok (a : A)
  | Raise (e : exn).
Arguments Ok {A} a.
Arguments Raise {A} e.

(** ** The files of the working directory *)

(** The snapshot [answers]: every value of the outer dictionary is a
    dictionary from strings to lists of strings. *)
Abbreviation snapshot := (gmap string (gmap string (list string))).

(** Content of a file, as [json.load] sees it.  [json.dump] followed by
    [json.load] is the identity on string-keyed dictionaries of lists of
    strings, so a dumped snapshot is kept as the snapshot itself. *)
Inductive fdata :=
  | FJson (s : snapshot)      (* a JSON document of the shape of a snapshot *)
  | FJsonOther (raw : string) (* any other JSON document *)
  | FText (raw : string).     (* not JSON: [json.load] raises *)

#[global] Instance fdata_eq_dec : EqDecision fdata.
Proof. solve_decision. Defined.

(** ** The store of list objects

    A list object is named by its position in the store.  [answers] and the
    test dictionary hold such names, so that two names of one object see each
    other's in-place updates. *)

Abbreviation loc := nat (only parsing).
Abbreviation store := (list (list string)) (only parsing).

Definition deref (h : store) (l : loc) : list string := default [] (h !! l).

(** ** The state of a run *)

Record state := State {
  sends : list request;            (* the requests sent so far, oldest first *)
  ticks : nat;                     (* number of [time.strftime] calls so far *)
  fs : gmap string fdata;          (* the working directory *)
  heap : list (list string);       (* the list objects *)
  sunk : list string;              (* the texts passed to [store_report] *)
}.

Definition with_sends (f : list request → list request) (σ : state) : state :=
  State (f (sends σ)) (ticks σ) (fs σ) (heap σ) (sunk σ).
Definition with_ticks (f : nat → nat) (σ : state) : state :=
  State (sends σ) (f (ticks σ)) (fs σ) (heap σ) (sunk σ).
Definition with_fs (f : gmap string fdata → gmap string fdata) (σ : state) : state :=
  State (sends σ) (ticks σ) (f (fs σ)) (heap σ) (sunk σ).
Definition with_heap (f : list (list string) → list (list string)) (σ : state) : state :=
  State (sends σ) (ticks σ) (fs σ) (f (heap σ)) (sunk σ).
Definition with_sunk (f : list string → list string) (σ : state) : state :=
  State (sends σ) (ticks σ) (fs σ) (heap σ) (f (sunk σ)).

(** ** A state and exception monad *)

Definition M (A : Type) : Type := state → res A * state.

Definition ret {A} (a : A) : M A := λ σ, (Ok a, σ).
Definition raise {A} (e : exn) : M A := λ σ, (Raise e, σ).
Definition bind {A B} (m : M A) (k : A → M B) : M B :=
  λ σ, match m σ with
       | (Ok a, σ') => k a σ'
       | (Raise e, σ') => (Raise e, σ')
       end.

Notation "'let!' x ':=' m 'in' k" := (bind m (λ x, k))
  (at level 10, x name, m at level 100, k at level 200, only parsing).
Notation "m ;;; k" := (bind m (λ _, k))
  (at level 100, k at level 200, right associativity, only parsing).

(** [try: m except dns.exception.DNSException: h]. *)
Definition try_dns {A} (m : M A) (h : M A) : M A :=
  λ σ, match m σ with
       | (Raise DNSException, σ') => h σ'
       | r => r
       end.

(** [for x in xs: body x], where the body neither breaks nor continues. *)
Fixpoint for_each {A} (body : A → M unit) (xs : list A) : M unit :=
  match xs with
  | [] => ret tt
  | x :: xs' => body x ;;; for_each body xs'
  end.

(** The same loop threading a value that the body rebinds. *)
Fixpoint for_fold {A S} (body : A → S → M S) (xs : list A) (s : S) : M S :=
  match xs with
  | [] => ret s
  | x :: xs' => let! s' := body x s in for_fold body xs' s'
  end.

(** [d[k]] on a dictionary. *)
Definition getitem {V} (d : gmap string V) (k : string) : M V :=
  match d !! k with
  | Some v => ret v
  | None => raise (KeyError k)
  end.

(** List objects. *)
Definition alloc (v : list string) : M loc :=
  λ σ, (Ok (length (heap σ)), with_heap (λ h, h ++ [v]) σ).
Definition read (l : loc) : M (list string) :=
  λ σ, (Ok (deref (heap σ) l), σ).
Definition update (l : loc) (f : list string → list string) : M unit :=
  λ σ, (Ok tt, with_heap (alter f l) σ).

(** [list.sort()] on strings: ascending in the order of the code points.
    Equal strings are indistinguishable, so stability plays no role. *)
Definition sorted_list (l : list string) : list string := merge_sort String.le l.
Definition sort_inplace (l : loc) : M unit := update l sorted_list.

Section Dnsdiag.

(** ** The outside world *)

(** [dns.message.make_query] validates the name and the type: it returns
    the message for those it accepts and raises for those it rejects. *)
Variable make_query_ok : message → bool.
(** The exception of a rejection: a [DNSException] for a malformed name or a
    text that names no record type, another one for some arguments (a
    [ValueError] for the type text [TYPE65536], whose number is out of
    range). *)
Variable make_query_error : message → exn.
(** The reply to the [n]-th request of the run. *)
Variable network : nat → request → outcome.
(** The value of the [n]-th call of [time.strftime] with a given format. *)
Variable strftime : string → nat → string.
(** [dns.rdatatype.to_text]. *)
Variable rdatatype_to_text : N → string.
(** The text an f-string gives for a loaded JSON document or for [answers]. *)
Variable py_repr : fdata → string.

Definition make_query (name : string) (ty : rdspec) (want_dnssec : pyval) : M message :=
  let q := Message name ty want_dnssec in
  if make_query_ok q then ret q else raise (make_query_error q).

(** [dns.query.tcp(query, where, timeout=10)] and [dns.query.udp(...)]. *)
Definition dns_query (t : transport) (q : message) (where_ : pyval) : M response :=
  λ σ,
    let rq := Request t where_ q in
    let σ' := with_sends (λ s, s ++ [rq]) σ in
    match network (length (sends σ)) rq with
    | Answered r => (Ok r, σ')
    | RaisesDNS => (Raise DNSException, σ')
    | RaisesOther => (Raise OSError, σ')
    end.

(** [x == 'tcp'] selects the transport. *)
Definition transport_of (v : pyval) : transport :=
  if bool_decide (v = PStr "tcp") then TCP else UDP.

(** ** [rdtype_to_text] (lines 48-52) *)

Definition rdtype_to_text (t : N) : string := rdatatype_to_text t.

(** ** [DNSDiag.test_resolver] (lines 61-79) *)

Definition valid_answers : list string :=
  [ "a.root-servers.net."; "b.root-servers.net."; "c.root-servers.net.";
    "d.root-servers.net."; "e.root-servers.net."; "f.root-servers.net.";
    "g.root-servers.net."; "h.root-servers.net."; "i.root-servers.net.";
    "j.root-servers.net."; "k.root-servers.net."; "l.root-servers.net.";
    "m.root-servers.net." ].

(** Lines 72-75: some record of the answer is an NS record of a root server. *)
Definition names_root_server (r : response) : bool :=
  existsb (λ rrset,
    existsb (λ rr, (rdtype rr =? rdatatype_NS)%N
                   && bool_decide (to_text rr ∈ valid_answers)) rrset)
    (answer r).

Definition test_resolver (resolver : gmap string pyval) : M bool :=
  try_dns
    (let! query := make_query "." (RdCode rdatatype_NS) (PBool false) in
     let! ty := getitem resolver "type" in
     let! ip := getitem resolver "ip" in
     let! r := dns_query (transport_of ty) query ip in
     ret (names_root_server r))
    (ret false).

(** ** [DNSDiag.test_all_resolvers] (lines 81-102) *)

(** [self.config], as far as the resolvers go.  The functions that assign
    to it return the new configuration; an exception ends the run, so the
    configuration it leaves behind is not kept. *)
Record config := Config {
  resolvers : list (gmap string pyval);          (* [config.get('resolvers', [])] *)
  tested_resolver : option (gmap string pyval);  (* [None] is Python's [None] *)
}.

(** Lines 85-93.  The first [break] follows the assignment, the second one
    ends the loop after a probe that returned false; [continue] is taken only
    when the probe itself raises a [DNSException]. *)
Fixpoint select_loop (cfg : config) (rs : list (gmap string pyval)) : M config :=
  match rs with
  | [] => ret cfg
  | resolver :: rest =>
      λ σ, match test_resolver resolver σ with
           | (Ok true, σ') => (Ok (Config (resolvers cfg) (Some resolver)), σ')
           | (Ok false, σ') => (Ok cfg, σ')
           | (Raise DNSException, σ') => select_loop cfg rest σ'
           | (Raise e, σ') => (Raise e, σ')
           end
  end.

Definition test_all_resolvers (cfg : config) : M config :=
  let cfg0 := Config (resolvers cfg) None in
  let! cfg' := select_loop cfg0 (resolvers cfg) in
  match tested_resolver cfg' with
  | Some r => if dict_truthy r then ret cfg' else raise NoWorkingResolverFound
  | None => raise NoWorkingResolverFound
  end.

(** ** [DNSDiag.name2ip] (lines 104-139) *)

(** The local variables that outlive the loop.  [dnssec_opt] and [response]
    are unbound until their first assignment. *)
Record locals := Locals {
  retanswer : list string;
  dnssec_opt : option pyval;
  last_response : option response;
}.

(** Lines 117-120. *)
Definition a_records (r : response) : list string :=
  to_text <$> filter (λ rr, rdtype rr = rdatatype_A) (concat (answer r)).

(** Lines 112-116: the rest of the [try] body once [dnssec_opt] is bound. *)
Definition name2ip_query (tr : gmap string pyval) (domain : string) (d : pyval) : M response :=
  let! query := make_query domain (RdCode rdatatype_A) d in
  let! ty := getitem tr "type" in
  let! ip := getitem tr "ip" in
  dns_query (transport_of ty) query ip.

(** The [while True] loop (lines 107-129), by recursion on the attempts
    left.  The loop is entered with [attempts = 10] and leaves as soon as the
    counter reaches zero, so the case [0] is never reached. *)
Fixpoint name2ip_loop (attempts : nat) (cfg : config) (domain : string)
    (L : locals) : M locals :=
  match attempts with
  | 0 => ret L
  | S attempts' =>
      match tested_resolver cfg with
      | None => ret L  (* [None.get] raises AttributeError; line 127 breaks *)
      | Some tr =>
          let d := default (PBool false) (tr !! "dnssec") in
          let L1 := Locals (retanswer L) (Some d) (last_response L) in
          λ σ, match name2ip_query tr domain d σ with
               | (Ok r, σ') =>
                   (Ok (Locals (retanswer L1 ++ a_records r) (Some d) (Some r)), σ')
               | (Raise DNSException, σ') =>
                   if decide (attempts' = 0) then (Ok L1, σ')
                   else name2ip_loop attempts' cfg domain L1 σ'
               | (Raise _, σ') => (Ok L1, σ')
               end
      end
  end.

Definition name2ip (cfg : config) (domain : string) : M (list string) :=
  let! L := name2ip_loop 10 cfg domain (Locals [] None None) in
  if bool_decide (retanswer L = []) then
    let! d := match dnssec_opt L with
        | Some d => ret d
        | None => raise (UnboundLocalError "dnssec_opt")
        end in
    (if truthy d then
       let! r := match last_response L with
           | Some r => ret r
           | None => raise (UnboundLocalError "response")
           end in
       (* lines 134-135: [response.options] is a tuple, which is true when
          it is not empty and has no method [to_text] *)
       if bool_decide (options r = []) then ret tt else raise AttributeError
     else ret tt) ;;;
    let! tr := match tested_resolver cfg with
         | Some tr => ret tr
         | None => raise TypeError
         end in
    let! ip := getitem tr "ip" in
    raise (NoARecordFound domain ip)
  else ret (retanswer L).

(** ** [store_report] (lines 34-46) *)

Definition nl : string := String (Ascii.ascii_of_nat 10) "".

(** [time.strftime(fmt)]. *)
Definition now (fmt : string) : M string :=
  λ σ, (Ok (strftime fmt (ticks σ)), with_ticks S σ).

(** [os.path.exists(p)]. *)
Definition path_exists (p : string) : M bool :=
  λ σ, (Ok (bool_decide (is_Some (fs σ !! p))), σ).

(** [with open(p, 'w') as f: f.write(...)] or [json.dump(..., f)]. *)
Definition write_file (p : string) (d : fdata) : M unit :=
  λ σ, (Ok tt, with_fs <[p := d]> σ).

(** The number of files, the bound of the search below. *)
Definition file_count : M nat := λ σ, (Ok (size (fs σ)), σ).

(** [print(details)], the last line of [store_report]. *)
Definition print_report (details : string) : M unit :=
  λ σ, (Ok tt, with_sunk (λ r, r ++ [details]) σ).

(** [str(n)] for a natural number, and [s.zfill(width)]. *)
Definition str (n : nat) : string := NilEmpty.string_of_uint (Nat.to_uint n).

Fixpoint zeros (n : nat) : string :=
  match n with
  | 0 => ""
  | S n' => String "0"%char (zeros n')
  end.

Definition zfill (width : nat) (s : string) : string :=
  zeros (width - String.length s) +:+ s.

Definition report_fname (stamp : string) : string :=
  "dnsdiag-report-" +:+ stamp +:+ ".txt".
Definition report_fname_seq (stamp : string) (seq : nat) : string :=
  "dnsdiag-report-" +:+ stamp +:+ "-" +:+ zfill 3 (str seq) +:+ ".txt".

(** Lines 38-40.  The [while] loop is unrolled [fuel] times; running out of
    fuel is reported by [None]. *)
Fixpoint free_fname (fuel : nat) (fname : string) (seq : nat) : M (option string) :=
  let! taken := path_exists fname in
  if (taken : bool) then
    match fuel with
    | 0 => ret None
    | S fuel' =>
        let! stamp := now "%Y%m%d-%H%M%S" in
        free_fname fuel' (report_fname_seq stamp seq) (S seq)
    end
  else ret (Some fname).

(** The loop looks at pairwise different names from its second test on, so
    it ends after at most one more test than there are files
    ([free_fname_enough] below); [LoopBound] is therefore never raised. *)
Definition store_report (details : string) : M unit :=
  let! stamp := now "%Y%m%d-%H%M%S" in
  let! files := file_count in
  let! found := free_fname (S files) (report_fname stamp) 0 in
  match found with
  | None => raise LoopBound
  | Some fname =>
      let! header := now "%Y-%m-%d %H:%M:%S" in
      write_file fname (FText details) ;;;
      print_report details
  end.

(** ** [DNSDiag.test_dns_query] (lines 157-269) *)

(** The test dictionary.  Its two lists are objects of the store. *)
Record test := Test {
  t_name : string;
  t_query_name : string;
  t_query_types : loc;
  t_nameservers : loc;
  t_query_protocol : option pyval;  (* read with [.get('query_protocol', 'udp')] *)
}.

(** [answers]: the lists it holds are objects of the store. *)
Abbreviation answers_dict := (gmap string (gmap string loc)).

(** Lines 165-173.  The loop runs over the object [nameservers], which its
    body does not touch. *)
Definition resolve_nameservers (cfg : config) (nameservers : loc) : M loc :=
  let! nameservers_ips := alloc [] in
  let! names := read nameservers in
  for_each (λ ns,
    let! ip := name2ip cfg ns in
    update nameservers_ips (λ l, l ++ ip)) names ;;;
  ret nameservers_ips.

(** Lines 178-185. *)
Definition init_answers (nameservers nameservers_ips : loc) : M answers_dict :=
  let answers : answers_dict := ∅ in
  let answers := <["nameservers" := ∅]> answers in
  let answers := <["nameservers_ips" := ∅]> answers in
  let! d := getitem answers "nameservers" in
  let answers := <["nameservers" := <["names" := nameservers]> d]> answers in
  let! d := getitem answers "nameservers_ips" in
  let answers := <["nameservers_ips" := <["ips" := nameservers_ips]> d]> answers in
  let! d := getitem answers "nameservers" in
  let! l := getitem d "names" in
  sort_inplace l ;;;
  let! d := getitem answers "nameservers_ips" in
  let! l := getitem d "ips" in
  sort_inplace l ;;;
  ret answers.

(** Lines 202-207. *)
Definition rrinfos (r : response) : list string :=
  (λ rr, rdtype_to_text (rdtype rr) +:+ " " +:+ to_text rr) <$> concat (answer r).

(** Lines 191-209: one pass of the inner loop. *)
Definition query_one (cfg : config) (query_name : string) (q_proto : pyval)
    (query_type ns_ip : string) (answers : answers_dict) : M answers_dict :=
  let! slot := alloc [] in
  let! d := getitem answers query_type in
  let answers := <[query_type := <[ns_ip := slot]> d]> answers in
  try_dns
    (let! dnssec_opt :=
       match tested_resolver cfg with
       | Some tr => ret (default (PBool false) (tr !! "dnssec"))
       | None => raise AttributeError
       end in
     let! query := make_query query_name (RdText query_type) dnssec_opt in
     let! r := dns_query (transport_of q_proto) query (PStr ns_ip) in
     let! d := getitem answers query_type in
     let! l := getitem d ns_ip in
     update l (λ v, v ++ rrinfos r))
    (ret tt) ;;;
  ret answers.

(** Lines 189-209: one pass of the outer loop. *)
Definition outer_body (cfg : config) (query_name : string) (q_proto : pyval)
    (nameservers_ips : loc) (query_type : string) (answers : answers_dict) :
    M answers_dict :=
  let answers := <[query_type := ∅]> answers in
  let! ips := read nameservers_ips in
  for_fold (query_one cfg query_name q_proto query_type) ips answers.

(** Lines 188-209. *)
Definition fan_out (cfg : config) (query_name : string) (q_proto : pyval)
    (query_types nameservers_ips : loc) (answers : answers_dict) : M answers_dict :=
  let! qts := read query_types in
  for_fold (outer_body cfg query_name q_proto nameservers_ips) qts answers.

(** Lines 228-236. *)
Definition lines (entries : list string) : string :=
  foldr (λ entry acc, entry +:+ nl +:+ acc) "" entries.

Definition inconsistency_report (query_name query_type ns_ip reference : string)
    (expected got : list string) : string :=
  "Inconsistent nameservers results for " +:+ query_name +:+ " " +:+ query_type
    +:+ " on " +:+ ns_ip +:+ nl
    +:+ "Reference nameserver: " +:+ reference +:+ nl +:+ "Expected:" +:+ nl
    +:+ lines expected +:+ "Got:" +:+ nl +:+ lines got.

(** [xs[0]]. *)
Definition first_item (xs : list string) : M string :=
  match xs !! 0 with
  | Some x => ret x
  | None => raise IndexError
  end.

(** Lines 225-237: one pass of the inner loop. *)
Definition check_one (query_name query_type : string) (d : gmap string loc)
    (nameservers_ips : loc) (ns_ip : string) : M unit :=
  let! l := getitem d ns_ip in
  sort_inplace l ;;;
  let! got := read l in
  let! ips := read nameservers_ips in
  let! reference := first_item ips in
  let! lref := getitem d reference in
  let! expected := read lref in
  if bool_decide (got ≠ expected) then
    store_report
      (inconsistency_report query_name query_type ns_ip reference expected got)
  else ret tt.

(** Lines 215-240.  The loops run over the objects [query_types] and
    [nameservers_ips]; their bodies sort the lists made at line 192 and
    change neither of the two. *)
Definition consistency_check (query_name : string) (query_types nameservers_ips : loc)
    (answers : answers_dict) : M unit :=
  let! qts := read query_types in
  for_each (λ query_type,
    let! d := getitem answers query_type in
    if dict_truthy d then
      let! ips := read nameservers_ips in
      let! reference := first_item ips in
      let! lref := getitem d reference in
      sort_inplace lref ;;;
      let! ips := read nameservers_ips in
      for_each (check_one query_name query_type d nameservers_ips) ips
    else ret tt) qts.

(** What [json.dump(answers, f)] writes: every list is read from the store. *)
Definition snapshot_of (h : store) (answers : answers_dict) : snapshot :=
  (λ d : gmap string nat, deref h <$> d) <$> answers.

Definition current (answers : answers_dict) : M fdata :=
  λ σ, (Ok (FJson (snapshot_of (heap σ) answers)), σ).

Definition json_dump (answers : answers_dict) (p : string) : M unit :=
  λ σ, write_file p (FJson (snapshot_of (heap σ) answers)) σ.

Definition json_load (p : string) : M fdata :=
  λ σ, match fs σ !! p with
       | None => (Raise FileNotFoundError, σ)
       | Some (FText _) => (Raise JSONDecodeError, σ)
       | Some d => (Ok d, σ)
       end.

(** [os.rename(src, dst)]: an existing [dst] is replaced. *)
Definition rename (src dst : string) : M unit :=
  λ σ, match fs σ !! src with
       | None => (Raise FileNotFoundError, σ)
       | Some d => (Ok tt, with_fs (λ f, <[dst := d]> (delete src f)) σ)
       end.

Definition stored_fname (name : string) : string :=
  "dnsdiag-report-" +:+ name +:+ ".json".
Definition archive_fname (name stamp : string) : string :=
  "dnsdiag-report-" +:+ name +:+ "-" +:+ stamp +:+ ".json".

Definition baseline_report (query_name : string) (prev_results current : fdata) : string :=
  "Mismatch for " +:+ query_name +:+ " with previous results" +:+ nl
    +:+ "Expected:" +:+ nl +:+ py_repr prev_results +:+ nl
    +:+ "Got:" +:+ nl +:+ py_repr current +:+ nl.

(** Lines 246-269.  Line 244 re-creates [answers] with its keys in order,
    which a finite map does not see.  The function returns the value of the
    test of line 256: whether the stored results differ from the current
    ones. *)
Definition baseline_diff (name query_name : string) (answers : answers_dict) : M bool :=
  let! present := path_exists (stored_fname name) in
  (if (present : bool) then ret tt else json_dump answers (stored_fname name)) ;;;
  let! prev_results := json_load (stored_fname name) in
  let! now_results := current answers in
  if bool_decide (prev_results ≠ now_results) then
    store_report (baseline_report query_name prev_results now_results) ;;;
    let! stamp := now "%Y%m%d-%H%M%S" in
    rename (stored_fname name) (archive_fname name stamp) ;;;
    json_dump answers (stored_fname name) ;;;
    ret true
  else ret false.

Definition test_dns_query (cfg : config) (t : test) : M unit :=
  let query_name := t_query_name t in
  let query_types := t_query_types t in
  let nameservers := t_nameservers t in
  let q_proto := default (PStr "udp") (t_query_protocol t) in
  let! nameservers_ips := resolve_nameservers cfg nameservers in
  let! answers := init_answers nameservers nameservers_ips in
  let! answers := fan_out cfg query_name q_proto query_types nameservers_ips answers in
  consistency_check query_name query_types nameservers_ips answers ;;;
  let! drift := baseline_diff (t_name t) query_name answers in
  ret tt.

(** ** [DNSDiag.run] (lines 271-277) *)

(** An entry of [config['dns']]: the value under ['type'], when the key is
    there, and the fields that [test_dns_query] reads. *)
Record dns_entry := DnsEntry {
  e_type : option pyval;
  e_test : test;
}.

(** [tests] is [self.config.get('dns', [])]. *)
Definition run (cfg : config) (tests : list dns_entry) : M unit :=
  for_each (λ e,
    let! ty := match e_type e with
         | Some ty => ret ty
         | None => raise (KeyError "type")
         end in
    if bool_decide (ty = PStr "query") then test_dns_query cfg (e_test e)
    else ret tt) tests.

(** ** [main] (lines 279-288)

    From the loaded configuration on: [cfg] holds what [config.get] gives for
    ['resolvers'], [dns] what it gives for ['dns'].  [run] sees the
    configuration as [test_all_resolvers] left it. *)
Definition main (cfg : config) (dns : list dns_entry) : M unit :=
  let! cfg' := test_all_resolvers cfg in
  run cfg' dns.

(** ** Vocabulary of the statements *)

(** The requests of the fan-out are those whose record type is the text of
    the configuration; the probe and [name2ip] pass members of
    [dns.rdatatype]. *)
Definition is_fan_out (rq : request) : bool :=
  match m_rdtype (rq_message rq) with
  | RdText _ => true
  | RdCode _ => false
  end.

(** The request [test_dns_query] sends to one address for one record type,
    and the requests of one pass of the outer loop of lines 188-209. *)
Definition fan_out_message (cfg : config) (query_name query_type : string) : message :=
  Message query_name (RdText query_type)
    (default (PBool false) (tested_resolver cfg ≫= (.!! "dnssec"))).

Definition fan_out_request (cfg : config) (query_name : string) (q_proto : pyval)
    (query_type ns_ip : string) : request :=
  Request (transport_of q_proto) (PStr ns_ip) (fan_out_message cfg query_name query_type).

Definition fan_out_requests (cfg : config) (query_name : string) (q_proto : pyval)
    (ips : list string) (query_type : string) : list request :=
  if make_query_ok (fan_out_message cfg query_name query_type)
  then fan_out_request cfg query_name q_proto query_type <$> ips
  else [].

(** Requests of [name2ip] only. *)
Definition lookups_only (new : list request) : Prop :=
  Forall (λ rq, is_fan_out rq = false) new.

(** What [name2ip] returned for each name server, in some state each. *)
Definition resolved_by (cfg : config) (names : list string)
    (resolved : list (list string)) : Prop :=
  Forall2 (λ ns ips, ∃ σa σb, name2ip cfg ns σa = (Ok ips, σb)) names resolved.

(** What one pass of the inner loop of lines 190-209 does when it is the
    [n]-th request of the run: the records it stores, or the exception that
    leaves the loop, and the requests it sends. *)
Definition pair_outcome (cfg : config) (query_name : string) (q_proto : pyval)
    (query_type ns_ip : string) (n : nat) : res (list string) * list request :=
  match tested_resolver cfg with
  | None => (Raise AttributeError, [])
  | Some _ =>
      if make_query_ok (fan_out_message cfg query_name query_type) then
        let rq := fan_out_request cfg query_name q_proto query_type ns_ip in
        (match network n rq with
         | Answered r => Ok (rrinfos r)
         | RaisesDNS => Ok []
         | RaisesOther => Raise OSError
         end, [rq])
      else
        (match make_query_error (fan_out_message cfg query_name query_type) with
         | DNSException => Ok []
         | e => Raise e
         end, [])
  end.

(** A state with more requests sent and more list objects. *)
Definition extend (σ : state) (sent : list request) (ext : list (list string)) : state :=
  State (sends σ ++ sent) (ticks σ) (fs σ) (heap σ ++ ext) (sunk σ).

(** A store that differs from [h0] only by objects among [P] that have been
    sorted in place, and an object that holds the sorted form of what it
    held in [h0]. *)
Definition variant (P : nat → Prop) (h0 h : list (list string)) : Prop :=
  length h = length h0 ∧
  ∀ l, h !! l = h0 !! l ∨ (P l ∧ h !! l = sorted_list <$> h0 !! l).

Definition sorted_form (h0 h : list (list string)) (l : nat) : Prop :=
  h !! l = sorted_list <$> h0 !! l.

(** How the check moves the state: objects among [P] are sorted in place,
    reports are stored, no request is sent and no file is lost. *)
Definition checked (P : nat → Prop) (h0 : list (list string)) (σ σ' : state)
    (reports : list string) : Prop :=
  variant P h0 (heap σ') ∧
  (∀ l, sorted_form h0 (heap σ) l → sorted_form h0 (heap σ') l) ∧
  sends σ' = sends σ ∧
  sunk σ' = sunk σ ++ reports ∧
  (∀ p x, fs σ !! p = Some x → fs σ' !! p = Some x).

(** A computation that neither touches the store nor sends a request. *)
Definition keeps {A} (m : M A) : Prop :=
  ∀ σ r σ', m σ = (r, σ') → heap σ' = heap σ ∧ sends σ' = sends σ.

(** The objects held by the dictionaries of the record types [qts]. *)
Definition slots_of (answers : answers_dict) (qts : list string) (l : nat) : Prop :=
  ∃ qt d ip, qt ∈ qts ∧ answers !! qt = Some d ∧ d !! ip = Some l.

(** The dictionary of each record type has the addresses of the list as
    its keys, as after the fan-out. *)
Definition well_keyed (answers : answers_dict) (qts ips : list string) : Prop :=
  Forall (λ qt, dom <$> answers !! qt = Some (list_to_set ips : gset string)) qts.

(** The lists held under the other keys of [answers] are sorted, as lines
    184-185 leave them. *)
Definition others_sorted (h : list (list string)) (answers : answers_dict)
    (qts : list string) : Prop :=
  map_Forall (λ k (d : gmap string nat),
    k ∈ qts ∨ map_Forall (λ _ l, Sorted String.le (deref h l)) d) answers.

(** The record list of an address for a record type in a snapshot. *)
Definition records (snap : snapshot) (query_type ns_ip : string) : list string :=
  default [] (snap !! query_type ≫= (.!! ns_ip)).

Definition sorted_records (snap : snapshot) (query_type ns_ip : string) : list string :=
  sorted_list (records snap query_type ns_ip).

(** The report of lines 228-236 for a record type and an address, against
    the reference address. *)
Definition mismatch_report (query_name : string) (snap : snapshot) (reference : string)
    (pair : string * string) : string :=
  inconsistency_report query_name pair.1 pair.2 reference
    (sorted_records snap pair.1 reference) (sorted_records snap pair.1 pair.2).

(** A snapshot with every list sorted, and two snapshots with the same keys
    whose lists hold the same entries in some order. *)
Definition canon (snap : snapshot) : snapshot :=
  (λ d : gmap string (list string), sorted_list <$> d) <$> snap.

Definition same_up_to_order (a b : snapshot) : Prop :=
  ∀ k, option_Forall2
         (λ da db : gmap string (list string),
            ∀ key, option_Forall2 (≡ₚ) (da !! key) (db !! key))
         (a !! k) (b !! k).

(** [answers] after lines 178-185. *)
Definition initial_answers (nameservers nameservers_ips : loc) : answers_dict :=
  <["nameservers_ips" := {["ips" := nameservers_ips]}]>
    (<["nameservers" := {["names" := nameservers]}]> ∅).

(** The names that [store_report] tries when it is called at clock [t0], in
    the order of the loop of lines 38-40: the name with the time stamp alone,
    then the names with the sequence numbers 000, 001, ..., each with the
    time stamp of its own pass. *)
Definition report_candidate (t0 i : nat) : string :=
  match i with
  | 0 => report_fname (strftime "%Y%m%d-%H%M%S" t0)
  | S j => report_fname_seq (strftime "%Y%m%d-%H%M%S" (t0 + 1 + j)) j
  end.

(** The shape of the names of line 35 and line 39. *)
Definition is_report_name (p : string) : Prop :=
  ∃ stamp, p = report_fname stamp ∨ ∃ seq, p = report_fname_seq stamp seq.

(** The request of the probe of lines 67-71: the NS records of the root,
    without DNSSEC. *)
Definition probe_message : message := Message "." (RdCode rdatatype_NS) (PBool false).
Definition probe_request (ty ip : pyval) : request :=
  Request (transport_of ty) ip probe_message.

(** The queries of [name2ip] for a domain: A records of that domain. *)
Definition is_lookup_of (domain : string) (rq : request) : Prop :=
  m_name (rq_message rq) = domain ∧ m_rdtype (rq_message rq) = RdCode rdatatype_A.

(** A computation that does nothing to the files but add reports: every
    new file has a report name, every file that was there is kept, and every
    text passed to [store_report] is in a file that was not there before. *)
Definition reports_only {A} (m : M A) : Prop :=
  ∀ σ r σ', m σ = (r, σ') →
    (∀ p, fs σ !! p = None → is_Some (fs σ' !! p) → is_report_name p) ∧
    (∀ p x, fs σ !! p = Some x → fs σ' !! p = Some x) ∧
    ∃ new, sunk σ' = sunk σ ++ new ∧
           ∀ d, d ∈ new → ∃ p, fs σ !! p = None ∧ fs σ' !! p = Some (FText d).

(** The files that belong to the baseline of a test: the live file and its
    archives. *)
Definition own_file (name p : string) : Prop :=
  p = stored_fname name ∨ ∃ stamp, p = archive_fname name stamp.

(** ** Concrete worlds for the examples *)

Definition demo_make_query_ok (q : message) : bool := true.
Definition demo_make_query_error (q : message) : exn := DNSException.
Definition demo_strftime (fmt : string) (n : nat) : string := "20260101-00000" +:+ str n.
Definition demo_rdatatype_to_text (n : N) : string :=
  if (n =? rdatatype_A)%N then "A" else "NS".
Definition demo_py_repr (d : fdata) : string := "{...}".

(** A response whose answer section is one RRset of A records. *)
Definition a_answer (addresses : list string) : response :=
  Response [Rdata rdatatype_A <$> addresses] [].

(** Both name servers resolve to the same address. *)
Definition shared_address_network (n : nat) (rq : request) : outcome :=
  match m_rdtype (rq_message rq) with
  | RdCode _ => Answered (a_answer ["198.51.100.1"])
  | RdText _ => Answered (a_answer ["198.51.100.9"])
  end.

(** The same, with a protocol error on the third request of the run. *)
Definition flaky_network (n : nat) (rq : request) : outcome :=
  if (n =? 2)%nat then RaisesDNS else shared_address_network n rq.

(** The first name server has two addresses, the second one of them; the
    two addresses give different answers. *)
Definition overlapping_network (n : nat) (rq : request) : outcome :=
  match m_rdtype (rq_message rq) with
  | RdCode _ =>
      if bool_decide (m_name (rq_message rq) = "ns1.example.test")
      then Answered (a_answer ["198.51.100.1"; "198.51.100.2"])
      else Answered (a_answer ["198.51.100.2"])
  | RdText _ =>
      if bool_decide (rq_where rq = PStr "198.51.100.1")
      then Answered (a_answer ["198.51.100.9"])
      else Answered (a_answer ["198.51.100.8"])
  end.

(** Every request fails on a protocol error. *)
Definition dead_network (n : nat) (rq : request) : outcome := RaisesDNS.

(** One protocol error, then responses without records. *)
Definition empty_network (n : nat) (rq : request) : outcome :=
  if (n =? 0)%nat then RaisesDNS else Answered (Response [] []).

(** One protocol error, then answers. *)
Definition recovering_network (n : nat) (rq : request) : outcome :=
  if (n =? 0)%nat then RaisesDNS else Answered (a_answer ["198.51.100.9"]).

Definition demo_resolver : gmap string pyval :=
  <["type" := PStr "udp"]> {["ip" := PStr "203.0.113.1"]}.
Definition demo_cfg : config := Config [demo_resolver] (Some demo_resolver).
Definition dnssec_cfg : config :=
  Config [] (Some (<["dnssec" := PBool true]> demo_resolver)).

(** Object 0 is [query_types], object 1 is [nameservers]. *)
Definition demo_state : state :=
  State [] 0 ∅ [["A"]; ["ns2.example.test"; "ns1.example.test"]] [].
Definition demo_test : test := Test "t1" "example.test" 0 1 None.

(** A state as the fan-out leaves it: object 2 is [nameservers_ips], objects
    3 and 4 hold the answers of the two addresses. *)
Definition answered_state : state :=
  State [] 0 {[ stored_fname "t1" :=
                  FJson {[ "A" := {[ "198.51.100.1" := ["A a"; "A b"];
                                    "198.51.100.2" := ["A a"; "A b"] ]};
                           "nameservers" := {[ "names" := ["ns1.example.test"] ]};
                           "nameservers_ips" :=
                             {[ "ips" := ["198.51.100.1"; "198.51.100.2"] ]} ]} ]}
    [["A"]; ["ns1.example.test"]; ["198.51.100.1"; "198.51.100.2"];
     ["A b"; "A a"]; ["A a"; "A b"]] [].
(** The same with two addresses that disagree. *)
Definition disagreeing_state : state :=
  State [] 0 ∅
    [["A"]; ["ns1.example.test"]; ["198.51.100.1"; "198.51.100.2"];
     ["A b"; "A a"]; ["A c"]] [].
Definition answered_answers : answers_dict :=
  <["A" := {[ "198.51.100.1" := 3; "198.51.100.2" := 4 ]}]> (initial_answers 1 2).

(** The records stored in the baseline of a test for a record type and an
    address. *)
Definition stored_records (σ : state) (name query_type ns_ip : string) :
    option (list string) :=
  match fs σ !! stored_fname name with
  | Some (FJson snap) => snap !! query_type ≫= (.!! ns_ip)
  | _ => None
  end.

(** A working directory in which the report name with the time stamp alone
    and the one with the sequence number 000 are taken. *)
Definition crowded_state : state :=
  State [] 0
    {[ report_fname (demo_strftime "%Y%m%d-%H%M%S" 0) := FText "first";
       report_fname_seq (demo_strftime "%Y%m%d-%H%M%S" 1) 0 := FText "second" ]}
    [] [].

(** The resolver answers the probe with a root server. *)
Definition root_network (n : nat) (rq : request) : outcome :=
  Answered (Response [[Rdata rdatatype_NS "a.root-servers.net."]] []).

(** A second resolver, reached over TCP. *)
Definition backup_resolver : gmap string pyval :=
  <["type" := PStr "tcp"]> {["ip" := PStr "203.0.113.2"]}.
Definition two_resolver_cfg : config := Config [demo_resolver; backup_resolver] None.

(** A resolver entry without the key ['type'], before a complete one. *)
Definition untyped_cfg : config :=
  Config [{["ip" := PStr "203.0.113.1"]}; backup_resolver] None.

(** One protocol error, then an error of the socket layer. *)
Definition broken_network (n : nat) (rq : request) : outcome :=
  if (n =? 0)%nat then RaisesDNS else RaisesOther.

(** [make_query] rejects a name with an empty label. *)
Definition picky_make_query_ok (q : message) : bool :=
  negb (bool_decide (m_name q = "ns1..example.test")).

(** The second request of the run fails in the socket layer. *)
Definition socket_error_network (n : nat) (rq : request) : outcome :=
  if (n =? 1)%nat then RaisesOther else Answered (a_answer ["198.51.100.9"]).

(** A test whose list [nameservers] (object 1) is empty. *)
Definition idle_state : state := State [] 0 ∅ [["A"]; []] [].

(** The demo test as an entry of [config['dns']], and an entry of another
    type. *)
Definition query_entry : dns_entry := DnsEntry (Some (PStr "query")) demo_test.
Definition zone_entry : dns_entry := DnsEntry (Some (PStr "zone")) demo_test.

(** [make_query] rejects the record type BOGUS. *)
Definition typed_make_query_ok (q : message) : bool :=
  match m_rdtype q with
  | RdText t => negb (bool_decide (t = "BOGUS"))
  | RdCode _ => true
  end.

(** A state before the fan-out of a test whose only record type is BOGUS:
    object 0 is [query_types], object 2 is [nameservers_ips]. *)
Definition bogus_state : state :=
  State [] 0 ∅ [["BOGUS"]; ["ns1.example.test"]; ["198.51.100.1"]] [].

(** One protocol error, then a response without records that carries an
    EDNS option. *)
Definition edns_network (n : nat) (rq : request) : outcome :=
  if (n =? 0)%nat then RaisesDNS else Answered (Response [] ["NSID"]).

(** [make_query] raises a [ValueError] for the type text TYPE65536, whose
    number is out of range. *)
Definition ranged_make_query_ok (q : message) : bool :=
  match m_rdtype q with
  | RdText t => negb (bool_decide (t = "TYPE65536"))
  | RdCode _ => true
  end.
Definition ranged_make_query_error (q : message) : exn := ValueError.

(** A test whose only record type is TYPE65536. *)
Definition out_of_range_state : state :=
  State [] 0 ∅ [["TYPE65536"]; ["ns1.example.test"]] [].

(** The resolver answers the probe with a root server and the lookups with
    an address; the name server answers the queries of the fan-out. *)
Definition working_network (n : nat) (rq : request) : outcome :=
  match m_rdtype (rq_message rq) with
  | RdCode c =>
      if (c =? rdatatype_NS)%N
      then Answered (Response [[Rdata rdatatype_NS "a.root-servers.net."]] [])
      else Answered (a_answer ["198.51.100.1"])
  | RdText _ => Answered (a_answer ["198.51.100.9"])
  end.

(** A state before the fan-out of a test with three addresses: object 2 is
    [nameservers_ips]. *)
Definition three_address_state : state :=
  State [] 0 ∅
    [["A"]; ["ns1.example.test"];
     ["198.51.100.1"; "198.51.100.2"; "198.51.100.3"]] [].

(** The demo state in a working directory that holds a file of another
    program and a report of an earlier run. *)
Definition furnished_state : state :=
  State [] 0
    {[ "notes.txt" := FText "keep";
       report_fname "20251231-235959" := FText "old report" ]}
    [["A"]; ["ns2.example.test"; "ns1.example.test"]] [].

(** * Properties *)

(** ** Stepping through the monad *)

(** Membership in a list written with [::] and [++]. *)
Ltac list_mem :=
  rewrite ?elem_of_app, ?elem_of_cons; auto 6.

Ltac simpl_state :=
  unfold with_fs, with_ticks, with_heap, with_sends, with_sunk in *; simpl in *.

Lemma bind_ret {A B} (a : A) (k : A → M B) σ : bind (ret a) k σ = k a σ.
Proof. done. Qed.
Lemma bind_assoc {A B C} (m : M A) (f : A → M B) (g : B → M C) σ :
  bind (bind m f) g σ = bind m (λ a, bind (f a) g) σ.
Proof. unfold bind. by destruct (m σ) as [[a|e] σ']. Qed.
Lemma bind_result {A B} (m : M A) (k : A → M B) σ r σ' :
  m σ = (r, σ') →
  bind m k σ = match r with Ok a => k a σ' | Raise e => (Raise e, σ') end.
Proof. unfold bind. by intros ->. Qed.
Lemma bind_now {B} fmt (k : string → M B) σ :
  bind (now fmt) k σ = k (strftime fmt (ticks σ)) (with_ticks S σ).
Proof. done. Qed.
Lemma bind_file_count {B} (k : nat → M B) σ :
  bind file_count k σ = k (size (fs σ)) σ.
Proof. done. Qed.
Lemma bind_path_exists {B} p (k : bool → M B) σ :
  bind (path_exists p) k σ = k (bool_decide (is_Some (fs σ !! p))) σ.
Proof. done. Qed.
Lemma bind_alloc {B} v (k : nat → M B) σ :
  bind (alloc v) k σ = k (length (heap σ)) (with_heap (λ h, h ++ [v]) σ).
Proof. done. Qed.
Lemma bind_read {B} l (k : list string → M B) σ :
  bind (read l) k σ = k (deref (heap σ) l) σ.
Proof. done. Qed.
Lemma bind_update {B} l f (k : unit → M B) σ :
  bind (update l f) k σ = k tt (with_heap (alter f l) σ).
Proof. done. Qed.
Lemma bind_sort_inplace {B} l (k : unit → M B) σ :
  bind (sort_inplace l) k σ = k tt (with_heap (alter sorted_list l) σ).
Proof. done. Qed.
Lemma bind_getitem {V B} (d : gmap string V) key v (k : V → M B) σ :
  d !! key = Some v → bind (getitem d key) k σ = k v σ.
Proof. unfold bind, getitem. by intros ->. Qed.
Lemma bind_current {B} answers (k : fdata → M B) σ :
  bind (current answers) k σ = k (FJson (snapshot_of (heap σ) answers)) σ.
Proof. done. Qed.

(** ** Resolver selection *)

(** The probe handles every [DNSException] itself. *)
Lemma test_resolver_no_dns_error resolver σ :
  fst (test_resolver resolver σ) ≠ Raise DNSException.
Proof.
  unfold test_resolver, try_dns, bind, make_query, getitem, dns_query, ret, raise.
  destruct (make_query_ok _); [|destruct (make_query_error _); simpl; congruence].
  destruct (resolver !! "type"); [|simpl; congruence].
  destruct (resolver !! "ip"); [|simpl; congruence].
  destruct (network _ _); simpl; congruence.
Qed.

(** A resolver that passed the probe has keys, so it is a true value. *)
Lemma test_resolver_healthy_truthy resolver σ :
  fst (test_resolver resolver σ) = Ok true → dict_truthy resolver = true.
Proof.
  unfold test_resolver, try_dns, bind, make_query, getitem, dns_query, ret, raise.
  intros H. unfold dict_truthy.
  destruct (decide (resolver = ∅)) as [->|Hne].
  - rewrite lookup_empty in H.
    destruct (make_query_ok _); [|destruct (make_query_error _)];
      simpl in H; congruence.
  - by rewrite bool_decide_eq_false_2.
Qed.

(** C1. Selection probes the first configured resolver and nothing else: the
    state it leaves is the one the probe of the first resolver leaves.  A
    healthy first resolver becomes [tested_resolver]; an unhealthy one, like
    an empty list, ends in the error of line 102, whatever the later
    resolvers of the list are; an exception of the probe is passed on. *)
Theorem select_probes_first_only (cfg : config) (σ : state) :
  match resolvers cfg with
  | [] => test_all_resolvers cfg σ = (Raise NoWorkingResolverFound, σ)
  | first :: later =>
      snd (test_all_resolvers cfg σ) = snd (test_resolver first σ) ∧
      fst (test_all_resolvers cfg σ) =
        match fst (test_resolver first σ) with
        | Ok true => Ok (Config (resolvers cfg) (Some first))
        | Ok false => Raise NoWorkingResolverFound
        | Raise e => Raise e
        end
  end.
Proof.
  unfold test_all_resolvers, bind.
  destruct (resolvers cfg) as [|first later] eqn:Hrs; [done|].
  simpl.
  pose proof (test_resolver_no_dns_error first σ) as Hnd.
  pose proof (test_resolver_healthy_truthy first σ) as Htr.
  destruct (test_resolver first σ) as [[[]|e] σ'] eqn:Hp; simpl in *.
  - rewrite Htr by done. done.
  - done.
  - destruct e; try done.
Qed.

(** ** File names *)

Definition chars (s : string) : list ascii := String.list_ascii_of_string s.

Lemma chars_app s1 s2 : chars (s1 +:+ s2) = chars s1 ++ chars s2.
Proof. induction s1 as [|c s1 IH]; simpl; [done|]. unfold chars in *. simpl. by f_equal. Qed.

Lemma chars_inj s1 s2 : chars s1 = chars s2 → s1 = s2.
Proof.
  intros H. rewrite <-(String.string_of_list_ascii_of_string s1),
    <-(String.string_of_list_ascii_of_string s2). unfold chars in H. by rewrite H.
Qed.

(** Two texts that end in the same separator followed by a separator-free
    part have the same last part. *)
Lemma last_field_unique {A} (c : A) (l1 : list A) : ∀ l2 z1 z2,
  l1 ++ c :: z1 = l2 ++ c :: z2 → c ∉ z1 → c ∉ z2 → z1 = z2.
Proof.
  induction l1 as [|a l1 IH]; intros [|b l2] z1 z2 Heq H1 H2; simpl in Heq.
  - congruence.
  - injection Heq as -> ->. exfalso. apply H1. list_mem.
  - injection Heq as -> <-. exfalso. apply H2. list_mem.
  - injection Heq as -> Heq. eauto.
Qed.

Lemma string_of_uint_no_dash d : "-"%char ∉ chars (NilEmpty.string_of_uint d).
Proof.
  induction d; simpl; unfold chars in *; simpl;
    rewrite ?elem_of_cons; try (intros [?|?]; [discriminate|done]).
  apply not_elem_of_nil.
Qed.

Lemma zeros_no_dash n s : "-"%char ∉ chars s → "-"%char ∉ chars (zeros n +:+ s).
Proof.
  intros Hs. induction n as [|n IH]; simpl; [done|].
  unfold chars in *. simpl. rewrite elem_of_cons. intros [?|?]; [discriminate|done].
Qed.

(** The number a zero-filled decimal text stands for. *)
Definition seq_value (s : string) : option nat :=
  Nat.of_uint <$> NilEmpty.uint_of_string s.

Lemma seq_value_zeros n s : seq_value (zeros n +:+ s) = seq_value s.
Proof.
  induction n as [|n IH]; simpl; [done|].
  unfold seq_value in *. simpl.
  destruct (NilEmpty.uint_of_string (zeros n +:+ s)) as [d|] eqn:Hd;
    destruct (NilEmpty.uint_of_string s) as [d'|] eqn:Hd'; simpl in *; try done.
Qed.

Lemma seq_value_zfill w k : seq_value (zfill w (str k)) = Some k.
Proof.
  unfold zfill. rewrite seq_value_zeros. unfold seq_value, str.
  rewrite NilEmpty.usu. simpl. by rewrite Unsigned.of_to.
Qed.

Lemma report_fname_seq_inj stamp1 stamp2 k1 k2 :
  report_fname_seq stamp1 k1 = report_fname_seq stamp2 k2 → k1 = k2.
Proof.
  unfold report_fname_seq. intros H%String.app_inj.
  apply (f_equal chars) in H. rewrite !chars_app in H.
  change (chars "-") with ["-"%char] in H. simpl in H.
  assert ((chars stamp1 ++ "-"%char :: chars (zfill 3 (str k1))) ++ chars ".txt"
          = (chars stamp2 ++ "-"%char :: chars (zfill 3 (str k2))) ++ chars ".txt")
    as H' by (rewrite <-!(assoc_L (++)); exact H).
  clear H. apply app_inv_tail in H'. rename H' into H.
  apply last_field_unique in H.
  - apply chars_inj in H. apply (f_equal seq_value) in H.
    rewrite !seq_value_zfill in H. congruence.
  - apply zeros_no_dash, string_of_uint_no_dash.
  - apply zeros_no_dash, string_of_uint_no_dash.
Qed.

Lemma archive_fname_fresh name stamp : archive_fname name stamp ≠ stored_fname name.
Proof.
  unfold archive_fname, stored_fname. intros H%String.app_inj%String.app_inj.
  discriminate.
Qed.

(** ** The report sink *)

Lemma free_fname_found fuel : ∀ fname seq σ found σ',
  free_fname fuel fname seq σ = (Ok (Some found), σ') →
  fs σ !! found = None ∧ σ' = with_ticks (λ _, ticks σ') σ.
Proof.
  induction fuel as [|fuel IH]; intros fname seq σ found σ';
    simpl; unfold bind, path_exists, ret, now; simpl;
    destruct (bool_decide_reflect (is_Some (fs σ !! fname))) as [Hin|Hout].
  - done.
  - intros [= <- <-]. split; [|by destruct σ].
    by apply eq_None_not_Some.
  - intros H. apply IH in H as [H1 H2]. split; [done|].
    rewrite H2. by destruct σ.
  - intros [= <- <-]. split; [|by destruct σ].
    by apply eq_None_not_Some.
Qed.

(** A search that gives up has seen a file for each of the sequence numbers
    it went through. *)
Lemma free_fname_exhausted fuel : ∀ fname seq σ σ',
  free_fname fuel fname seq σ = (Ok None, σ') →
  ∀ k, seq ≤ k < seq + fuel →
       ∃ stamp, is_Some (fs σ !! report_fname_seq stamp k).
Proof.
  induction fuel as [|fuel IH]; intros fname seq σ σ';
    simpl; unfold bind, path_exists, ret, now; simpl;
    destruct (bool_decide_reflect (is_Some (fs σ !! fname))) as [Hin|Hout];
    try done.
  - intros _ k Hk. lia.
  - intros H k Hk.
    destruct (decide (k = seq)) as [->|Hne].
    + clear IH. revert H. destruct fuel as [|fuel]; simpl;
        unfold bind, path_exists, ret, now; simpl;
        match goal with |- context [bool_decide (is_Some ?x)] =>
          destruct (bool_decide_reflect (is_Some x)) as [Hin'|Hout'] end;
        try done; eauto.
    + eapply (IH _ _ _ _ H). lia.
Qed.

Lemma free_fname_no_error fuel : ∀ fname seq σ e σ',
  free_fname fuel fname seq σ ≠ (Raise e, σ').
Proof.
  induction fuel as [|fuel IH]; intros fname seq σ e σ';
    simpl; unfold bind, path_exists, ret, now; simpl;
    destruct (bool_decide (is_Some (fs σ !! fname))); try done; apply IH.
Qed.

(** Files with [n] different sequence numbers make at least [n] files. *)
Lemma numbered_files_size (m : gmap string fdata) n :
  (∀ k, k < n → ∃ stamp, is_Some (m !! report_fname_seq stamp k)) →
  n ≤ size m.
Proof.
  intros H.
  assert (∃ l : list string, length l = n ∧ NoDup l ∧
            ∀ x, x ∈ l → is_Some (m !! x) ∧
                         ∃ stamp k, k < n ∧ x = report_fname_seq stamp k)
    as (l & Hlen & Hnd & Hl).
  { induction n as [|n IH].
    - exists []. split_and!; [done|constructor|]. intros x Hx. by apply elem_of_nil in Hx.
    - destruct IH as (l & Hlen & Hnd & Hl); [intros k Hk; apply H; lia|].
      destruct (H n) as [stamp Hs]; [lia|].
      exists (report_fname_seq stamp n :: l). split_and!.
      + simpl. by rewrite Hlen.
      + constructor; [|done]. intros Hin. apply Hl in Hin as (_ & st & k & Hk & Heq).
        apply report_fname_seq_inj in Heq. lia.
      + intros x [->|Hx]%elem_of_cons.
        * split; [done|]. exists stamp, n. split; [lia|done].
        * apply Hl in Hx as (? & st & k & Hk & ->). split; [done|].
          exists st, k. split; [lia|done]. }
  rewrite <-Hlen, <-size_dom. unfold size, set_size. simpl.
  apply submseteq_length, NoDup_submseteq; [done|].
  intros x Hx. apply elem_of_elements, elem_of_dom. by apply Hl.
Qed.

Lemma free_fname_enough fname σ :
  ∃ found σ', free_fname (S (size (fs σ))) fname 0 σ = (Ok (Some found), σ').
Proof.
  destruct (free_fname (S (size (fs σ))) fname 0 σ) as [[[found|]|e] σ'] eqn:H.
  - eauto.
  - pose proof (free_fname_exhausted _ _ _ _ _ H) as Hex.
    assert (S (size (fs σ)) ≤ size (fs σ)); [|lia].
    apply numbered_files_size. intros k Hk. apply Hex. lia.
  - by apply free_fname_no_error in H.
Qed.

(** [store_report] always returns: it writes the text to a file that did not
    exist and leaves every other file, the store and the requests alone. *)
Lemma store_report_spec details σ :
  ∃ fname t,
    fs σ !! fname = None ∧
    store_report details σ =
      (Ok tt, State (sends σ) t (<[fname := FText details]> (fs σ))
                    (heap σ) (sunk σ ++ [details])).
Proof.
  unfold store_report. rewrite bind_now, bind_file_count.
  set (σ1 := with_ticks S σ).
  destruct (free_fname_enough (report_fname (strftime "%Y%m%d-%H%M%S" (ticks σ))) σ1)
    as (found & σ2 & Hf).
  rewrite (bind_result _ _ _ _ _ Hf).
  apply free_fname_found in Hf as [Hnone ->].
  exists found, (S (ticks σ2)). split; [done|].
  by destruct σ.
Qed.

(** ** The baseline *)

Lemma bind_json_dump {B} answers p (k : unit → M B) σ :
  bind (json_dump answers p) k σ
  = k tt (with_fs <[p := FJson (snapshot_of (heap σ) answers)]> σ).
Proof. done. Qed.

Lemma bind_json_load {B} p d (k : fdata → M B) σ :
  fs σ !! p = Some d → (∀ raw, d ≠ FText raw) →
  bind (json_load p) k σ = k d σ.
Proof.
  unfold bind, json_load. intros -> Hd. destruct d; try done. by destruct (Hd raw).
Qed.

Lemma bind_rename {B} src dst d (k : unit → M B) σ :
  fs σ !! src = Some d →
  bind (rename src dst) k σ = k tt (with_fs (λ f, <[dst := d]> (delete src f)) σ).
Proof. unfold bind, rename. by intros ->. Qed.

(** A stored baseline equal to the current results: nothing happens. *)
Lemma baseline_diff_same name query_name answers σ :
  fs σ !! stored_fname name = Some (FJson (snapshot_of (heap σ) answers)) →
  baseline_diff name query_name answers σ = (Ok false, σ).
Proof.
  intros Hfs. unfold baseline_diff.
  rewrite bind_path_exists, Hfs, bool_decide_eq_true_2 by eauto. cbv iota.
  rewrite bind_ret, (bind_json_load _ _ _ _ Hfs) by done.
  rewrite bind_current, bool_decide_eq_false_2 by (intros H; by apply H).
  done.
Qed.

(** C5. Without a stored baseline for the test name, the baseline step
    writes the current snapshot as the baseline and does nothing else: no
    report is passed to [store_report] and the test of line 256 is false. *)
Theorem baseline_first_run (name query_name : string) (answers : answers_dict)
    (σ : state) :
  fs σ !! stored_fname name = None →
  baseline_diff name query_name answers σ =
    (Ok false,
     with_fs <[stored_fname name := FJson (snapshot_of (heap σ) answers)]> σ).
Proof.
  intros Hfs. unfold baseline_diff.
  rewrite bind_path_exists, Hfs, bool_decide_eq_false_2 by (by intros [? ?]).
  cbv iota. rewrite bind_json_dump.
  set (σ1 := with_fs _ σ).
  assert (fs σ1 !! stored_fname name = Some (FJson (snapshot_of (heap σ1) answers)))
    as Hfs1 by apply lookup_insert_eq.
  rewrite (bind_json_load _ _ _ _ Hfs1) by done.
  rewrite bind_current, bool_decide_eq_false_2 by (intros H; by apply H).
  done.
Qed.

(** C7. When the stored baseline differs from the current results, the
    update returns, and afterwards the old content is found unchanged under
    the name with the time stamp, the current snapshot under the live name,
    and every other file is where it was unless it had the archive's name. *)
Theorem baseline_drift_archives (name query_name : string) (answers : answers_dict)
    (old : fdata) (σ : state) :
  fs σ !! stored_fname name = Some old →
  (∀ raw, old ≠ FText raw) →
  old ≠ FJson (snapshot_of (heap σ) answers) →
  ∃ t σ',
    let archive := archive_fname name (strftime "%Y%m%d-%H%M%S" t) in
    baseline_diff name query_name answers σ = (Ok true, σ') ∧
    archive ≠ stored_fname name ∧
    fs σ' !! archive = Some old ∧
    fs σ' !! stored_fname name = Some (FJson (snapshot_of (heap σ) answers)) ∧
    (∀ p d, fs σ !! p = Some d → p ≠ stored_fname name → p ≠ archive →
            fs σ' !! p = Some d).
Proof.
  intros Hfs Hjson Hne. unfold baseline_diff.
  rewrite bind_path_exists, Hfs, bool_decide_eq_true_2 by eauto. cbv iota.
  rewrite bind_ret, (bind_json_load _ _ _ _ Hfs) by done.
  rewrite bind_current, bool_decide_eq_true_2 by done.
  destruct (store_report_spec
    (baseline_report query_name old (FJson (snapshot_of (heap σ) answers))) σ)
    as (rf & t & Hrf & Hsr).
  rewrite (bind_result _ _ _ _ _ Hsr), bind_now. simpl ticks.
  assert (rf ≠ stored_fname name) as Hrfne by congruence.
  erewrite bind_rename; [|simpl; by rewrite lookup_insert_ne].
  rewrite bind_json_dump. unfold ret. simpl.
  eexists t, _. split_and!; [done|apply archive_fname_fresh| | |]; simpl_state.
  - rewrite lookup_insert_ne by apply not_eq_sym, archive_fname_fresh.
    apply lookup_insert_eq.
  - apply lookup_insert_eq.
  - intros p d Hp Hp1 Hp2.
    rewrite lookup_insert_ne, lookup_insert_ne, lookup_delete_ne by done.
    rewrite lookup_insert_ne; [done|]. congruence.
Qed.

(** ** Sorting *)

Lemma sorted_list_Sorted l : Sorted String.le (sorted_list l).
Proof. apply Sorted_merge_sort, _. Qed.

Lemma sorted_list_perm l : sorted_list l ≡ₚ l.
Proof. apply merge_sort_Permutation. Qed.

Lemma sorted_list_unique l1 l2 : l1 ≡ₚ l2 → sorted_list l1 = sorted_list l2.
Proof.
  intros H. apply (Sorted_unique String.le); try apply sorted_list_Sorted.
  by rewrite !sorted_list_perm.
Qed.

Lemma sorted_list_id l : Sorted String.le l → sorted_list l = l.
Proof.
  intros H. apply (Sorted_unique String.le);
    [apply sorted_list_Sorted|done|apply sorted_list_perm].
Qed.

Lemma sorted_list_idemp l : sorted_list (sorted_list l) = sorted_list l.
Proof. apply sorted_list_id, sorted_list_Sorted. Qed.

(** The head of a sorted list is its least element. *)
Lemma sorted_head_least l x y :
  Sorted String.le l → l !! 0 = Some x → y ∈ l → String.le x y.
Proof.
  intros Hs Hx Hy. apply (Sorted_StronglySorted _) in Hs.
  destruct l as [|x' l]; [done|]. injection Hx as ->.
  apply elem_of_cons in Hy as [->|Hy]; [done|].
  apply StronglySorted_inv in Hs as [_ Hall].
  by eapply Forall_forall in Hall.
Qed.

(** ** Name resolution *)

Section Resolve.

Variables (cfg : config) (tr : gmap string pyval) (domain : string) (ty ip : pyval).
Hypothesis Hactive : tested_resolver cfg = Some tr.
Hypothesis Htype : tr !! "type" = Some ty.
Hypothesis Hip : tr !! "ip" = Some ip.

Let d : pyval := default (PBool false) (tr !! "dnssec").
Let rq : request := Request (transport_of ty) ip (Message domain (RdCode rdatatype_A) d).

Hypothesis Hquery : make_query_ok (Message domain (RdCode rdatatype_A) d) = true.

Lemma name2ip_query_sends σ :
  name2ip_query tr domain d σ =
    (match network (length (sends σ)) rq with
     | Answered r => Ok r
     | RaisesDNS => Raise DNSException
     | RaisesOther => Raise OSError
     end, with_sends (λ s, s ++ [rq]) σ).
Proof.
  unfold name2ip_query, bind, make_query, getitem, dns_query, ret.
  rewrite Hquery, Htype, Hip. fold rq. by destruct (network _ _).
Qed.

Lemma with_sends_app l1 l2 σ :
  with_sends (λ s, s ++ l2) (with_sends (λ s, s ++ l1) σ)
  = with_sends (λ s, s ++ (l1 ++ l2)) σ.
Proof. destruct σ. unfold with_sends. simpl. by rewrite <-(assoc_L (++)). Qed.

(** [k] protocol errors followed by an answer: the loop sends [k + 1]
    requests and leaves with the records of that answer. *)
Lemma name2ip_loop_answer k : ∀ attempts L σ r,
  k < attempts →
  (∀ i, i < k → network (length (sends σ) + i) rq = RaisesDNS) →
  network (length (sends σ) + k) rq = Answered r →
  name2ip_loop attempts cfg domain L σ =
    (Ok (Locals (retanswer L ++ a_records r) (Some d) (Some r)),
     with_sends (λ s, s ++ replicate (S k) rq) σ).
Proof.
  induction k as [|k IH]; intros attempts L σ r Hlt Herr Hans.
  - destruct attempts as [|a]; [lia|]. simpl. rewrite Hactive.
    fold d. rewrite name2ip_query_sends.
    rewrite Nat.add_0_r in Hans. by rewrite Hans.
  - destruct attempts as [|a]; [lia|]. simpl. rewrite Hactive.
    fold d. rewrite name2ip_query_sends.
    rewrite <-(Nat.add_0_r (length (sends σ))), Herr by lia.
    destruct (decide (a = 0)) as [->|_]; [lia|].
    rewrite (IH a _ _ r); [|lia| |].
    + simpl. by rewrite with_sends_app.
    + intros i Hi. simpl. rewrite length_app. simpl.
      rewrite <-Nat.add_assoc. apply Herr. lia.
    + simpl. rewrite length_app. simpl. by rewrite <-Nat.add_assoc.
Qed.

(** Only protocol errors: the loop sends [attempts] requests and leaves with
    what it had, [response] still unbound if it was. *)
Lemma name2ip_loop_errors attempts : ∀ L σ,
  0 < attempts →
  (∀ i, i < attempts → network (length (sends σ) + i) rq = RaisesDNS) →
  name2ip_loop attempts cfg domain L σ =
    (Ok (Locals (retanswer L) (Some d) (last_response L)),
     with_sends (λ s, s ++ replicate attempts rq) σ).
Proof.
  induction attempts as [|a IH]; intros L σ Hpos Herr; [lia|].
  simpl. rewrite Hactive. fold d. rewrite name2ip_query_sends.
  rewrite <-(Nat.add_0_r (length (sends σ))), Herr by lia.
  destruct (decide (a = 0)) as [->|Hne]; [done|].
  rewrite IH; [|lia|].
  - simpl. by rewrite with_sends_app.
  - intros i Hi. simpl. rewrite length_app. simpl.
    rewrite <-Nat.add_assoc. apply Herr. lia.
Qed.

(** C4. With every query failing on a protocol error, [name2ip] sends
    exactly ten requests, one after the other.  It then raises the error of
    line 137 when the resolver does not ask for DNSSEC; when it does, line
    134 reads [response], which no attempt has bound, and the call ends in
    an [UnboundLocalError] instead. *)
Theorem name2ip_all_protocol_errors σ :
  (∀ i, i < 10 → network (length (sends σ) + i) rq = RaisesDNS) →
  name2ip cfg domain σ =
    (Raise (if truthy d then UnboundLocalError "response"
            else NoARecordFound domain ip),
     with_sends (λ s, s ++ replicate 10 rq) σ).
Proof.
  intros Herr. unfold name2ip, bind.
  rewrite name2ip_loop_errors by (done || lia). simpl.
  destruct (truthy d); simpl; [done|].
  rewrite Hactive. simpl. unfold getitem. by rewrite Hip.
Qed.

(** C10. When an attempt of [name2ip] gets a response without A records,
    after [k] attempts that failed on protocol errors, the loop ends there:
    [k + 1] requests have been sent and none follows the empty answer.  The
    call then raises the error of line 137, unless the resolver asks for
    DNSSEC and the response carries EDNS options: then line 135 calls
    [to_text] on the tuple of the options, and the call ends in an
    [AttributeError] instead. *)
Theorem name2ip_empty_answer_no_retry (k : nat) (r : response) (σ : state) :
  k < 10 →
  (∀ i, i < k → network (length (sends σ) + i) rq = RaisesDNS) →
  network (length (sends σ) + k) rq = Answered r →
  a_records r = [] →
  name2ip cfg domain σ =
    (Raise (if truthy d && negb (bool_decide (options r = [])) then AttributeError
            else NoARecordFound domain ip),
     with_sends (λ s, s ++ replicate (S k) rq) σ).
Proof.
  intros Hk Herr Hans Hempty. unfold name2ip, bind.
  rewrite (name2ip_loop_answer k _ _ _ r) by done.
  rewrite Hempty. simpl.
  destruct (truthy d); simpl; [destruct (bool_decide (options r = [])); simpl; [|done]|];
    rewrite Hactive; simpl; unfold getitem; by rewrite Hip.
Qed.

End Resolve.

(** [name2ip] only sends requests, and none of them is a fan-out request. *)

Lemma with_sends_nil σ : with_sends (λ s, s ++ []) σ = σ.
Proof. destruct σ. unfold with_sends. simpl. by rewrite app_nil_r. Qed.

Lemma name2ip_query_effect tr domain d σ :
  ∃ r new, name2ip_query tr domain d σ = (r, with_sends (λ s, s ++ new) σ)
           ∧ lookups_only new.
Proof.
  unfold name2ip_query, bind, make_query, getitem, dns_query, ret, raise.
  destruct (make_query_ok _);
    [|eexists _, []; rewrite with_sends_nil; split; [done|constructor]].
  destruct (tr !! "type");
    [|eexists _, []; rewrite with_sends_nil; split; [done|constructor]].
  destruct (tr !! "ip");
    [|eexists _, []; rewrite with_sends_nil; split; [done|constructor]].
  destruct (network _ _); eexists _, [_]; (split; [done|by repeat constructor]).
Qed.

Lemma name2ip_loop_effect cfg domain attempts : ∀ L σ,
  ∃ L' new, name2ip_loop attempts cfg domain L σ = (Ok L', with_sends (λ s, s ++ new) σ)
            ∧ lookups_only new.
Proof.
  induction attempts as [|a IH]; intros L σ; simpl.
  { eexists _, []. rewrite with_sends_nil. split; [done|constructor]. }
  destruct (tested_resolver cfg) as [tr|];
    [|eexists _, []; rewrite with_sends_nil; split; [done|constructor]].
  destruct (name2ip_query_effect tr domain (default (PBool false) (tr !! "dnssec")) σ)
    as (r & new & -> & Hnew).
  destruct r as [r|e]; [by eauto|].
  destruct e; try by eauto.
  destruct (decide (a = 0)); [by eauto|].
  edestruct IH as (L' & new' & -> & Hnew').
  rewrite with_sends_app. eexists _, _. split; [done|]. by apply Forall_app.
Qed.

Lemma name2ip_effect cfg domain σ :
  ∃ r new, name2ip cfg domain σ = (r, with_sends (λ s, s ++ new) σ)
           ∧ lookups_only new.
Proof.
  unfold name2ip.
  destruct (name2ip_loop_effect cfg domain 10 (Locals [] None None) σ)
    as (L & new & HL & Hnew).
  rewrite (bind_result _ _ _ _ _ HL).
  exists (fst (name2ip cfg domain σ)), new. split; [|done].
  unfold name2ip. rewrite (bind_result _ _ _ _ _ HL).
  destruct (bool_decide (retanswer L = [])); [|done].
  unfold bind, ret, raise, getitem.
  destruct (dnssec_opt L) as [d|]; [|done].
  destruct (truthy d);
    [destruct (last_response L) as [r0|];
     [destruct (bool_decide (options r0 = [])); [|done]|done]|];
    (destruct (tested_resolver cfg) as [tr|]; [|done]);
    by destruct (tr !! "ip").
Qed.

(** ** Lines 165-185: the fan-out list *)

Lemma resolve_loop_spec cfg li : ∀ names σ,
  li < length (heap σ) →
  ∃ r new acc,
    for_each (λ ns, bind (name2ip cfg ns) (λ ip, update li (λ l, l ++ ip))) names σ
    = (r, State (sends σ ++ new) (ticks σ) (fs σ)
                (<[li := deref (heap σ) li ++ acc]> (heap σ)) (sunk σ))
    ∧ lookups_only new
    ∧ (r = Ok tt → ∃ resolved, resolved_by cfg names resolved ∧ acc = concat resolved).
Proof.
  induction names as [|ns names IH]; intros σ Hli.
  - exists (Ok tt), [], []. simpl. split_and!; [|constructor|].
    + unfold ret. f_equal. destruct σ; simpl in *. rewrite !app_nil_r. f_equal.
      symmetry. apply list_insert_id. unfold deref.
      by destruct (lookup_lt_is_Some_2 heap0 li Hli) as [x ->].
    + intros _. exists []. split; [constructor|done].
  - simpl for_each.
    destruct (name2ip_effect cfg ns σ) as (r & new & Hr & Hnew).
    rewrite bind_assoc, (bind_result _ _ _ _ _ Hr).
    destruct r as [ip|e].
    + rewrite bind_update.
      set (σ1 := with_heap _ _).
      destruct (IH σ1) as (r' & new' & acc' & Hloop & Hnew' & Hres).
      { subst σ1. simpl_state. by rewrite length_alter. }
      rewrite Hloop. exists r', (new ++ new'), (ip ++ acc').
      split_and!; [|by apply Forall_app|].
      * f_equal. subst σ1. simpl_state. rewrite (assoc_L (++)). f_equal.
        unfold deref. rewrite list_lookup_alter_eq.
        destruct (lookup_lt_is_Some_2 (heap σ) li Hli) as [x Hx]. rewrite Hx. simpl.
        rewrite (assoc_L (++)).
        apply list_eq. intros i. destruct (decide (i = li)) as [->|Hne].
        -- rewrite !list_lookup_insert_eq; [done|by rewrite ?length_alter..].
        -- by rewrite !list_lookup_insert_ne, list_lookup_alter_ne.
      * intros Hok. destruct (Hres Hok) as (resolved & Hall & ->).
        exists (ip :: resolved). split; [|done].
        constructor; [|done]. eauto.
    + exists (Raise e), new, []. split_and!; [|done|done].
      f_equal. simpl_state. f_equal. symmetry. rewrite app_nil_r.
      apply list_insert_id. unfold deref.
      by destruct (lookup_lt_is_Some_2 (heap σ) li Hli) as [x ->].
Qed.

Lemma resolve_nameservers_spec cfg lns σ :
  lns < length (heap σ) →
  ∃ r new raw,
    resolve_nameservers cfg lns σ
    = (r, State (sends σ ++ new) (ticks σ) (fs σ) (heap σ ++ [raw]) (sunk σ))
    ∧ lookups_only new
    ∧ (∀ li, r = Ok li →
         li = length (heap σ) ∧
         ∃ resolved, resolved_by cfg (deref (heap σ) lns) resolved
                     ∧ raw = concat resolved).
Proof.
  intros Hlns. unfold resolve_nameservers.
  rewrite bind_alloc, bind_read.
  set (σ1 := with_heap _ σ).
  destruct (resolve_loop_spec cfg (length (heap σ)) (deref (heap σ1) lns) σ1)
    as (r & new & acc & Hloop & Hnew & Hres).
  { subst σ1. simpl_state. rewrite length_app. simpl. lia. }
  rewrite (bind_result _ _ _ _ _ Hloop).
  assert (deref (heap σ1) lns = deref (heap σ) lns) as Hnames.
  { subst σ1. simpl_state. unfold deref. by rewrite lookup_app_l. }
  assert (<[length (heap σ) := deref (heap σ1) (length (heap σ)) ++ acc]> (heap σ1)
          = heap σ ++ [acc]) as Hheap.
  { subst σ1. simpl_state. unfold deref.
    rewrite list_lookup_middle by done. simpl.
    rewrite <-(Nat.add_0_r (length (heap σ))) at 1. by rewrite insert_app_r. }
  destruct r as [[]|e].
  - exists (Ok (length (heap σ))), new, acc. split_and!; [|done|].
    + unfold ret. f_equal. rewrite Hheap. by subst σ1.
    + intros li [= <-]. split; [done|]. rewrite <-Hnames. by apply Hres.
  - exists (Raise e), new, acc. split_and!; [|done|done].
    f_equal. rewrite Hheap. by subst σ1.
Qed.

Lemma init_answers_spec lns li σ :
  init_answers lns li σ =
    (Ok (initial_answers lns li),
     with_heap (λ h, alter sorted_list li (alter sorted_list lns h)) σ).
Proof.
  unfold init_answers.
  erewrite bind_getitem by by simplify_map_eq.
  erewrite bind_getitem by by simplify_map_eq.
  erewrite bind_getitem by by simplify_map_eq.
  erewrite bind_getitem by by simplify_map_eq.
  rewrite bind_sort_inplace.
  erewrite bind_getitem by by simplify_map_eq.
  erewrite bind_getitem by by simplify_map_eq.
  rewrite bind_sort_inplace. unfold ret. f_equal.
Qed.

(** ** Lines 188-209: the fan-out *)

Lemma with_heap_extend σ ext : with_heap (λ h, h ++ ext) σ = extend σ [] ext.
Proof. destruct σ. unfold extend, with_heap. simpl. by rewrite app_nil_r. Qed.

Lemma bind_ok_inv {A B} (m : M A) (k : A → M B) σ b σ' :
  bind m k σ = (Ok b, σ') → ∃ a σ1, m σ = (Ok a, σ1) ∧ k a σ1 = (Ok b, σ').
Proof. unfold bind. destruct (m σ) as [[a|e] σ1]; [eauto|done]. Qed.

Lemma for_fold_app {A S} (body : A → S → M S) xs ys s σ :
  for_fold body (xs ++ ys) s σ
  = bind (for_fold body xs s) (λ s', for_fold body ys s') σ.
Proof.
  revert s σ. induction xs as [|x xs IH]; intros s σ; simpl; [done|].
  rewrite bind_assoc. unfold bind at 1 2. destruct (body x s σ) as [[s1|e] σ1]; [|done].
  apply IH.
Qed.

Section FanOut.

Variables (cfg : config) (query_name : string) (q_proto : pyval).

Lemma query_one_eq query_type ns_ip (answers : answers_dict) d σ :
  answers !! query_type = Some d →
  query_one cfg query_name q_proto query_type ns_ip answers σ =
    let '(r, sent) :=
      pair_outcome cfg query_name q_proto query_type ns_ip (length (sends σ)) in
    (match r with
     | Ok _ => Ok (<[query_type := <[ns_ip := length (heap σ)]> d]> answers)
     | Raise e => Raise e
     end,
     extend σ sent [match r with Ok c => c | Raise _ => [] end]).
Proof.
  intros Hd. unfold query_one.
  rewrite bind_alloc, (bind_getitem _ _ _ _ _ Hd).
  unfold pair_outcome, fan_out_request.
  destruct (tested_resolver cfg) as [tr|] eqn:Htr.
  2:{ unfold bind, try_dns, raise. simpl. by rewrite with_heap_extend. }
  assert (fan_out_message cfg query_name query_type
          = Message query_name (RdText query_type)
              (default (PBool false) (tr !! "dnssec"))) as ->
    by (unfold fan_out_message; by rewrite Htr).
  unfold bind at 1, try_dns, make_query. simpl. rewrite bind_ret.
  destruct (make_query_ok _);
    [|destruct (make_query_error _); simpl; by rewrite with_heap_extend].
  rewrite bind_ret. unfold bind at 1, dns_query. simpl.
  destruct (network _ _); [|done..].
  erewrite bind_getitem by apply lookup_insert_eq.
  erewrite bind_getitem by apply lookup_insert_eq.
  unfold update, ret, extend. f_equal. simpl_state. f_equal.
  rewrite <-(Nat.add_0_r (length (heap σ))) at 1. by rewrite alter_app_r.
Qed.

(** One pass of the outer loop only adds list objects; when it completes,
    the dictionary of the record type has got one new object for each
    address of the list. *)
Lemma inner_frame query_type : ∀ ips (answers : answers_dict) d σ r σ',
  answers !! query_type = Some d →
  for_fold (query_one cfg query_name q_proto query_type) ips answers σ = (r, σ') →
  ticks σ' = ticks σ ∧ fs σ' = fs σ ∧ sunk σ' = sunk σ ∧
  ∃ ext, heap σ' = heap σ ++ ext ∧
    ∀ answers', r = Ok answers' →
      length ext = length ips ∧
      ∃ d', answers' = <[query_type := d']> answers ∧
            (∀ ip, ip ∉ ips → d' !! ip = d !! ip) ∧
            (∀ ip, ip ∈ ips →
               ∃ l, d' !! ip = Some l ∧ length (heap σ) ≤ l < length (heap σ) + length ips).
Proof.
  induction ips as [|ip ips IH]; intros answers d σ r σ' Hd; simpl.
  - intros [= <- <-]. split_and!; try done. exists []. rewrite app_nil_r. split; [done|].
    intros ? [= <-]. split; [done|]. exists d. split_and!.
    + by rewrite insert_id.
    + done.
    + intros ip Hip. by apply elem_of_nil in Hip.
  - unfold bind at 1. rewrite (query_one_eq _ _ _ _ _ Hd).
    destruct (pair_outcome _ _ _ _ _ _) as [[c|e] sent]; simpl.
    + intros Hrest. eapply IH in Hrest as (Ht & Hf & Hs & ext & Hh & Hok);
        [|apply lookup_insert_eq].
      split_and!; try done. exists ([c] ++ ext). simpl in Hh.
      split; [by rewrite Hh, <-(assoc_L (++))|].
      intros answers' ->. destruct (Hok _ eq_refl) as (Hlen & d' & -> & Hout & Hin).
      split; [simpl; by rewrite Hlen|]. exists d'. split_and!.
      * by rewrite insert_insert_eq.
      * intros ip' Hip'. apply not_elem_of_cons in Hip' as [Hne Hip'].
        rewrite Hout by done. by rewrite lookup_insert_ne.
      * intros ip' Hip'. simpl in Hin. rewrite length_app in Hin. simpl in Hin.
        destruct (decide (ip' ∈ ips)) as [Hi|Hi].
        -- destruct (Hin _ Hi) as (l & Hl & Hb). exists l. split; [done|]. simpl. lia.
        -- apply elem_of_cons in Hip' as [->|?]; [|done].
           exists (length (heap σ)). rewrite Hout by done.
           rewrite lookup_insert_eq. split; [done|]. simpl. lia.
    + intros [= <- <-]. split_and!; try done. eexists. split; [done|]. done.
Qed.

Lemma fan_out_requests_nil query_type :
  fan_out_requests cfg query_name q_proto [] query_type = [].
Proof. unfold fan_out_requests. by destruct (make_query_ok _). Qed.

Lemma fan_out_requests_length ips query_type :
  make_query_ok (fan_out_message cfg query_name query_type) = true →
  length (fan_out_requests cfg query_name q_proto ips query_type) = length ips.
Proof. unfold fan_out_requests. intros ->. apply length_fmap. Qed.

(** A pass that completes has sent its request to every address of the
    list, in the order of the list. *)
Lemma inner_sends query_type : ∀ ips (answers : answers_dict) d σ answers' σ',
  answers !! query_type = Some d →
  for_fold (query_one cfg query_name q_proto query_type) ips answers σ
    = (Ok answers', σ') →
  sends σ' = sends σ ++ fan_out_requests cfg query_name q_proto ips query_type.
Proof.
  induction ips as [|ip ips IH]; intros answers d σ answers' σ' Hd; simpl.
  - intros [= <- <-]. by rewrite fan_out_requests_nil, app_nil_r.
  - unfold bind at 1. rewrite (query_one_eq _ _ _ _ _ Hd).
    unfold pair_outcome, fan_out_requests.
    destruct (tested_resolver cfg) as [tr|]; [|done].
    destruct (make_query_ok _) eqn:Hok.
    + destruct (network _ _); try done; simpl; intros Hrest;
        (eapply IH in Hrest; [|apply lookup_insert_eq]);
        rewrite Hrest; unfold fan_out_requests; rewrite Hok; simpl;
        by rewrite <-(assoc_L (++)).
    + destruct (make_query_error _); try done.
      simpl. intros Hrest. eapply IH in Hrest; [|apply lookup_insert_eq].
      rewrite Hrest. unfold fan_out_requests. rewrite Hok. simpl.
      by rewrite !app_nil_r.
Qed.

(** Without an exception other than protocol errors, a pass completes. *)
Lemma inner_regular query_type : ∀ ips (answers : answers_dict) d σ,
  answers !! query_type = Some d →
  tested_resolver cfg ≠ None →
  make_query_ok (fan_out_message cfg query_name query_type) = true →
  (∀ j ip, ips !! j = Some ip →
     network (length (sends σ) + j)
       (fan_out_request cfg query_name q_proto query_type ip) ≠ RaisesOther) →
  ∃ answers' σ',
    for_fold (query_one cfg query_name q_proto query_type) ips answers σ
      = (Ok answers', σ').
Proof.
  induction ips as [|ip ips IH]; intros answers d σ Hd Htr Hok Hnet; simpl.
  - by eexists _, _.
  - unfold bind at 1. rewrite (query_one_eq _ _ _ _ _ Hd).
    unfold pair_outcome. destruct (tested_resolver cfg) as [tr|] eqn:Htr'; [|done].
    rewrite Hok. pose proof (Hnet 0 ip eq_refl) as H0. rewrite Nat.add_0_r in H0.
    destruct (network _ _); try done; simpl;
      (eapply IH; [apply lookup_insert_eq|done|done|]);
      intros j ip' Hj; simpl; rewrite length_app; simpl;
      rewrite <-Nat.add_assoc; by apply (Hnet (S j)).
Qed.

(** The object that a completed pass leaves for an address holds what the
    last request to that address gave. *)
Lemma inner_last query_type ib ip ia (answers : answers_dict) d σ answers' σ' c :
  answers !! query_type = Some d →
  ip ∉ ia →
  make_query_ok (fan_out_message cfg query_name query_type) = true →
  for_fold (query_one cfg query_name q_proto query_type) (ib ++ ip :: ia) answers σ
    = (Ok answers', σ') →
  fst (pair_outcome cfg query_name q_proto query_type ip
         (length (sends σ) + length ib)) = Ok c →
  ∃ d' l, answers' !! query_type = Some d' ∧ d' !! ip = Some l
          ∧ heap σ' !! l = Some c.
Proof.
  intros Hd Hia Hok Hrun Hc.
  rewrite for_fold_app in Hrun.
  apply bind_ok_inv in Hrun as (a1 & σ1 & H1 & H2).
  pose proof (inner_sends _ _ _ _ _ _ _ Hd H1) as Hs1.
  pose proof (inner_frame _ _ _ _ _ _ _ Hd H1) as (_ & _ & _ & ext1 & Hh1 & Ha1).
  destruct (Ha1 _ eq_refl) as (_ & d1 & -> & _ & _).
  simpl in H2. apply bind_ok_inv in H2 as (a2 & σ2 & H2 & H3).
  rewrite (query_one_eq _ _ _ d1) in H2 by apply lookup_insert_eq.
  rewrite Hs1, length_app, fan_out_requests_length in H2 by done.
  destruct (pair_outcome _ _ _ _ _ _) as [[c'|e] sent]; [|done].
  simpl in Hc. injection Hc as ->. injection H2 as <- <-.
  eapply inner_frame in H3 as (_ & _ & _ & ext3 & Hh3 & Ha3);
    [|apply lookup_insert_eq].
  destruct (Ha3 _ eq_refl) as (_ & d' & -> & Hout & _).
  exists d', (length (heap σ1)). split_and!.
  - apply lookup_insert_eq.
  - rewrite Hout by done. apply lookup_insert_eq.
  - rewrite Hh3. simpl. rewrite <-(assoc_L (++)). by apply list_lookup_middle.
Qed.

Variable nameservers_ips : loc.

#[local] Abbreviation pass := (outer_body cfg query_name q_proto nameservers_ips).

Lemma deref_app h ext l : l < length h → deref (h ++ ext) l = deref h l.
Proof. intros H. unfold deref. by rewrite lookup_app_l. Qed.

(** The fan-out only adds list objects.  When it completes, the dictionary
    of each record type has exactly the addresses of the list as keys, each
    with a new object, and the other keys of [answers] are as before. *)
Lemma outer_frame : ∀ qts (answers : answers_dict) σ r σ',
  nameservers_ips < length (heap σ) →
  for_fold pass qts answers σ = (r, σ') →
  ticks σ' = ticks σ ∧ fs σ' = fs σ ∧ sunk σ' = sunk σ ∧
  ∃ ext, heap σ' = heap σ ++ ext ∧
    ∀ answers', r = Ok answers' →
      (∀ k, k ∉ qts → answers' !! k = answers !! k) ∧
      (∀ qt, qt ∈ qts →
         ∃ d, answers' !! qt = Some d ∧
              (∀ ip, is_Some (d !! ip) ↔ ip ∈ deref (heap σ) nameservers_ips) ∧
              (∀ ip l, d !! ip = Some l → length (heap σ) ≤ l < length (heap σ'))).
Proof.
  induction qts as [|qt qts IH]; intros answers σ r σ' Hli; simpl.
  - intros [= <- <-]. split_and!; try done. exists []. rewrite app_nil_r. split; [done|].
    intros ? [= <-]. split; [done|]. intros qt Hqt. by apply elem_of_nil in Hqt.
  - unfold bind at 1, outer_body at 1. rewrite bind_read.
    set (ips := deref (heap σ) nameservers_ips).
    destruct (for_fold _ ips _ σ) as [r1 σ1] eqn:H1.
    eapply inner_frame in H1 as (Ht1 & Hf1 & Hs1 & ext1 & Hh1 & Ha1);
      [|apply lookup_insert_eq].
    destruct r1 as [a1|e].
    + destruct (Ha1 _ eq_refl) as (Hlen & d' & -> & Hout & Hin).
      intros Hrest. apply IH in Hrest as (Ht & Hf & Hs & ext & Hh & Ha);
        [|rewrite Hh1, length_app; lia].
      split_and!; try congruence.
      exists (ext1 ++ ext). split; [by rewrite Hh, Hh1, <-(assoc_L (++))|].
      intros answers' ->. destruct (Ha _ eq_refl) as (Hother & Hqts).
      rewrite Hh1, deref_app in Hqts by done. fold ips in Hqts.
      split.
      * intros k [Hk1 Hk2]%not_elem_of_cons. rewrite Hother by done.
        by rewrite insert_insert_eq, lookup_insert_ne.
      * intros qt' Hqt'. destruct (decide (qt' ∈ qts)) as [Hi|Hi].
        -- destruct (Hqts _ Hi) as (d & Hd & Hdom & Hrange).
           exists d. split_and!; [done..|].
           intros ip l Hl. apply Hrange in Hl. rewrite length_app in Hl. lia.
        -- apply elem_of_cons in Hqt' as [->|?]; [|done].
           exists d'. rewrite Hother by done. rewrite insert_insert_eq.
           split_and!; [apply lookup_insert_eq| |].
           ++ intros ip. split.
              ** intros Hsome. destruct (decide (ip ∈ ips)); [done|].
                 rewrite Hout, lookup_empty in Hsome by done.
                 by destruct Hsome.
              ** intros Hip. destruct (Hin _ Hip) as (l & -> & _). eauto.
           ++ intros ip l Hl. destruct (decide (ip ∈ ips)) as [Hip|Hip].
              ** destruct (Hin _ Hip) as (l' & Hl' & Hb).
                 assert (l' = l) as -> by congruence.
                 rewrite Hh, Hh1, !length_app. lia.
              ** by rewrite Hout, lookup_empty in Hl.
    + intros [= <- <-]. split_and!; try done. eexists. split; [done|]. done.
Qed.

(** A fan-out that completes has sent, for each record type in turn, its
    request to every address of the list. *)
Lemma outer_sends : ∀ qts (answers : answers_dict) σ answers' σ',
  nameservers_ips < length (heap σ) →
  for_fold pass qts answers σ = (Ok answers', σ') →
  sends σ' = sends σ ++
    flat_map (fan_out_requests cfg query_name q_proto
                (deref (heap σ) nameservers_ips)) qts.
Proof.
  induction qts as [|qt qts IH]; intros answers σ answers' σ' Hli; simpl.
  - intros [= <- <-]. by rewrite app_nil_r.
  - intros (a1 & σ1 & H1 & Hrest)%bind_ok_inv.
    unfold outer_body in H1. rewrite bind_read in H1.
    pose proof (inner_sends _ _ _ _ _ _ _ (lookup_insert_eq _ _ _) H1) as Hs1.
    eapply inner_frame in H1 as (_ & _ & _ & ext1 & Hh1 & _);
      [|apply lookup_insert_eq].
    apply IH in Hrest; [|rewrite Hh1, length_app; lia].
    rewrite Hrest, Hs1, Hh1, deref_app by done. by rewrite <-(assoc_L (++)).
Qed.

(** The pairs of the fan-out, in the order of the two loops. *)
Lemma outer_regular : ∀ qts (answers : answers_dict) σ,
  nameservers_ips < length (heap σ) →
  tested_resolver cfg ≠ None →
  (∀ qt, qt ∈ qts → make_query_ok (fan_out_message cfg query_name qt) = true) →
  (∀ j qt ip,
     list_prod qts (deref (heap σ) nameservers_ips) !! j = Some (qt, ip) →
     network (length (sends σ) + j)
       (fan_out_request cfg query_name q_proto qt ip) ≠ RaisesOther) →
  ∃ answers' σ', for_fold pass qts answers σ = (Ok answers', σ').
Proof.
  induction qts as [|qt qts IH]; intros answers σ Hli Htr Hok Hnet; simpl.
  - by eexists _, _.
  - set (ips := deref (heap σ) nameservers_ips) in *.
    destruct (inner_regular qt ips (<[qt := ∅]> answers) ∅ σ)
      as (a1 & σ1 & H1); [apply lookup_insert_eq|done|apply Hok; list_mem| |].
    { intros j ip Hj. apply Hnet. simpl. apply lookup_app_l_Some.
      by rewrite list_lookup_fmap, Hj. }
    unfold bind at 1, outer_body at 1. rewrite bind_read. fold ips. rewrite H1.
    pose proof (inner_sends _ _ _ _ _ _ _ (lookup_insert_eq _ _ _) H1) as Hs1.
    eapply inner_frame in H1 as (_ & _ & _ & ext1 & Hh1 & _);
      [|apply lookup_insert_eq].
    apply IH; [rewrite Hh1, length_app; lia|done|intros; apply Hok; list_mem|].
    intros j qt' ip Hj. rewrite Hh1, deref_app in Hj by done.
    rewrite Hs1, length_app, fan_out_requests_length by (apply Hok; list_mem).
    rewrite <-Nat.add_assoc. apply Hnet. simpl.
    rewrite lookup_app_r; rewrite length_fmap; [|lia].
    by replace (length ips + j - length ips) with j by lia.
Qed.

(** The object that a completed fan-out leaves for a record type and an
    address holds what the last request for that pair gave. *)
Lemma outer_last qb qt qa ib ip ia (answers : answers_dict) σ answers' σ' c :
  nameservers_ips < length (heap σ) →
  deref (heap σ) nameservers_ips = ib ++ ip :: ia →
  qt ∉ qa → ip ∉ ia →
  (∀ q, q ∈ qb ++ qt :: qa →
        make_query_ok (fan_out_message cfg query_name q) = true) →
  for_fold pass (qb ++ qt :: qa) answers σ = (Ok answers', σ') →
  fst (pair_outcome cfg query_name q_proto qt ip
         (length (sends σ) + length qb * length (ib ++ ip :: ia) + length ib)) = Ok c →
  ∃ d l, answers' !! qt = Some d ∧ d !! ip = Some l ∧ heap σ' !! l = Some c.
Proof.
  intros Hli Hips Hqa Hia Hok Hrun Hc.
  rewrite for_fold_app in Hrun.
  apply bind_ok_inv in Hrun as (a1 & σ1 & H1 & H2).
  pose proof (outer_sends _ _ _ _ _ Hli H1) as Hs1.
  pose proof (outer_frame _ _ _ _ _ Hli H1) as (_ & _ & _ & ext1 & Hh1 & _).
  simpl in H2. apply bind_ok_inv in H2 as (a2 & σ2 & H2 & H3).
  unfold outer_body in H2. rewrite bind_read in H2.
  rewrite Hh1, deref_app, Hips in H2 by done.
  assert (length (sends σ1) = length (sends σ) + length qb * length (ib ++ ip :: ia))
    as Hlen.
  { rewrite Hs1, length_app. f_equal. rewrite Hips.
    assert (∀ q, q ∈ qb → make_query_ok (fan_out_message cfg query_name q) = true)
      as Hqb by (intros; apply Hok; list_mem).
    clear -Hqb. induction qb as [|q qb IH]; simpl; [done|].
    rewrite length_app, fan_out_requests_length by (apply Hqb; list_mem).
    rewrite IH; [done|]. intros. apply Hqb. list_mem. }
  rewrite <-Hlen in Hc.
  assert (nameservers_ips < length (heap σ2)) as Hli2.
  { eapply inner_frame in H2 as (_ & _ & _ & ext2 & Hh2 & _);
      [|apply lookup_insert_eq].
    rewrite Hh2, Hh1, !length_app. lia. }
  eapply inner_last in H2 as (d & l & Hd & Hl & Hcontent);
    [|apply lookup_insert_eq|done|apply Hok; list_mem|done].
  pose proof (outer_frame _ _ _ _ _ Hli2 H3) as (_ & _ & _ & ext3 & Hh3 & Ha3).
  destruct (Ha3 _ eq_refl) as (Hother & _).
  exists d, l. split_and!; [by rewrite Hother|done|].
  rewrite Hh3. by apply lookup_app_l_Some.
Qed.

End FanOut.

(** ** Lines 215-240: the consistency check *)

Lemma variant_refl P h : variant P h h.
Proof. split; [done|]. intros l. by left. Qed.

Lemma variant_alter P h0 h l :
  variant P h0 h → P l → variant P h0 (alter sorted_list l h).
Proof.
  intros [Hlen Hv] HP. split; [by rewrite length_alter|].
  intros l'. destruct (decide (l' = l)) as [->|Hne].
  - right. split; [done|]. rewrite list_lookup_alter_eq.
    destruct (Hv l) as [->|[_ ->]]; [done|].
    destruct (h0 !! l); simpl; [|done]. by rewrite sorted_list_idemp.
  - rewrite list_lookup_alter_ne by done. apply Hv.
Qed.

Lemma sorted_form_alter P h0 h l :
  variant P h0 h → sorted_form h0 (alter sorted_list l h) l.
Proof.
  intros [_ Hv]. unfold sorted_form. rewrite list_lookup_alter_eq.
  destruct (Hv l) as [->|[_ ->]]; [done|].
  destruct (h0 !! l); simpl; [|done]. by rewrite sorted_list_idemp.
Qed.

Lemma sorted_form_keep h0 h l l' :
  sorted_form h0 h l' → sorted_form h0 (alter sorted_list l h) l'.
Proof.
  unfold sorted_form. intros H. destruct (decide (l' = l)) as [->|Hne].
  - rewrite list_lookup_alter_eq, H.
    destruct (h0 !! l); simpl; [|done]. by rewrite sorted_list_idemp.
  - by rewrite list_lookup_alter_ne.
Qed.

Lemma sorted_form_deref h0 h l :
  sorted_form h0 h l → deref h l = sorted_list (deref h0 l).
Proof. unfold sorted_form, deref. intros ->. by destruct (h0 !! l). Qed.

Lemma variant_deref_sorted P h0 h l :
  variant P h0 h → Sorted String.le (deref h0 l) → deref h l = deref h0 l.
Proof.
  intros [_ Hv] Hs. destruct (Hv l) as [H|[_ H]].
  - unfold deref. by rewrite H.
  - rewrite (sorted_form_deref h0 h l H). by apply sorted_list_id.
Qed.

Lemma variant_outside P h0 h l : variant P h0 h → ¬ P l → h !! l = h0 !! l.
Proof. intros [_ Hv] HP. by destruct (Hv l) as [H|[? _]]. Qed.

Lemma records_slot h (answers : answers_dict) qt d ip l :
  answers !! qt = Some d → d !! ip = Some l →
  records (snapshot_of h answers) qt ip = deref h l.
Proof.
  intros Hd Hl. unfold records, snapshot_of.
  rewrite lookup_fmap, Hd. simpl. by rewrite lookup_fmap, Hl.
Qed.

Lemma well_keyed_lookup (answers : answers_dict) qts ips qt :
  well_keyed answers qts ips → qt ∈ qts →
  ∃ d, answers !! qt = Some d ∧ ∀ ip, is_Some (d !! ip) ↔ ip ∈ ips.
Proof.
  intros H Hqt. eapply Forall_forall in H; [|done].
  destruct (answers !! qt) as [d|]; [|done]. injection H as H.
  exists d. split; [done|]. intros ip.
  by rewrite <-elem_of_dom, H, elem_of_list_to_set.
Qed.

Lemma well_keyed_intro (answers : answers_dict) qts ips :
  (∀ qt, qt ∈ qts →
     ∃ d, answers !! qt = Some d ∧ ∀ ip, is_Some (d !! ip) ↔ ip ∈ ips) →
  well_keyed answers qts ips.
Proof.
  intros H. apply Forall_forall. intros qt Hqt.
  destruct (H qt Hqt) as (d & -> & Hdom). simpl. f_equal.
  apply set_eq. intros ip. by rewrite elem_of_dom, Hdom, elem_of_list_to_set.
Qed.

Lemma others_sorted_lookup h (answers : answers_dict) qts k d key l :
  others_sorted h answers qts → k ∉ qts →
  answers !! k = Some d → d !! key = Some l → Sorted String.le (deref h l).
Proof.
  intros H Hk Hd Hl. apply (map_Forall_lookup_1 _ _ _ _ H) in Hd as [?|Hd]; [done|].
  by apply (map_Forall_lookup_1 _ _ _ _ Hd) in Hl.
Qed.

Section Check.

Variables (query_name : string) (answers : answers_dict) (qts : list string).
Variables (nameservers_ips : nat) (h0 : list (list string)).

#[local] Abbreviation ips := (deref h0 nameservers_ips).
#[local] Abbreviation snap := (snapshot_of h0 answers).
#[local] Abbreviation slot := (slots_of answers qts).

Hypothesis Hsorted : Sorted String.le ips.

#[local] Abbreviation check_rel := (checked slot h0).

Lemma check_rel_trans σ1 σ2 σ3 r1 r2 :
  check_rel σ1 σ2 r1 → check_rel σ2 σ3 r2 → check_rel σ1 σ3 (r1 ++ r2).
Proof.
  intros (Hv1 & Hk1 & Hs1 & Hr1 & Hf1) (Hv2 & Hk2 & Hs2 & Hr2 & Hf2).
  split_and!; [done|by auto|congruence| |by auto].
  by rewrite Hr2, Hr1, (assoc_L (++)).
Qed.

Lemma check_one_spec qt d reference lref ip l σ :
  answers !! qt = Some d → qt ∈ qts →
  d !! ip = Some l →
  ips !! 0 = Some reference → d !! reference = Some lref →
  variant slot h0 (heap σ) → sorted_form h0 (heap σ) lref →
  ∃ σ',
    check_one query_name qt d nameservers_ips ip σ = (Ok tt, σ') ∧
    check_rel σ σ'
      (if bool_decide (sorted_records snap qt ip ≠ sorted_records snap qt reference)
       then [mismatch_report query_name snap reference (qt, ip)] else []) ∧
    sorted_form h0 (heap σ') l.
Proof.
  intros Hd Hqt Hl Href Hlref Hv Hsf. unfold check_one.
  rewrite (bind_getitem _ _ _ _ _ Hl), bind_sort_inplace, !bind_read.
  set (σ1 := with_heap _ σ).
  assert (slot l) as Hslot by (by exists qt, d, ip).
  assert (variant slot h0 (heap σ1)) as Hv1 by (by apply variant_alter).
  assert (sorted_form h0 (heap σ1) l) as Hl1 by (by eapply sorted_form_alter).
  assert (sorted_form h0 (heap σ1) lref) as Hr1 by (by apply sorted_form_keep).
  rewrite (variant_deref_sorted _ _ _ _ Hv1 Hsorted).
  unfold first_item. rewrite Href, bind_ret, (bind_getitem _ _ _ _ _ Hlref), bind_read.
  rewrite (sorted_form_deref _ _ _ Hl1), (sorted_form_deref _ _ _ Hr1).
  unfold sorted_records, mismatch_report, sorted_records. simpl.
  rewrite (records_slot _ _ _ _ _ _ Hd Hl), (records_slot _ _ _ _ _ _ Hd Hlref).
  assert (∀ l', sorted_form h0 (heap σ) l' → sorted_form h0 (heap σ1) l') as Hkeep
    by (intros; by apply sorted_form_keep).
  destruct (bool_decide _).
  - destruct (store_report_spec
      (inconsistency_report query_name qt ip reference
         (sorted_list (deref h0 lref)) (sorted_list (deref h0 l))) σ1)
      as (f & t & Hf & ->).
    eexists. split; [done|]. split; [|done].
    split_and!; simpl; try done.
    intros p x Hp. rewrite lookup_insert_ne; [done|]. intros ->.
    subst σ1. simpl_state. congruence.
  - eexists. split; [done|]. split; [|done].
    split_and!; simpl; try done. by rewrite app_nil_r.
Qed.

(** The inner loop of lines 224-237 for one record type. *)
Lemma check_pass_spec qt d reference lref : ∀ xs σ,
  answers !! qt = Some d → qt ∈ qts →
  (∀ ip, ip ∈ xs → is_Some (d !! ip)) →
  ips !! 0 = Some reference → d !! reference = Some lref →
  variant slot h0 (heap σ) → sorted_form h0 (heap σ) lref →
  ∃ σ',
    for_each (check_one query_name qt d nameservers_ips) xs σ = (Ok tt, σ') ∧
    check_rel σ σ'
      (mismatch_report query_name snap reference <$>
         filter (λ p, sorted_records snap p.1 p.2 ≠ sorted_records snap p.1 reference)
           ((qt,.) <$> xs)) ∧
    ∀ ip l, ip ∈ xs → d !! ip = Some l → sorted_form h0 (heap σ') l.
Proof.
  induction xs as [|ip xs IH]; intros σ Hd Hqt Hkeys Href Hlref Hv Hsf; simpl.
  - exists σ. split; [done|]. split.
    + split_and!; try done. by rewrite app_nil_r.
    + intros ip l Hip. by apply elem_of_nil in Hip.
  - destruct (Hkeys ip) as [l Hl]; [list_mem|].
    destruct (check_one_spec qt d reference lref ip l σ)
      as (σ1 & H1 & Hrel1 & Hl1); try done.
    rewrite (bind_result _ _ _ _ _ H1).
    destruct (IH σ1) as (σ' & Hrun & Hrel & Hall); try done.
    { intros. apply Hkeys. list_mem. }
    { apply Hrel1. }
    { by apply Hrel1. }
    exists σ'. split; [done|]. split.
    + rewrite filter_cons. simpl.
      destruct (decide (sorted_records snap qt ip ≠ sorted_records snap qt reference))
        as [Hne|Heq].
      * rewrite bool_decide_eq_true_2 in Hrel1 by done.
        apply (check_rel_trans _ _ _ _ _ Hrel1 Hrel).
      * rewrite bool_decide_eq_false_2 in Hrel1 by done.
        apply (check_rel_trans _ _ _ _ _ Hrel1 Hrel).
    + intros ip' l' [->|Hip']%elem_of_cons Hl'.
      * assert (l' = l) as -> by congruence. by apply Hrel.
      * by eapply Hall.
Qed.

Hypothesis Hkeys : well_keyed answers qts ips.

(** The loop of lines 215-240 over some of the record types. *)
Lemma check_loop_spec : ∀ xs σ,
  (∀ qt, qt ∈ xs → qt ∈ qts) →
  variant slot h0 (heap σ) →
  ∃ σ',
    for_each (λ query_type,
      bind (getitem answers query_type) (λ d,
        if dict_truthy d then
          bind (read nameservers_ips) (λ ips,
          bind (first_item ips) (λ reference,
          bind (getitem d reference) (λ lref,
          bind (sort_inplace lref) (λ _,
          bind (read nameservers_ips) (λ ips,
          for_each (check_one query_name query_type d nameservers_ips) ips)))))
        else ret tt)) xs σ = (Ok tt, σ') ∧
    check_rel σ σ'
      (mismatch_report query_name snap (default "" (ips !! 0)) <$>
         filter (λ p, sorted_records snap p.1 p.2
                      ≠ sorted_records snap p.1 (default "" (ips !! 0)))
           (list_prod xs ips)) ∧
    ∀ qt d ip l, qt ∈ xs → answers !! qt = Some d → d !! ip = Some l →
                 sorted_form h0 (heap σ') l.
Proof.
  induction xs as [|qt xs IH]; intros σ Hsub Hv; simpl.
  - exists σ. split; [done|]. split.
    + split_and!; try done. by rewrite app_nil_r.
    + intros qt d ip l Hqt. by apply elem_of_nil in Hqt.
  - assert (qt ∈ qts) as Hqt by (apply Hsub; list_mem).
    destruct (well_keyed_lookup _ _ _ _ Hkeys Hqt) as (d & Hd & Hdom).
    rewrite bind_assoc, (bind_getitem _ _ _ _ _ Hd).
    assert (∃ σ1,
      (if dict_truthy d then
          bind (read nameservers_ips) (λ ips,
          bind (first_item ips) (λ reference,
          bind (getitem d reference) (λ lref,
          bind (sort_inplace lref) (λ _,
          bind (read nameservers_ips) (λ ips,
          for_each (check_one query_name qt d nameservers_ips) ips)))))
        else ret tt) σ = (Ok tt, σ1) ∧
      check_rel σ σ1
        (mismatch_report query_name snap (default "" (ips !! 0)) <$>
           filter (λ p, sorted_records snap p.1 p.2
                        ≠ sorted_records snap p.1 (default "" (ips !! 0)))
             ((qt,.) <$> ips)) ∧
      ∀ ip l, d !! ip = Some l → sorted_form h0 (heap σ1) l)
      as (σ1 & H1 & Hrel1 & Hall1).
    { destruct (ips !! 0) as [reference|] eqn:Href.
      - assert (is_Some (d !! reference)) as [lref Hlref].
        { apply Hdom. by eapply list_elem_of_lookup_2. }
        assert (dict_truthy d = true) as ->.
        { unfold dict_truthy. rewrite bool_decide_eq_false_2; [done|].
          intros ->. by rewrite lookup_empty in Hlref. }
        rewrite bind_read, (variant_deref_sorted _ _ _ _ Hv Hsorted).
        unfold first_item at 1. rewrite Href, bind_ret.
        rewrite (bind_getitem _ _ _ _ _ Hlref), bind_sort_inplace, bind_read.
        set (σa := with_heap _ σ).
        assert (slot lref) as Hslot by (by exists qt, d, reference).
        assert (variant slot h0 (heap σa)) as Hva by (by apply variant_alter).
        rewrite (variant_deref_sorted _ _ _ _ Hva Hsorted).
        destruct (check_pass_spec qt d reference lref ips σa)
          as (σ1 & H1 & Hrel1 & Hall1); try done.
        { intros ip Hip. by apply Hdom. }
        { by eapply sorted_form_alter. }
        exists σ1. split; [done|]. split.
        + destruct Hrel1 as (? & Hk & ? & ? & ?). split_and!; try done.
          intros l Hl. apply Hk. by apply sorted_form_keep.
        + intros ip l Hl. eapply Hall1; [|done]. apply Hdom. eauto.
      - assert (ips = []) as Hnil by (by destruct ips).
        assert (d = ∅) as ->.
        { apply map_eq. intros ip. rewrite lookup_empty.
          apply eq_None_not_Some. intros Hs. apply Hdom in Hs. rewrite Hnil in Hs.
          by apply elem_of_nil in Hs. }
        exists σ. split; [done|]. rewrite Hnil. simpl. split.
        + split_and!; try done. by rewrite app_nil_r.
        + intros ip l Hl. by rewrite lookup_empty in Hl. }
    rewrite (bind_result _ _ _ _ _ H1).
    destruct (IH σ1) as (σ' & Hrun & Hrel & Hall).
    { intros q Hq. apply Hsub. apply elem_of_cons. by right. }
    { apply Hrel1. }
    exists σ'. split; [done|]. split.
    + rewrite filter_app, fmap_app.
      apply (check_rel_trans _ _ _ _ _ Hrel1 Hrel).
    + intros qt' d' ip l [->|Hqt']%elem_of_cons Hd' Hl.
      * assert (d' = d) as -> by congruence.
        apply Hrel. by eapply Hall1.
      * by eapply Hall.
Qed.

(** The consistency check returns.  It stores one report for each pair of a
    record type and an address, in the order of the two loops, whose sorted
    record list differs from that of the first address of the list, and it
    leaves every list of the checked record types sorted. *)
Lemma consistency_check_spec query_types σ :
  heap σ = h0 →
  deref h0 query_types = qts →
  ∃ σ',
    consistency_check query_name query_types nameservers_ips answers σ = (Ok tt, σ') ∧
    check_rel σ σ'
      (mismatch_report query_name snap (default "" (ips !! 0)) <$>
         filter (λ p, sorted_records snap p.1 p.2
                      ≠ sorted_records snap p.1 (default "" (ips !! 0)))
           (list_prod qts ips)) ∧
    ∀ qt d ip l, qt ∈ qts → answers !! qt = Some d → d !! ip = Some l →
                 sorted_form h0 (heap σ') l.
Proof.
  intros Hh Hq. unfold consistency_check. rewrite bind_read, Hh, Hq.
  apply check_loop_spec; [done|]. rewrite Hh. apply variant_refl.
Qed.

End Check.

Lemma list_prod_NoDup {A B} (xs : list A) (ys : list B) :
  NoDup xs → NoDup ys → NoDup (list_prod xs ys).
Proof.
  intros Hxs Hys. induction Hxs as [|x xs Hx _ IH]; simpl; [constructor|].
  apply NoDup_app. split_and!.
  - apply (NoDup_fmap_2 _). done.
  - intros [a b] Hin Hin'. apply list_elem_of_fmap in Hin as (y & [= -> ->] & _).
    apply list_elem_of_In, in_prod_iff in Hin' as [Hin' _].
    by apply list_elem_of_In in Hin'.
  - done.
Qed.

(** C3. On a snapshot whose address list is sorted and not empty and whose
    record-type dictionaries have the addresses as keys, the check returns
    and takes the first address, which is the least one, as the reference.
    It stores one report for each occurrence of a record type in
    [query_types] and of an address in the address list such that the sorted
    record list of the address differs from the sorted record list of the
    reference; the report names the record type and the address and lists
    both sorted record lists in full.  When neither list repeats an entry, no
    pair is reported twice; an address that the list holds twice gets two
    reports. *)
Theorem consistency_reports (query_name : string) (answers : answers_dict)
    (query_types nameservers_ips : nat) (σ : state) :
  let ips := deref (heap σ) nameservers_ips in
  let qts := deref (heap σ) query_types in
  let snap := snapshot_of (heap σ) answers in
  ips ≠ [] →
  Sorted String.le ips →
  well_keyed answers qts ips →
  ∃ reference σ',
    let reported :=
      filter (λ p, sorted_records snap p.1 p.2 ≠ sorted_records snap p.1 reference)
        (list_prod qts ips) in
    ips !! 0 = Some reference ∧
    (∀ ip, ip ∈ ips → String.le reference ip) ∧
    consistency_check query_name query_types nameservers_ips answers σ = (Ok tt, σ') ∧
    sunk σ' = sunk σ ++ (mismatch_report query_name snap reference <$> reported) ∧
    (NoDup qts → NoDup ips → NoDup reported).
Proof.
  intros ips qts snap Hne Hsorted Hkeys.
  destruct (consistency_check_spec query_name answers qts nameservers_ips (heap σ)
              Hsorted Hkeys query_types σ eq_refl eq_refl)
    as (σ' & Hrun & (_ & _ & _ & Hsunk & _) & _).
  fold ips snap in Hsunk.
  assert (∃ reference, ips !! 0 = Some reference) as [reference Href]
    by (destruct ips; [done|by eexists]).
  rewrite Href in Hsunk. simpl in Hsunk.
  exists reference, σ'. split_and!; [done| |done|done|].
  - intros ip Hip. by eapply sorted_head_least.
  - intros Hq Hi. by apply NoDup_filter, list_prod_NoDup.
Qed.

(** ** Order of the answers and the baseline *)

Lemma same_up_to_order_canon a b : same_up_to_order a b → canon a = canon b.
Proof.
  intros H. apply map_eq. intros k. unfold canon. rewrite !lookup_fmap.
  destruct (H k) as [da db Hd|]; [|done]. simpl. f_equal.
  apply map_eq. intros key. rewrite !lookup_fmap.
  destruct (Hd key) as [la lb Hl|]; [|done]. simpl. f_equal.
  by apply sorted_list_unique.
Qed.

Lemma canon_same_up_to_order a b : canon a = canon b → same_up_to_order a b.
Proof.
  intros H k. apply (f_equal (.!! k)) in H. unfold canon in H.
  rewrite !lookup_fmap in H.
  destruct (a !! k) as [da|], (b !! k) as [db|]; simpl in H; try done;
    constructor.
  injection H as H. intros key. apply (f_equal (.!! key)) in H.
  rewrite !lookup_fmap in H.
  destruct (da !! key) as [la|], (db !! key) as [lb|]; simpl in H; try done;
    constructor.
  injection H as H. by rewrite <-(sorted_list_perm la), H, sorted_list_perm.
Qed.

Lemma snapshot_canon (answers : answers_dict) h0 h :
  (∀ k d key l, answers !! k = Some d → d !! key = Some l →
                deref h l = sorted_list (deref h0 l)) →
  snapshot_of h answers = canon (snapshot_of h0 answers).
Proof.
  intros H. apply map_eq. intros k. unfold canon, snapshot_of.
  rewrite !lookup_fmap. destruct (answers !! k) as [d|] eqn:Hd; [|done].
  simpl. f_equal. apply map_eq. intros key. rewrite !lookup_fmap.
  destruct (d !! key) as [l|] eqn:Hl; [|done]. simpl. f_equal. by eapply H.
Qed.

(** After the check every list of the snapshot is sorted, and no file has
    been touched. *)
Lemma checked_snapshot_canon (query_name : string) (answers : answers_dict)
    (query_types nameservers_ips : nat) (σ : state) :
  Sorted String.le (deref (heap σ) nameservers_ips) →
  well_keyed answers (deref (heap σ) query_types) (deref (heap σ) nameservers_ips) →
  others_sorted (heap σ) answers (deref (heap σ) query_types) →
  ∃ σ',
    consistency_check query_name query_types nameservers_ips answers σ = (Ok tt, σ') ∧
    snapshot_of (heap σ') answers = canon (snapshot_of (heap σ) answers) ∧
    (∀ p x, fs σ !! p = Some x → fs σ' !! p = Some x).
Proof.
  intros Hsorted Hkeys Hother.
  destruct (consistency_check_spec query_name answers _ nameservers_ips (heap σ)
              Hsorted Hkeys query_types σ eq_refl eq_refl)
    as (σ' & Hrun & (Hv & _ & _ & _ & Hfiles) & Hall).
  exists σ'. split_and!; [done| |done].
  apply snapshot_canon. intros k d key l Hd Hl.
  destruct (decide (k ∈ deref (heap σ) query_types)) as [Hk|Hk].
  - apply sorted_form_deref. by eapply Hall.
  - pose proof (others_sorted_lookup _ _ _ _ _ _ _ Hother Hk Hd Hl) as Hs.
    rewrite (variant_deref_sorted _ _ _ _ Hv) by done.
    symmetry. by apply sorted_list_id.
Qed.

Lemma canon_idemp snap : canon (canon snap) = canon snap.
Proof.
  apply map_eq. intros k. unfold canon. rewrite !lookup_fmap.
  destruct (snap !! k) as [d|]; [|done]. simpl. f_equal.
  apply map_eq. intros key. rewrite !lookup_fmap.
  destruct (d !! key) as [l|]; [|done]. simpl. by rewrite sorted_list_idemp.
Qed.

(** Whenever the baseline step returns, the live file holds the current
    snapshot. *)
Lemma baseline_diff_stores name query_name answers σ drift σ' :
  baseline_diff name query_name answers σ = (Ok drift, σ') →
  fs σ' !! stored_fname name = Some (FJson (snapshot_of (heap σ) answers)).
Proof.
  unfold baseline_diff. rewrite bind_path_exists.
  destruct (fs σ !! stored_fname name) as [old|] eqn:Hfs.
  - rewrite bool_decide_eq_true_2 by eauto. cbv iota. rewrite bind_ret.
    assert ((∃ raw, old = FText raw) ∨ ∀ raw, old ≠ FText raw) as [[raw ->]|Hjson]
      by (destruct old; eauto).
    { unfold bind at 1, json_load. by rewrite Hfs. }
    rewrite (bind_json_load _ _ _ _ Hfs) by done.
    rewrite bind_current.
    destruct (decide (old = FJson (snapshot_of (heap σ) answers))) as [->|Hne].
    + rewrite bool_decide_eq_false_2 by (intros H; by apply H).
      by intros [= <- <-].
    + rewrite bool_decide_eq_true_2 by done.
      destruct (store_report_spec
        (baseline_report query_name old (FJson (snapshot_of (heap σ) answers))) σ)
        as (rf & t & Hrf & Hsr).
      rewrite (bind_result _ _ _ _ _ Hsr), bind_now.
      erewrite bind_rename;
        [|simpl; rewrite lookup_insert_ne by congruence; exact Hfs].
      rewrite bind_json_dump. intros [= <- <-]. simpl_state.
      apply lookup_insert_eq.
  - rewrite bool_decide_eq_false_2 by (by intros [? ?]). cbv iota.
    rewrite bind_json_dump.
    set (σ1 := with_fs _ σ).
    assert (fs σ1 !! stored_fname name = Some (FJson (snapshot_of (heap σ1) answers)))
      as Hfs1 by apply lookup_insert_eq.
    rewrite (bind_json_load _ _ _ _ Hfs1) by done.
    rewrite bind_current, bool_decide_eq_false_2 by (intros H; by apply H).
    by intros [= <- <-].
Qed.

(** Every baseline that a run stores has its lists sorted. *)
Lemma persisted_baseline_canonical (name query_name : string) (answers : answers_dict)
    (query_types nameservers_ips : nat) (σ σ1 σ2 : state) (drift : bool) :
  Sorted String.le (deref (heap σ) nameservers_ips) →
  well_keyed answers (deref (heap σ) query_types) (deref (heap σ) nameservers_ips) →
  others_sorted (heap σ) answers (deref (heap σ) query_types) →
  consistency_check query_name query_types nameservers_ips answers σ = (Ok tt, σ1) →
  baseline_diff name query_name answers σ1 = (Ok drift, σ2) →
  ∃ baseline, fs σ2 !! stored_fname name = Some (FJson baseline)
              ∧ canon baseline = baseline.
Proof.
  intros Hsorted Hkeys Hother Hcheck Hdiff.
  destruct (checked_snapshot_canon query_name answers query_types nameservers_ips σ
              Hsorted Hkeys Hother) as (σ1' & Hrun & Hsnap & _).
  rewrite Hcheck in Hrun. injection Hrun as <-.
  exists (snapshot_of (heap σ1) answers). split.
  - by eapply baseline_diff_stores.
  - by rewrite Hsnap, canon_idemp.
Qed.

(** C6. Let the stored baseline be a snapshot as a run stores it, with
    every list sorted ([persisted_baseline_canonical]), and let the answers
    of the current run, in the order of their arrival, differ from it only
    in the order of the entries of the lists.  Then the check followed by
    the baseline step finds no difference: line 256 is false, no file and no
    report is written. *)
Theorem baseline_order_independent (name query_name : string) (answers : answers_dict)
    (query_types nameservers_ips : nat) (baseline : snapshot) (σ : state) :
  let ips := deref (heap σ) nameservers_ips in
  let qts := deref (heap σ) query_types in
  Sorted String.le ips →
  well_keyed answers qts ips →
  others_sorted (heap σ) answers qts →
  fs σ !! stored_fname name = Some (FJson baseline) →
  canon baseline = baseline →
  same_up_to_order (snapshot_of (heap σ) answers) baseline →
  ∃ σ',
    consistency_check query_name query_types nameservers_ips answers σ = (Ok tt, σ') ∧
    baseline_diff name query_name answers σ' = (Ok false, σ').
Proof.
  intros ips qts Hsorted Hkeys Hother Hfs Hcanon Hsame.
  destruct (checked_snapshot_canon query_name answers query_types nameservers_ips σ
              Hsorted Hkeys Hother) as (σ' & Hrun & Hsnap & Hfiles).
  exists σ'. split; [done|].
  apply baseline_diff_same.
  rewrite Hsnap, (same_up_to_order_canon _ _ Hsame), Hcanon.
  by apply Hfiles.
Qed.

(** ** The whole test *)

Lemma keeps_bind {A B} (m : M A) (k : A → M B) :
  keeps m → (∀ a, keeps (k a)) → keeps (bind m k).
Proof.
  intros Hm Hk σ r σ'. unfold bind. destruct (m σ) as [[a|e] σ1] eqn:H1.
  - intros H2. apply Hm in H1 as [? ?]. apply Hk in H2 as [? ?]. split; congruence.
  - intros [= <- <-]. by apply Hm in H1.
Qed.

Lemma keeps_ret {A} (a : A) : keeps (ret a).
Proof. by intros σ r σ' [= <- <-]. Qed.

Lemma keeps_store_report details : keeps (store_report details).
Proof.
  intros σ r σ'. destruct (store_report_spec details σ) as (f & t & _ & ->).
  by intros [= <- <-].
Qed.

Lemma keeps_pure {A} (m : M A) :
  (∀ σ, ∃ r σ', m σ = (r, σ') ∧ heap σ' = heap σ ∧ sends σ' = sends σ) → keeps m.
Proof.
  intros H σ r σ' Hm. destruct (H σ) as (r1 & σ1 & H1 & ? & ?).
  rewrite Hm in H1. by injection H1 as <- <-.
Qed.

Lemma baseline_diff_keeps name query_name answers :
  keeps (baseline_diff name query_name answers).
Proof.
  unfold baseline_diff.
  apply keeps_bind; [apply keeps_pure; intros σ; by eexists _, _|]. intros present.
  apply keeps_bind.
  { destruct present; [apply keeps_ret|]. apply keeps_pure; intros σ; by eexists _, _. }
  intros _. apply keeps_bind.
  { apply keeps_pure. intros σ. unfold json_load.
    destruct (fs σ !! stored_fname name) as [[?|?|?]|]; by eexists _, _. }
  intros prev. apply keeps_bind; [apply keeps_pure; intros σ; by eexists _, _|]. intros cur.
  destruct (bool_decide _); [|apply keeps_ret].
  apply keeps_bind; [apply keeps_store_report|]. intros _.
  apply keeps_bind; [apply keeps_pure; intros σ; by eexists _, _|]. intros stamp.
  apply keeps_bind.
  { apply keeps_pure. intros σ. unfold rename.
    destruct (fs σ !! stored_fname name); by eexists _, _. }
  intros _. apply keeps_bind; [apply keeps_pure; intros σ; by eexists _, _|]. intros _.
  apply keeps_ret.
Qed.

Lemma fan_out_unfold cfg query_name q_proto query_types nameservers_ips answers σ :
  fan_out cfg query_name q_proto query_types nameservers_ips answers σ
  = for_fold (outer_body cfg query_name q_proto nameservers_ips)
      (deref (heap σ) query_types) answers σ.
Proof. done. Qed.

(** The store after line 185: the list of the test is sorted in place and
    the new address list is sorted. *)
Lemma sorted_store h lns raw :
  lns < length h →
  alter sorted_list (length h) (alter sorted_list lns (h ++ [raw]))
  = alter sorted_list lns h ++ [sorted_list raw].
Proof.
  intros Hlns. rewrite alter_app_l by done.
  rewrite <-(length_alter sorted_list h lns) at 1.
  rewrite <-(Nat.add_0_r (length (alter sorted_list lns h))).
  by rewrite alter_app_r.
Qed.

Lemma filter_lookups new : lookups_only new → filter is_fan_out new = [].
Proof.
  induction 1 as [|rq new Hrq _ IH]; [done|].
  rewrite filter_cons_False; [done|]. intros H. by rewrite Hrq in H.
Qed.

Lemma filter_fan_out_requests cfg query_name q_proto ips qts :
  filter is_fan_out (flat_map (fan_out_requests cfg query_name q_proto ips) qts)
  = flat_map (fan_out_requests cfg query_name q_proto ips) qts.
Proof.
  induction qts as [|qt qts IH]; simpl; [done|].
  rewrite filter_app, IH. f_equal. unfold fan_out_requests.
  destruct (make_query_ok _); [|done].
  clear IH. induction ips as [|ip ips IHi]; [done|]. rewrite fmap_cons.
  rewrite filter_cons_True by done. by rewrite IHi.
Qed.

Section Test.

Variables (cfg : config) (t : test).

#[local] Abbreviation lns := (t_nameservers t).
#[local] Abbreviation lqt := (t_query_types t).
#[local] Abbreviation proto := (default (PStr "udp") (t_query_protocol t)).

(** The phases of a test that completes. *)
Lemma test_dns_query_phases σ σ' :
  test_dns_query cfg t σ = (Ok tt, σ') →
  ∃ li σ1 a σ3 σ4 drift,
    resolve_nameservers cfg lns σ = (Ok li, σ1) ∧
    fan_out cfg (t_query_name t) proto lqt li (initial_answers lns li)
      (with_heap (λ h, alter sorted_list li (alter sorted_list lns h)) σ1)
      = (Ok a, σ3) ∧
    consistency_check (t_query_name t) lqt li a σ3 = (Ok tt, σ4) ∧
    baseline_diff (t_name t) (t_query_name t) a σ4 = (Ok drift, σ').
Proof.
  unfold test_dns_query.
  intros (li & σ1 & H1 & H)%bind_ok_inv.
  apply bind_ok_inv in H as (a0 & σ2 & H2 & H).
  rewrite init_answers_spec in H2. injection H2 as <- <-.
  apply bind_ok_inv in H as (a & σ3 & H3 & H).
  apply bind_ok_inv in H as ([] & σ4 & H4 & H).
  apply bind_ok_inv in H as (drift & σ5 & H5 & H).
  injection H as <-. by exists li, σ1, a, σ3, σ4, drift.
Qed.

(** What lines 161-209 leave behind when they complete. *)
Lemma collect_spec σ li σ1 a σ3 :
  lns < length (heap σ) → lqt < length (heap σ) →
  resolve_nameservers cfg lns σ = (Ok li, σ1) →
  fan_out cfg (t_query_name t) proto lqt li (initial_answers lns li)
    (with_heap (λ h, alter sorted_list li (alter sorted_list lns h)) σ1)
    = (Ok a, σ3) →
  ∃ resolved new ext,
    let h2 := alter sorted_list lns (heap σ) ++ [sorted_list (concat resolved)] in
    let ips := sorted_list (concat resolved) in
    let qts := deref (alter sorted_list lns (heap σ)) lqt in
    li = length (heap σ) ∧
    resolved_by cfg (deref (heap σ) lns) resolved ∧
    lookups_only new ∧
    heap σ3 = h2 ++ ext ∧
    sends σ3 = sends σ ++ new ++
      flat_map (fan_out_requests cfg (t_query_name t) proto ips) qts ∧
    fs σ3 = fs σ ∧ sunk σ3 = sunk σ ∧
    deref (heap σ3) li = ips ∧
    deref (heap σ3) lqt = qts ∧
    well_keyed a qts ips ∧
    (∀ k, k ∉ qts → a !! k = initial_answers lns li !! k) ∧
    (∀ l, slots_of a qts l → length h2 ≤ l).
Proof.
  intros Hlns Hlqt H1 H3.
  destruct (resolve_nameservers_spec cfg lns σ Hlns) as (r & new & raw & Hr & Hnew & Hok).
  rewrite H1 in Hr. injection Hr as <- ->.
  destruct (Hok _ eq_refl) as (-> & resolved & Hres & ->).
  rewrite fan_out_unfold in H3.
  set (σ2 := with_heap _ _) in H3.
  assert (heap σ2 = alter sorted_list lns (heap σ) ++ [sorted_list (concat resolved)])
    as Hh2 by (subst σ2; simpl_state; by apply sorted_store).
  assert (length (heap σ) < length (heap σ2)) as Hli2.
  { rewrite Hh2, length_app, length_alter. simpl. lia. }
  assert (deref (heap σ2) (length (heap σ)) = sorted_list (concat resolved)) as Hips.
  { rewrite Hh2. unfold deref. rewrite list_lookup_middle; [done|].
    by rewrite length_alter. }
  assert (deref (heap σ2) lqt = deref (alter sorted_list lns (heap σ)) lqt) as Hqts.
  { rewrite Hh2. apply deref_app. by rewrite length_alter. }
  pose proof (outer_sends _ _ _ _ _ _ _ _ _ Hli2 H3) as Hs3.
  pose proof (outer_frame _ _ _ _ _ _ _ _ _ Hli2 H3) as (_ & Hf & Hsk & ext & Hh3 & Ha).
  destruct (Ha _ eq_refl) as (Hother & Hqt).
  exists resolved, new, ext. simpl.
  split_and!; try done.
  - by rewrite Hh3, Hh2.
  - rewrite Hs3, Hips, Hqts. subst σ2. simpl_state. by rewrite <-(assoc_L (++)).
  - rewrite Hh3, deref_app by done. done.
  - rewrite Hh3, deref_app; [done|]. rewrite Hh2, length_app, length_alter. lia.
  - apply well_keyed_intro.
    intros qt Hq. rewrite <-Hqts in Hq. destruct (Hqt _ Hq) as (d & Hd & Hdom & _).
    exists d. split; [done|]. by rewrite <-Hips.
  - intros k Hk. apply Hother. by rewrite Hqts.
  - intros l (qt & d & ip & Hq & Hd & Hl). rewrite <-Hqts in Hq.
    destruct (Hqt _ Hq) as (d' & Hd' & _ & Hrange).
    assert (d' = d) as -> by congruence.
    apply Hrange in Hl. rewrite <-Hh2. lia.
Qed.

(** The answers that lines 161-209 leave behind are as the consistency
    check and the baseline step expect them. *)
Lemma collect_ready σ li σ1 a σ3 :
  lns < length (heap σ) → lqt < length (heap σ) →
  resolve_nameservers cfg lns σ = (Ok li, σ1) →
  fan_out cfg (t_query_name t) proto lqt li (initial_answers lns li)
    (with_heap (λ h, alter sorted_list li (alter sorted_list lns h)) σ1)
    = (Ok a, σ3) →
  Sorted String.le (deref (heap σ3) li) ∧
  well_keyed a (deref (heap σ3) lqt) (deref (heap σ3) li) ∧
  others_sorted (heap σ3) a (deref (heap σ3) lqt).
Proof.
  intros Hlns Hlqt H1 H3.
  destruct (collect_spec σ li σ1 a σ3 Hlns Hlqt H1 H3)
    as (resolved & new & ext & Hli & _ & _ & Hh & _ & _ & _ & Hips & Hqts & Hkeys & Hother & _).
  simpl in *. rewrite Hips, Hqts. split_and!; [apply sorted_list_Sorted|done|].
  apply map_Forall_lookup. intros k d Hd.
  destruct (decide (k ∈ deref (alter sorted_list lns (heap σ)) lqt)) as [Hk|Hk];
    [by left|right].
  apply map_Forall_lookup. intros key l Hl.
  rewrite Hother in Hd by done.
  unfold initial_answers in Hd.
  destruct (decide (k = "nameservers_ips")) as [->|Hk1].
  - rewrite lookup_insert_eq in Hd. injection Hd as <-.
    apply lookup_singleton_Some in Hl as [_ <-].
    rewrite Hips. apply sorted_list_Sorted.
  - rewrite lookup_insert_ne in Hd by done.
    destruct (decide (k = "nameservers")) as [->|Hk2].
    + rewrite lookup_insert_eq in Hd. injection Hd as <-.
      apply lookup_singleton_Some in Hl as [_ <-].
      rewrite Hh, deref_app by (rewrite length_app, length_alter; lia).
      rewrite deref_app by (by rewrite length_alter).
      unfold deref. rewrite list_lookup_alter_eq.
      destruct (heap σ !! lns); simpl; [apply sorted_list_Sorted|constructor].
    + by rewrite lookup_insert_ne, lookup_empty in Hd.
Qed.

End Test.

(** C2. In a test that completes, the addresses that the fan-out queries
    for each record type are the addresses that [name2ip] returned for the
    name servers, all of them, in ascending order: the list is sorted and
    holds an address as often as the name servers resolve to it. *)
Theorem fan_out_addresses_sorted (cfg : config) (t : test) (σ σ' : state) :
  t_nameservers t < length (heap σ) →
  t_query_types t < length (heap σ) →
  test_dns_query cfg t σ = (Ok tt, σ') →
  ∃ resolved,
    let ips := sorted_list (concat resolved) in
    let qts := deref (alter sorted_list (t_nameservers t) (heap σ)) (t_query_types t) in
    resolved_by cfg (deref (heap σ) (t_nameservers t)) resolved ∧
    Sorted String.le ips ∧
    ips ≡ₚ concat resolved ∧
    filter is_fan_out (sends σ') =
      filter is_fan_out (sends σ) ++
      flat_map (fan_out_requests cfg (t_query_name t)
                  (default (PStr "udp") (t_query_protocol t)) ips) qts.
Proof.
  intros Hlns Hlqt Hrun.
  apply test_dns_query_phases in Hrun as (li & σ1 & a & σ3 & σ4 & drift & H1 & H3 & H4 & H5).
  destruct (collect_ready cfg t σ li σ1 a σ3 Hlns Hlqt H1 H3) as (Hsorted & Hkeys & _).
  destruct (collect_spec cfg t σ li σ1 a σ3 Hlns Hlqt H1 H3)
    as (resolved & new & ext & _ & Hres & Hnew & _ & Hs3 & _).
  destruct (consistency_check_spec (t_query_name t) a _ li (heap σ3)
              Hsorted Hkeys (t_query_types t) σ3 eq_refl eq_refl)
    as (σ4' & H4' & (_ & _ & Hs4 & _) & _).
  rewrite H4 in H4'. injection H4' as <-.
  apply baseline_diff_keeps in H5 as [_ Hs5].
  exists resolved. simpl. split_and!; [done|apply sorted_list_Sorted|apply sorted_list_perm|].
  rewrite Hs5, Hs4, Hs3, !filter_app, (filter_lookups _ Hnew). simpl.
  by rewrite filter_fan_out_requests.
Qed.

(** C8. A test that completes leaves the list [nameservers] of the test
    dictionary sorted in place; every other list object that existed before
    the call, and so [query_types] when it is another object, is as it
    was. *)
Theorem test_sorts_nameservers_in_place (cfg : config) (t : test) (σ σ' : state) :
  t_nameservers t < length (heap σ) →
  t_query_types t < length (heap σ) →
  test_dns_query cfg t σ = (Ok tt, σ') →
  heap σ' !! t_nameservers t
    = Some (sorted_list (deref (heap σ) (t_nameservers t))) ∧
  (∀ l, l < length (heap σ) → l ≠ t_nameservers t → heap σ' !! l = heap σ !! l) ∧
  (t_query_types t ≠ t_nameservers t →
   deref (heap σ') (t_query_types t) = deref (heap σ) (t_query_types t)).
Proof.
  intros Hlns Hlqt Hrun.
  apply test_dns_query_phases in Hrun as (li & σ1 & a & σ3 & σ4 & drift & H1 & H3 & H4 & H5).
  destruct (collect_ready cfg t σ li σ1 a σ3 Hlns Hlqt H1 H3) as (Hsorted & Hkeys & _).
  destruct (collect_spec cfg t σ li σ1 a σ3 Hlns Hlqt H1 H3)
    as (resolved & new & ext & _ & _ & _ & Hh3 & _ & _ & _ & _ & Hqts & _ & _ & Hslots).
  simpl in *.
  destruct (consistency_check_spec (t_query_name t) a _ li (heap σ3)
              Hsorted Hkeys (t_query_types t) σ3 eq_refl eq_refl)
    as (σ4' & H4' & (Hv & _) & _).
  rewrite H4 in H4'. injection H4' as <-.
  apply baseline_diff_keeps in H5 as [Hh5 _].
  assert (∀ l, l < length (heap σ) →
               heap σ' !! l = alter sorted_list (t_nameservers t) (heap σ) !! l) as Hold.
  { intros l Hl. rewrite Hh5, (variant_outside _ _ _ _ Hv).
    - rewrite Hh3, !lookup_app_l; [done|by rewrite length_alter|].
      rewrite length_app, length_alter. lia.
    - rewrite Hqts. intros Hs%Hslots.
      rewrite length_app, length_alter in Hs. lia. }
  split_and!.
  - rewrite Hold, list_lookup_alter_eq by done. unfold deref.
    by destruct (lookup_lt_is_Some_2 _ _ Hlns) as [x ->].
  - intros l Hl Hne. by rewrite Hold, list_lookup_alter_ne.
  - intros Hne. unfold deref. by rewrite Hold, list_lookup_alter_ne.
Qed.

(** C9. Let the fan-out meet no exception other than protocol errors.  Then
    it completes, it has sent the request of every pair of a record type and
    an address, and a pair whose last request failed on a protocol error
    has the empty list in the snapshot. *)
Theorem fan_out_absorbs_protocol_errors (cfg : config) (query_name : string)
    (q_proto : pyval) (query_types nameservers_ips : nat) (answers : answers_dict)
    (σ : state) (qb : list string) (qt : string) (qa ib : list string) (ip : string)
    (ia : list string) :
  let qts := deref (heap σ) query_types in
  let ips := deref (heap σ) nameservers_ips in
  nameservers_ips < length (heap σ) →
  qts = qb ++ qt :: qa → qt ∉ qa →
  ips = ib ++ ip :: ia → ip ∉ ia →
  tested_resolver cfg ≠ None →
  (∀ q, q ∈ qts → make_query_ok (fan_out_message cfg query_name q) = true) →
  (∀ j q a, list_prod qts ips !! j = Some (q, a) →
     network (length (sends σ) + j) (fan_out_request cfg query_name q_proto q a)
     ≠ RaisesOther) →
  network (length (sends σ) + length qb * length ips + length ib)
    (fan_out_request cfg query_name q_proto qt ip) = RaisesDNS →
  ∃ answers' σ',
    fan_out cfg query_name q_proto query_types nameservers_ips answers σ
      = (Ok answers', σ') ∧
    sends σ' = sends σ ++
      flat_map (λ q, fan_out_request cfg query_name q_proto q <$> ips) qts ∧
    ∃ d, snapshot_of (heap σ') answers' !! qt = Some d ∧ d !! ip = Some [].
Proof.
  intros qts ips Hli Hqts Hqa Hips Hia Htr Hok Hnet Herr.
  destruct (outer_regular cfg query_name q_proto nameservers_ips qts answers σ)
    as (answers' & σ' & Hrun); try done.
  exists answers', σ'. rewrite fan_out_unfold. fold qts. split_and!; [done| |].
  - rewrite (outer_sends _ _ _ _ _ _ _ _ _ Hli Hrun). f_equal. fold ips.
    clear -Hok. induction qts as [|q qts' IH]; simpl; [done|].
    rewrite IH by (intros; apply Hok; list_mem). f_equal.
    unfold fan_out_requests. rewrite Hok; [done|list_mem].
  - rewrite Hqts in Hrun, Hok.
    destruct (outer_last cfg query_name q_proto nameservers_ips
                qb qt qa ib ip ia answers σ answers' σ' [] Hli Hips Hqa Hia Hok Hrun)
      as (d & l & Hd & Hl & Hc).
    { unfold pair_outcome. destruct (tested_resolver cfg); [|done].
      rewrite Hok by list_mem. fold ips in Hips. rewrite <-Hips. by rewrite Herr. }
    exists (deref (heap σ') <$> d). unfold snapshot_of.
    rewrite lookup_fmap, Hd. split; [done|].
    rewrite lookup_fmap, Hl. simpl. unfold deref. by rewrite Hc.
Qed.

(** * Further properties *)

(** ** [store_report]: the name of the report *)

Lemma free_fname_free fuel fname seq σ :
  fs σ !! fname = None → free_fname fuel fname seq σ = (Ok (Some fname), σ).
Proof.
  intros Hfree. destruct fuel; simpl; rewrite bind_path_exists, Hfree;
    by rewrite bool_decide_eq_false_2 by (by intros [? ?]).
Qed.

(** The search goes through the numbered names in turn, reading the clock
    once for each, and stops at the first one that is free. *)
Lemma free_fname_numbered k : ∀ fuel fname seq σ,
  k < fuel →
  is_Some (fs σ !! fname) →
  (∀ j, j < k →
     is_Some (fs σ !! report_fname_seq (strftime "%Y%m%d-%H%M%S" (ticks σ + j)) (seq + j))) →
  fs σ !! report_fname_seq (strftime "%Y%m%d-%H%M%S" (ticks σ + k)) (seq + k) = None →
  free_fname fuel fname seq σ =
    (Ok (Some (report_fname_seq (strftime "%Y%m%d-%H%M%S" (ticks σ + k)) (seq + k))),
     with_ticks (λ t, t + S k) σ).
Proof.
  induction k as [|k IH]; intros fuel fname seq σ Hfuel Htaken Hbusy Hfree;
    (destruct fuel as [|fuel]; [lia|]); simpl;
    rewrite bind_path_exists, bool_decide_eq_true_2 by done; cbv iota;
    rewrite bind_now.
  - rewrite !Nat.add_0_r in *. rewrite free_fname_free by done.
    f_equal. destruct σ. unfold with_ticks. simpl. f_equal. lia.
  - rewrite !Nat.add_succ_r in Hfree. rewrite !Nat.add_succ_r.
    rewrite (IH fuel _ (S seq) (with_ticks S σ)); simpl.
    + f_equal. destruct σ. unfold with_ticks. simpl. f_equal. lia.
    + lia.
    + specialize (Hbusy 0). rewrite !Nat.add_0_r in Hbusy. apply Hbusy. lia.
    + intros j Hj. specialize (Hbusy (S j)). rewrite !Nat.add_succ_r in Hbusy.
      apply Hbusy. lia.
    + done.
Qed.

(** X1. [store_report] writes the report under the first free name of the
    sequence it tries: the name with the time stamp alone, then the names
    with the numbers 000, 001, ...  The file holds the text of the report and
    nothing else (the header of line 42 is not written), and the clock has
    been read once for the first name, once for each numbered name and once
    for the header. *)
Theorem store_report_first_free_name (details : string) (σ : state) (n : nat) :
  (∀ i, i < n → is_Some (fs σ !! report_candidate (ticks σ) i)) →
  fs σ !! report_candidate (ticks σ) n = None →
  store_report details σ =
    (Ok tt,
     State (sends σ) (ticks σ + n + 2)
       (<[report_candidate (ticks σ) n := FText details]> (fs σ))
       (heap σ) (sunk σ ++ [details])).
Proof.
  intros Hbusy Hfree. unfold store_report.
  rewrite bind_now, bind_file_count.
  destruct n as [|k].
  - simpl in Hfree. rewrite (bind_result _ _ _ _ _
      (free_fname_free (S (size (fs σ))) _ 0 (with_ticks S σ) Hfree)).
    rewrite bind_now. unfold bind, write_file, print_report. simpl.
    do 2 f_equal. simpl_state. f_equal. lia.
  - assert (k ≤ size (fs σ)) as Hsize.
    { apply numbered_files_size. intros j Hj.
      exists (strftime "%Y%m%d-%H%M%S" (ticks σ + 1 + j)). apply (Hbusy (S j)). lia. }
    assert (free_fname (S (size (fs σ)))
              (report_fname (strftime "%Y%m%d-%H%M%S" (ticks σ))) 0 (with_ticks S σ)
            = (Ok (Some (report_candidate (ticks σ) (S k))),
               with_ticks (λ t, t + S k) (with_ticks S σ))) as Hrun.
    { rewrite (free_fname_numbered k); simpl.
      - by replace (ticks σ + 1 + k) with (S (ticks σ + k)) by lia.
      - lia.
      - apply (Hbusy 0). lia.
      - intros j Hj. specialize (Hbusy (S j)). simpl in Hbusy.
        replace (ticks σ + 1 + j) with (S (ticks σ + j)) in Hbusy by lia.
        apply Hbusy. lia.
      - simpl in Hfree.
        by replace (ticks σ + 1 + k) with (S (ticks σ + k)) in Hfree by lia. }
    rewrite (bind_result _ _ _ _ _ Hrun), bind_now.
    unfold bind, write_file, print_report. simpl.
    do 2 f_equal. simpl_state. f_equal. lia.
Qed.

Lemma free_fname_shape fuel : ∀ fname seq σ found σ',
  free_fname fuel fname seq σ = (Ok (Some found), σ') →
  found = fname ∨ ∃ stamp k, found = report_fname_seq stamp k.
Proof.
  induction fuel as [|fuel IH]; intros fname seq σ found σ';
    simpl; unfold bind, path_exists, ret, now; simpl;
    destruct (bool_decide (is_Some (fs σ !! fname))); try done.
  - intros [= <- <-]. by left.
  - intros H. apply IH in H as [->|H]; right; eauto.
  - intros [= <- <-]. by left.
Qed.

(** [store_report_spec] with the shape of the name. *)
Lemma store_report_named details σ :
  ∃ fname t,
    is_report_name fname ∧
    fs σ !! fname = None ∧
    store_report details σ =
      (Ok tt, State (sends σ) t (<[fname := FText details]> (fs σ))
                    (heap σ) (sunk σ ++ [details])).
Proof.
  unfold store_report. rewrite bind_now, bind_file_count.
  set (σ1 := with_ticks S σ).
  destruct (free_fname_enough (report_fname (strftime "%Y%m%d-%H%M%S" (ticks σ))) σ1)
    as (found & σ2 & Hf).
  rewrite (bind_result _ _ _ _ _ Hf).
  pose proof (free_fname_shape _ _ _ _ _ _ Hf) as Hshape.
  apply free_fname_found in Hf as [Hnone ->].
  exists found, (S (ticks σ2)). split_and!; [|done|by destruct σ].
  destruct Hshape as [->|(stamp & k & ->)]; eexists; eauto.
Qed.

(** A report name ends in [.txt], the name of a baseline and the name of an
    archive in [.json]. *)
Lemma report_name_last p : is_report_name p → last (chars p) = Some "t"%char.
Proof.
  intros [stamp [->|[seq ->]]]; unfold report_fname, report_fname_seq;
    rewrite !chars_app, !last_app; done.
Qed.

Lemma report_name_not_stored p name : is_report_name p → p ≠ stored_fname name.
Proof.
  intros Hp%report_name_last ->. unfold stored_fname in Hp.
  rewrite !chars_app, !last_app in Hp. done.
Qed.

Lemma report_name_not_archive p name stamp :
  is_report_name p → p ≠ archive_fname name stamp.
Proof.
  intros Hp%report_name_last ->. unfold archive_fname in Hp.
  rewrite !chars_app, !last_app in Hp. done.
Qed.

(** X2. [store_report] returns in every state of the working directory (the
    loop of lines 38-40 ends), and it never writes over a file: the name it
    chooses was free, it is a report name, so neither the name of a baseline
    nor that of an archive, and every file that was there is still there
    with its content.  The requests and the list objects are untouched. *)
Theorem store_report_never_overwrites (details : string) (σ : state) :
  ∃ fname σ',
    store_report details σ = (Ok tt, σ') ∧
    fs σ !! fname = None ∧
    is_report_name fname ∧
    (∀ name, fname ≠ stored_fname name) ∧
    (∀ name stamp, fname ≠ archive_fname name stamp) ∧
    fs σ' = <[fname := FText details]> (fs σ) ∧
    (∀ p d, fs σ !! p = Some d → fs σ' !! p = Some d) ∧
    sunk σ' = sunk σ ++ [details] ∧
    sends σ' = sends σ ∧ heap σ' = heap σ.
Proof.
  destruct (store_report_named details σ) as (fname & t & Hname & Hfree & Hrun).
  eexists fname, _. split; [exact Hrun|]. simpl.
  split_and!; try done.
  - intros name. by apply report_name_not_stored.
  - intros name stamp. by apply report_name_not_archive.
  - intros p d Hp. rewrite lookup_insert_ne; [done|]. congruence.
Qed.

(** X3. Two reports stored one after the other are both in the working
    directory afterwards, under two different names: a later report never
    replaces an earlier one, even within the same second. *)
Theorem store_report_twice_keeps_both (d1 d2 : string) (σ : state) :
  ∃ f1 f2 σ',
    bind (store_report d1) (λ _, store_report d2) σ = (Ok tt, σ') ∧
    f1 ≠ f2 ∧
    fs σ !! f1 = None ∧ fs σ !! f2 = None ∧
    fs σ' !! f1 = Some (FText d1) ∧
    fs σ' !! f2 = Some (FText d2) ∧
    (∀ p d, fs σ !! p = Some d → fs σ' !! p = Some d) ∧
    sunk σ' = sunk σ ++ [d1; d2].
Proof.
  destruct (store_report_named d1 σ) as (f1 & t1 & _ & Hfree1 & Hrun1).
  rewrite (bind_result _ _ _ _ _ Hrun1).
  set (σ1 := State _ _ _ _ _).
  destruct (store_report_named d2 σ1) as (f2 & t2 & _ & Hfree2 & Hrun2).
  simpl in Hfree2.
  assert (f1 ≠ f2) as Hne by (intros ->; by rewrite lookup_insert_eq in Hfree2).
  rewrite lookup_insert_ne in Hfree2 by done.
  eexists f1, f2, _. split; [exact Hrun2|]. simpl.
  split_and!; try done.
  - rewrite lookup_insert_ne by done. apply lookup_insert_eq.
  - apply lookup_insert_eq.
  - intros p d Hp. rewrite !lookup_insert_ne; [done|congruence..].
  - by rewrite <-(assoc_L (++)).
Qed.

(** ** Resolver selection: what a selected resolver is *)

(** X4. The probe sends at most one request, the query for the NS records
    of the root without DNSSEC, over TCP exactly when the entry says ['tcp'];
    it leaves the clock, the files and the list objects alone, and a protocol
    error never leaves it as an exception. *)
Theorem test_resolver_one_probe (resolver : gmap string pyval) (σ : state) :
  ∃ r new,
    test_resolver resolver σ = (r, with_sends (λ s, s ++ new) σ) ∧
    r ≠ Raise DNSException ∧
    (new = [] ∨
     ∃ ty ip, resolver !! "type" = Some ty ∧ resolver !! "ip" = Some ip ∧
              new = [Request (if bool_decide (ty = PStr "tcp") then TCP else UDP)
                       ip probe_message]).
Proof.
  unfold test_resolver, try_dns, bind, make_query, getitem, dns_query, ret, raise.
  fold probe_message.
  destruct (make_query_ok _);
    [|destruct (make_query_error _);
      (eexists _, []; rewrite with_sends_nil; split_and!; [done|done|by left])].
  destruct (resolver !! "type") as [ty|];
    [|eexists _, []; rewrite with_sends_nil; split_and!; [done|done|by left]].
  destruct (resolver !! "ip") as [ip|];
    [|eexists _, []; rewrite with_sends_nil; split_and!; [done|done|by left]].
  destruct (network _ _); eexists _, [_];
    (split_and!; [done|done|right; by eexists _, _]).
Qed.

(** X5. When the selection returns, the selected resolver is the first
    entry of the list; the entry has the keys ['type'] and ['ip'], which
    [name2ip] reads later; exactly one request has been sent, the probe, and
    its answer holds an NS record whose text is one of the thirteen root
    server names. *)
Theorem selected_resolver_usable (cfg cfg' : config) (σ σ' : state) :
  test_all_resolvers cfg σ = (Ok cfg', σ') →
  ∃ first later ty ip r rr,
    resolvers cfg = first :: later ∧
    cfg' = Config (resolvers cfg) (Some first) ∧
    first !! "type" = Some ty ∧ first !! "ip" = Some ip ∧
    σ' = with_sends (λ s, s ++ [probe_request ty ip]) σ ∧
    network (length (sends σ)) (probe_request ty ip) = Answered r ∧
    rr ∈ concat (answer r) ∧ rdtype rr = rdatatype_NS ∧ to_text rr ∈ valid_answers.
Proof.
  unfold test_all_resolvers. intros (c & σ1 & Hloop & Hrest)%bind_ok_inv.
  destruct (resolvers cfg) as [|first later] eqn:Hrs.
  { simpl in Hloop. injection Hloop as <- <-. done. }
  simpl in Hloop.
  pose proof (test_resolver_no_dns_error first σ) as Hnd.
  destruct (test_resolver first σ) as [[[]|e] σp] eqn:Hp; simpl in Hnd.
  2:{ injection Hloop as <- <-. done. }
  2:{ destruct e; done. }
  injection Hloop as <- <-. simpl in Hrest.
  destruct (dict_truthy first); [|done]. injection Hrest as <- <-.
  revert Hp.
  unfold test_resolver, try_dns, bind, make_query, getitem, dns_query, ret, raise.
  destruct (make_query_ok _); [|by destruct (make_query_error _)].
  destruct (first !! "type") as [ty|] eqn:Htype; [|done].
  destruct (first !! "ip") as [ip|] eqn:Hip; [|done].
  fold probe_message. fold (probe_request ty ip).
  destruct (network _ _) as [r| |] eqn:Hnet; [|done..].
  intros [= Hroot <-].
  apply existsb_exists in Hroot as (rrset & Hrrset & Hrr).
  apply existsb_exists in Hrr as (rr & Hrr & Hok).
  apply andb_true_iff in Hok as [Hty Htext].
  exists first, later, ty, ip, r, rr. split_and!; try done.
  - apply list_elem_of_In, in_concat. eauto.
  - by apply N.eqb_eq.
  - by apply bool_decide_eq_true in Htext.
Qed.

(** X6. A first entry without the key ['type'], or with it and without the
    key ['ip'], ends the selection in a [KeyError] before any request is
    sent; the later entries are not looked at. *)
Theorem selection_missing_key (cfg : config) (first : gmap string pyval)
    (later : list (gmap string pyval)) (key : string) (σ : state) :
  resolvers cfg = first :: later →
  make_query_ok probe_message = true →
  key = "type" ∨ (key = "ip" ∧ is_Some (first !! "type")) →
  first !! key = None →
  test_all_resolvers cfg σ = (Raise (KeyError key), σ).
Proof.
  intros Hrs Hq Hkey Hnone. unfold test_all_resolvers, bind. rewrite Hrs. simpl.
  unfold test_resolver, try_dns, bind, make_query, getitem, ret, raise.
  fold probe_message. rewrite Hq.
  destruct Hkey as [->|[-> [ty Hty]]].
  - by rewrite Hnone.
  - by rewrite Hty, Hnone.
Qed.

(** ** [name2ip]: the other ways out of the loop *)

Section Lookup.

Variables (cfg : config) (tr : gmap string pyval) (domain : string) (ty ip : pyval).
Hypothesis Hactive : tested_resolver cfg = Some tr.
Hypothesis Htype : tr !! "type" = Some ty.
Hypothesis Hip : tr !! "ip" = Some ip.

Let d : pyval := default (PBool false) (tr !! "dnssec").
Let rq : request := Request (transport_of ty) ip (Message domain (RdCode rdatatype_A) d).

Hypothesis Hquery : make_query_ok (Message domain (RdCode rdatatype_A) d) = true.

(** [k] protocol errors followed by another exception: the loop leaves at
    once, with [response] as it was. *)
Lemma name2ip_loop_other k : ∀ attempts L σ,
  k < attempts →
  (∀ i, i < k → network (length (sends σ) + i) rq = RaisesDNS) →
  network (length (sends σ) + k) rq = RaisesOther →
  name2ip_loop attempts cfg domain L σ =
    (Ok (Locals (retanswer L) (Some d) (last_response L)),
     with_sends (λ s, s ++ replicate (S k) rq) σ).
Proof.
  induction k as [|k IH]; intros attempts L σ Hlt Herr Hother.
  - destruct attempts as [|a]; [lia|]. simpl. rewrite Hactive.
    fold d. rewrite (name2ip_query_sends _ _ _ _ Htype Hip Hquery).
    rewrite Nat.add_0_r in Hother. fold d rq. by rewrite Hother.
  - destruct attempts as [|a]; [lia|]. simpl. rewrite Hactive.
    fold d. rewrite (name2ip_query_sends _ _ _ _ Htype Hip Hquery). fold d rq.
    rewrite <-(Nat.add_0_r (length (sends σ))), Herr by lia.
    destruct (decide (a = 0)) as [->|_]; [lia|].
    rewrite IH; [|lia| |].
    + simpl. by rewrite with_sends_app.
    + intros i Hi. simpl. rewrite length_app. simpl.
      rewrite <-Nat.add_assoc. apply Herr. lia.
    + simpl. rewrite length_app. simpl. by rewrite <-Nat.add_assoc.
Qed.

(** X7. When an attempt of [name2ip] gets a response with A records, after
    [k] attempts that failed on protocol errors, the call returns the texts
    of all the A records of that response, in the order of the answer
    section, and [k + 1] requests have been sent. *)
Theorem name2ip_returns_a_records (k : nat) (r : response) (σ : state) :
  k < 10 →
  (∀ i, i < k → network (length (sends σ) + i) rq = RaisesDNS) →
  network (length (sends σ) + k) rq = Answered r →
  a_records r ≠ [] →
  name2ip cfg domain σ =
    (Ok (a_records r), with_sends (λ s, s ++ replicate (S k) rq) σ).
Proof.
  intros Hk Herr Hans Hrec. unfold name2ip, bind.
  rewrite (name2ip_loop_answer cfg tr domain ty ip Hactive Htype Hip Hquery k _ _ _ r)
    by done.
  simpl. by rewrite bool_decide_eq_false_2.
Qed.

(** X8. An exception of the query other than a protocol error (one of the
    socket layer, say) is not retried: after [k] protocol errors and that
    exception [k + 1] requests have been sent, and the call ends as if the
    name had no address, in the error of line 137, or, with DNSSEC on, in the
    [UnboundLocalError] of line 134. *)
Theorem name2ip_other_error_no_retry (k : nat) (σ : state) :
  k < 10 →
  (∀ i, i < k → network (length (sends σ) + i) rq = RaisesDNS) →
  network (length (sends σ) + k) rq = RaisesOther →
  name2ip cfg domain σ =
    (Raise (if truthy d then UnboundLocalError "response"
            else NoARecordFound domain ip),
     with_sends (λ s, s ++ replicate (S k) rq) σ).
Proof.
  intros Hk Herr Hother. unfold name2ip, bind.
  rewrite (name2ip_loop_other k) by done. simpl.
  destruct (truthy d); simpl; [done|].
  rewrite Hactive. simpl. unfold getitem. by rewrite Hip.
Qed.

End Lookup.

Lemma name2ip_loop_rejected cfg tr domain attempts : ∀ L σ,
  0 < attempts →
  tested_resolver cfg = Some tr →
  make_query_ok (Message domain (RdCode rdatatype_A)
                   (default (PBool false) (tr !! "dnssec"))) = false →
  name2ip_loop attempts cfg domain L σ =
    (Ok (Locals (retanswer L) (Some (default (PBool false) (tr !! "dnssec")))
           (last_response L)), σ).
Proof.
  induction attempts as [|a IH]; intros L σ Hpos Hactive Hq; [lia|].
  simpl. rewrite Hactive. unfold name2ip_query, bind, make_query, raise.
  rewrite Hq. destruct (make_query_error _); try done.
  destruct (decide (a = 0)) as [->|Hne]; [done|].
  rewrite IH; [done|lia|done|done].
Qed.

(** X9. A name that [make_query] rejects costs no request: the loop goes
    through its ten attempts when the rejection is a [DNSException] and is
    left at once when it is another exception; either way the call then ends
    like a lookup without answer. *)
Theorem name2ip_rejected_name (cfg : config) (tr : gmap string pyval)
    (domain : string) (ip : pyval) (σ : state) :
  let d := default (PBool false) (tr !! "dnssec") in
  tested_resolver cfg = Some tr →
  tr !! "ip" = Some ip →
  make_query_ok (Message domain (RdCode rdatatype_A) d) = false →
  name2ip cfg domain σ =
    (Raise (if truthy d then UnboundLocalError "response"
            else NoARecordFound domain ip), σ).
Proof.
  intros d Hactive Hip Hq. unfold name2ip, bind.
  rewrite (name2ip_loop_rejected cfg tr) by (done || lia). simpl.
  fold d. destruct (truthy d); simpl; [done|].
  rewrite Hactive. simpl. unfold getitem. by rewrite Hip.
Qed.

(** X10. Without a selected resolver ([tested_resolver] is [None]) the
    first pass of the loop fails before [dnssec_opt] is bound, the handler of
    line 127 leaves the loop, and line 132 ends the call in an
    [UnboundLocalError]; no request is sent. *)
Theorem name2ip_without_resolver (cfg : config) (domain : string) (σ : state) :
  tested_resolver cfg = None →
  name2ip cfg domain σ = (Raise (UnboundLocalError "dnssec_opt"), σ).
Proof. intros Hnone. unfold name2ip, bind. simpl. by rewrite Hnone. Qed.

(** Every pass of the loop sends at most one request, a query for the A
    records of the domain; a pass that gets a response has sent one. *)
Lemma name2ip_query_bound tr domain d σ :
  ∃ r new, name2ip_query tr domain d σ = (r, with_sends (λ s, s ++ new) σ)
           ∧ length new ≤ 1 ∧ Forall (is_lookup_of domain) new
           ∧ (∀ r0, r = Ok r0 → length new = 1).
Proof.
  unfold name2ip_query, bind, make_query, getitem, dns_query, ret, raise.
  destruct (make_query_ok _);
    [|eexists _, []; rewrite with_sends_nil; split_and!;
      [done|simpl; lia|constructor|done]].
  destruct (tr !! "type");
    [|eexists _, []; rewrite with_sends_nil; split_and!;
      [done|simpl; lia|constructor|done]].
  destruct (tr !! "ip");
    [|eexists _, []; rewrite with_sends_nil; split_and!;
      [done|simpl; lia|constructor|done]].
  destruct (network _ _); eexists _, [_];
    (split_and!; [done|simpl; lia|by repeat constructor|done]).
Qed.

Lemma name2ip_loop_bound cfg domain attempts : ∀ L σ,
  ∃ L' new, name2ip_loop attempts cfg domain L σ = (Ok L', with_sends (λ s, s ++ new) σ)
            ∧ length new ≤ attempts ∧ Forall (is_lookup_of domain) new
            ∧ (retanswer L = [] → retanswer L' ≠ [] → length new ≠ 0).
Proof.
  induction attempts as [|a IH]; intros L σ; simpl.
  { eexists _, []. rewrite with_sends_nil. split_and!; [done|done|constructor|done]. }
  destruct (tested_resolver cfg) as [tr|];
    [|eexists _, []; rewrite with_sends_nil; split_and!; [done|simpl; lia|constructor|done]].
  destruct (name2ip_query_bound tr domain (default (PBool false) (tr !! "dnssec")) σ)
    as (r & new & -> & Hlen & Hnew & Hone).
  destruct r as [r0|e].
  - eexists _, new. split_and!; [done|lia|done|].
    intros _ _. by rewrite (Hone r0).
  - destruct e;
      try (eexists _, new; split_and!; [done|lia|done|by simpl]).
    destruct (decide (a = 0)) as [->|Hne].
    { eexists _, new. split_and!; [done|lia|done|by simpl]. }
    edestruct IH as (L' & new' & -> & Hlen' & Hnew' & Hans).
    rewrite with_sends_app. eexists _, _. split_and!; [done| |by apply Forall_app|].
    + rewrite length_app. lia.
    + simpl in Hans. intros H1 H2. rewrite length_app.
      specialize (Hans H1 H2). lia.
Qed.

(** X11. Whatever the network does, one call of [name2ip] sends at most
    ten requests, each a query for the A records of the domain, and it
    touches nothing but the list of sent requests: no file, no list object,
    no clock. *)
Theorem name2ip_at_most_ten_requests (cfg : config) (domain : string) (σ : state) :
  ∃ r new,
    name2ip cfg domain σ = (r, with_sends (λ s, s ++ new) σ) ∧
    length new ≤ 10 ∧
    Forall (is_lookup_of domain) new.
Proof.
  destruct (name2ip_loop_bound cfg domain 10 (Locals [] None None) σ)
    as (L & new & HL & Hlen & Hnew & _).
  exists (fst (name2ip cfg domain σ)), new. split_and!; [|done..].
  unfold name2ip. rewrite (bind_result _ _ _ _ _ HL).
  destruct (bool_decide (retanswer L = [])); [|done].
  unfold bind, ret, raise, getitem.
  destruct (dnssec_opt L) as [d|]; [|done].
  destruct (truthy d);
    [destruct (last_response L) as [r0|];
     [destruct (bool_decide (options r0 = [])); [|done]|done]|];
    (destruct (tested_resolver cfg) as [tr|]; [|done]);
    by destruct (tr !! "ip").
Qed.

(** X12. [name2ip] never returns an empty list: when it returns, it has
    got an answer with at least one A record, so at least one request has
    been sent; without such an answer it raises. *)
Theorem name2ip_result_nonempty (cfg : config) (domain : string) (σ σ' : state)
    (ips : list string) :
  name2ip cfg domain σ = (Ok ips, σ') →
  ips ≠ [] ∧ length (sends σ) < length (sends σ').
Proof.
  destruct (name2ip_loop_bound cfg domain 10 (Locals [] None None) σ)
    as (L & new & HL & _ & _ & Hsent).
  unfold name2ip. rewrite (bind_result _ _ _ _ _ HL).
  destruct (bool_decide_reflect (retanswer L = [])) as [Hnil|Hne].
  - unfold bind, ret, raise, getitem.
    destruct (dnssec_opt L) as [d|]; [|done].
    destruct (truthy d);
      [destruct (last_response L) as [r0|];
       [destruct (bool_decide (options r0 = [])); [|done]|done]|];
      (destruct (tested_resolver cfg) as [tr|]; [|done]);
      by destruct (tr !! "ip").
  - intros [= <- <-]. split; [done|].
    specialize (Hsent eq_refl Hne). simpl. rewrite length_app. lia.
Qed.

(** ** The test as a whole *)

Lemma resolve_loop_raises cfg li : ∀ names σ e σ',
  for_each (λ ns, bind (name2ip cfg ns) (λ ip, update li (λ l, l ++ ip))) names σ
    = (Raise e, σ') →
  ∃ ns σa σb, ns ∈ names ∧ name2ip cfg ns σa = (Raise e, σb).
Proof.
  induction names as [|ns names IH]; intros σ e σ'; simpl; [done|].
  rewrite bind_assoc.
  destruct (name2ip cfg ns σ) as [[ip|e1] σ1] eqn:H1;
    rewrite (bind_result _ _ _ _ _ H1).
  - rewrite bind_update. intros (ns' & σa & σb & Hin & Hrun)%IH.
    exists ns', σa, σb. split; [list_mem|done].
  - intros [= <- <-]. exists ns, σ, σ1. split; [list_mem|done].
Qed.

Lemma resolve_nameservers_raises cfg lns σ e σ1 :
  lns < length (heap σ) →
  resolve_nameservers cfg lns σ = (Raise e, σ1) →
  ∃ ns σa σb, ns ∈ deref (heap σ) lns ∧ name2ip cfg ns σa = (Raise e, σb).
Proof.
  intros Hlns. unfold resolve_nameservers. rewrite bind_alloc, bind_read.
  unfold with_heap at 1. simpl heap. rewrite deref_app by done.
  unfold bind at 1.
  destruct (for_each _ _ _) as [[[]|e1] σ2] eqn:Hloop; [done|].
  intros [= <- _]. by eapply resolve_loop_raises.
Qed.

(** X13. A name server whose lookup fails ends the test: the error of
    [name2ip] leaves [test_dns_query] as it is, and at that point no query
    of the fan-out has been sent, no report and no baseline has been written,
    and the lists of the test dictionary are as they were ([nameservers] is
    not sorted yet). *)
Theorem resolution_failure_aborts_test (cfg : config) (t : test) (σ σ1 : state)
    (e : exn) :
  t_nameservers t < length (heap σ) →
  resolve_nameservers cfg (t_nameservers t) σ = (Raise e, σ1) →
  test_dns_query cfg t σ = (Raise e, σ1) ∧
  (∃ ns σa σb, ns ∈ deref (heap σ) (t_nameservers t) ∧
               name2ip cfg ns σa = (Raise e, σb)) ∧
  filter is_fan_out (sends σ1) = filter is_fan_out (sends σ) ∧
  fs σ1 = fs σ ∧ sunk σ1 = sunk σ ∧
  (∀ l, l < length (heap σ) → heap σ1 !! l = heap σ !! l).
Proof.
  intros Hlns Hrun.
  destruct (resolve_nameservers_spec cfg _ σ Hlns) as (r & new & raw & Hr & Hnew & _).
  rewrite Hrun in Hr. injection Hr as <- ->. simpl.
  split_and!; try done.
  - unfold test_dns_query. by rewrite (bind_result _ _ _ _ _ Hrun).
  - by eapply resolve_nameservers_raises.
  - by rewrite filter_app, (filter_lookups _ Hnew), app_nil_r.
  - intros l Hl. by rewrite lookup_app_l.
Qed.

(** A stored baseline is written when there is none. *)
Lemma baseline_diff_absent name query_name answers σ :
  fs σ !! stored_fname name = None →
  baseline_diff name query_name answers σ =
    (Ok false,
     with_fs <[stored_fname name := FJson (snapshot_of (heap σ) answers)]> σ).
Proof.
  intros Hfs. unfold baseline_diff.
  rewrite bind_path_exists, Hfs, bool_decide_eq_false_2 by (by intros [? ?]).
  cbv iota. rewrite bind_json_dump.
  set (σ1 := with_fs _ σ).
  assert (fs σ1 !! stored_fname name = Some (FJson (snapshot_of (heap σ1) answers)))
    as Hfs1 by apply lookup_insert_eq.
  rewrite (bind_json_load _ _ _ _ Hfs1) by done.
  rewrite bind_current, bool_decide_eq_false_2 by (intros H; by apply H).
  done.
Qed.

(** Without addresses the fan-out sends nothing and leaves an empty
    dictionary for each record type, and the check has nothing to compare. *)
Lemma outer_no_addresses cfg query_name q_proto li : ∀ qts (answers : answers_dict) σ,
  deref (heap σ) li = [] →
  for_fold (outer_body cfg query_name q_proto li) qts answers σ
  = (Ok (foldl (λ a qt, <[qt := ∅]> a) answers qts), σ).
Proof.
  induction qts as [|qt qts IH]; intros answers σ Hips; simpl; [done|].
  unfold bind at 1, outer_body at 1. rewrite bind_read, Hips. simpl.
  unfold ret. by apply IH.
Qed.

Lemma emptied_lookup qts : ∀ (answers : answers_dict) qt,
  qt ∈ qts ∨ answers !! qt = Some ∅ →
  foldl (λ a q, <[q := ∅]> a) answers qts !! qt = Some ∅.
Proof.
  induction qts as [|q qts IH]; intros answers qt H; simpl.
  - destruct H as [H|H]; [by apply elem_of_nil in H|done].
  - apply IH. destruct (decide (qt = q)) as [->|Hne].
    + right. apply lookup_insert_eq.
    + destruct H as [[?|?]%elem_of_cons|H]; [done|by left|].
      right. by rewrite lookup_insert_ne.
Qed.

Lemma check_no_addresses query_name lqt li (answers : answers_dict) σ :
  (∀ qt, qt ∈ deref (heap σ) lqt → answers !! qt = Some ∅) →
  consistency_check query_name lqt li answers σ = (Ok tt, σ).
Proof.
  unfold consistency_check. rewrite bind_read.
  induction (deref (heap σ) lqt) as [|qt qts IH]; intros H; simpl; [done|].
  rewrite bind_assoc. erewrite bind_getitem by (apply H; list_mem).
  unfold dict_truthy. rewrite bool_decide_eq_true_2 by done. simpl.
  rewrite bind_ret. apply IH. intros. apply H. list_mem.
Qed.

Lemma alter_sorted_nil h l :
  deref h l = [] → alter sorted_list l h = h.
Proof.
  intros H. apply list_eq. intros i. destruct (decide (i = l)) as [->|Hne].
  - rewrite list_lookup_alter_eq. unfold deref in H.
    destruct (h !! l) as [x|]; simpl in *; [|done]. by subst x.
  - by rewrite list_lookup_alter_ne.
Qed.

(** X14. The first run of a test whose list [nameservers] is empty
    completes: no request is sent, the check finds an empty dictionary for
    each record type and goes on (line 220) without reading
    [nameservers_ips[0]], no report is made, and the baseline that is written
    holds an empty dictionary for each record type. *)
Theorem test_without_nameservers (cfg : config) (t : test) (σ : state) :
  t_nameservers t < length (heap σ) →
  t_query_types t < length (heap σ) →
  deref (heap σ) (t_nameservers t) = [] →
  fs σ !! stored_fname (t_name t) = None →
  ∃ σ' snap,
    test_dns_query cfg t σ = (Ok tt, σ') ∧
    sends σ' = sends σ ∧ sunk σ' = sunk σ ∧
    heap σ' = heap σ ++ [[]] ∧
    fs σ' = <[stored_fname (t_name t) := FJson snap]> (fs σ) ∧
    (∀ qt, qt ∈ deref (heap σ) (t_query_types t) → snap !! qt = Some ∅).
Proof.
  intros Hlns Hlqt Hnames Hfs. unfold test_dns_query.
  assert (resolve_nameservers cfg (t_nameservers t) σ
          = (Ok (length (heap σ)), with_heap (λ h, h ++ [[]]) σ)) as H1.
  { unfold resolve_nameservers. rewrite bind_alloc, bind_read.
    unfold with_heap at 1. simpl heap. by rewrite deref_app, Hnames by done. }
  rewrite (bind_result _ _ _ _ _ H1), (bind_result _ _ _ _ _ (init_answers_spec _ _ _)).
  set (σ2 := with_heap _ (with_heap _ σ)).
  assert (heap σ2 = heap σ ++ [[]]) as Hh2.
  { subst σ2. simpl_state. rewrite sorted_store by done.
    by rewrite alter_sorted_nil by done. }
  assert (deref (heap σ2) (length (heap σ)) = []) as Hips.
  { rewrite Hh2. unfold deref. by rewrite list_lookup_middle. }
  set (a := foldl (λ a qt, <[qt := ∅]> a)
              (initial_answers (t_nameservers t) (length (heap σ)))
              (deref (heap σ2) (t_query_types t))).
  assert (fan_out cfg (t_query_name t) (default (PStr "udp") (t_query_protocol t))
            (t_query_types t) (length (heap σ))
            (initial_answers (t_nameservers t) (length (heap σ))) σ2
          = (Ok a, σ2)) as H3
    by (rewrite fan_out_unfold; by apply outer_no_addresses).
  rewrite (bind_result _ _ _ _ _ H3).
  assert (consistency_check (t_query_name t) (t_query_types t) (length (heap σ)) a σ2
          = (Ok tt, σ2)) as H4.
  { apply check_no_addresses. intros qt Hqt. apply emptied_lookup. by left. }
  rewrite (bind_result _ _ _ _ _ H4).
  rewrite (bind_result _ _ _ _ _ (baseline_diff_absent _ _ _ σ2 Hfs)).
  eexists _, (snapshot_of (heap σ2) a). split; [done|]. simpl.
  split_and!; try done.
  intros qt Hqt. unfold snapshot_of. rewrite lookup_fmap.
  subst a. rewrite emptied_lookup; [simpl; by rewrite fmap_empty|].
  left. by rewrite Hh2, deref_app.
Qed.

(** X15. Once the baseline step has returned, running it again on the same
    answers finds nothing to do: no drift, no report, no archive, the state
    is left as it is. *)
Theorem baseline_diff_settles (name query_name : string) (answers : answers_dict)
    (σ σ' : state) (drift : bool) :
  baseline_diff name query_name answers σ = (Ok drift, σ') →
  baseline_diff name query_name answers σ' = (Ok false, σ').
Proof.
  intros Hrun. apply baseline_diff_same.
  pose proof (baseline_diff_keeps _ _ _ _ _ _ Hrun) as [-> _].
  by eapply baseline_diff_stores.
Qed.

Lemma canon_fixed_sorted (snap : snapshot) k d key l :
  canon snap = snap → snap !! k = Some d → d !! key = Some l →
  Sorted String.le l.
Proof.
  intros Hc Hd Hl. rewrite <-Hc in Hd. unfold canon in Hd.
  rewrite lookup_fmap in Hd. destruct (snap !! k) as [d0|]; [|done].
  injection Hd as <-. rewrite lookup_fmap in Hl.
  destruct (d0 !! key) as [l0|]; [|done]. injection Hl as <-.
  apply sorted_list_Sorted.
Qed.

(** X16. After every test that completes, the baseline file of the test
    holds a snapshot in which every list is sorted: the host names, the
    addresses and the records of each address for each record type. *)
Theorem completed_test_baseline_sorted (cfg : config) (t : test) (σ σ' : state) :
  t_nameservers t < length (heap σ) →
  t_query_types t < length (heap σ) →
  test_dns_query cfg t σ = (Ok tt, σ') →
  ∃ snap,
    fs σ' !! stored_fname (t_name t) = Some (FJson snap) ∧
    ∀ k d key l, snap !! k = Some d → d !! key = Some l → Sorted String.le l.
Proof.
  intros Hlns Hlqt Hrun.
  apply test_dns_query_phases in Hrun
    as (li & σ1 & a & σ3 & σ4 & drift & H1 & H3 & H4 & H5).
  destruct (collect_ready cfg t σ li σ1 a σ3 Hlns Hlqt H1 H3)
    as (Hsorted & Hkeys & Hother).
  destruct (persisted_baseline_canonical _ _ _ _ _ _ _ _ _ Hsorted Hkeys Hother H4 H5)
    as (snap & Hsnap & Hcanon).
  exists snap. split; [done|]. intros k d key l. by apply canon_fixed_sorted.
Qed.

(** ** The fan-out: exceptions that are not protocol errors *)

Lemma fan_out_requests_all cfg query_name q_proto ips qts :
  (∀ q, q ∈ qts → make_query_ok (fan_out_message cfg query_name q) = true) →
  flat_map (fan_out_requests cfg query_name q_proto ips) qts
  = flat_map (λ q, fan_out_request cfg query_name q_proto q <$> ips) qts.
Proof.
  intros Hok. induction qts as [|q qts IH]; simpl; [done|].
  rewrite IH by (intros; apply Hok; list_mem). f_equal.
  unfold fan_out_requests. rewrite Hok; [done|list_mem].
Qed.

Lemma inner_other_error cfg query_name q_proto query_type ib ip ia
    (answers : answers_dict) d σ :
  answers !! query_type = Some d →
  tested_resolver cfg ≠ None →
  make_query_ok (fan_out_message cfg query_name query_type) = true →
  (∀ j a, ib !! j = Some a →
     network (length (sends σ) + j)
       (fan_out_request cfg query_name q_proto query_type a) ≠ RaisesOther) →
  network (length (sends σ) + length ib)
    (fan_out_request cfg query_name q_proto query_type ip) = RaisesOther →
  ∃ σ',
    for_fold (query_one cfg query_name q_proto query_type) (ib ++ ip :: ia) answers σ
      = (Raise OSError, σ') ∧
    sends σ' = sends σ ++
      (fan_out_request cfg query_name q_proto query_type <$> (ib ++ [ip])) ∧
    fs σ' = fs σ ∧ sunk σ' = sunk σ.
Proof.
  intros Hd Htr Hok Hnet Hother.
  destruct (inner_regular cfg query_name q_proto query_type ib answers d σ Hd Htr Hok Hnet)
    as (a1 & σ1 & H1).
  pose proof (inner_sends _ _ _ _ _ _ _ _ _ _ Hd H1) as Hs1.
  pose proof (inner_frame _ _ _ _ _ _ _ _ _ _ Hd H1) as (_ & Hf1 & Hk1 & ext1 & _ & Ha1).
  destruct (Ha1 _ eq_refl) as (_ & d1 & -> & _).
  rewrite for_fold_app, (bind_result _ _ _ _ _ H1). simpl. unfold bind at 1.
  rewrite (query_one_eq _ _ _ _ _ _ d1) by apply lookup_insert_eq.
  unfold pair_outcome. destruct (tested_resolver cfg) as [tr|]; [|done].
  rewrite Hok, Hs1, length_app, fan_out_requests_length, Hother by done.
  eexists. split; [done|]. simpl. split_and!; [|done..].
  rewrite Hs1. unfold fan_out_requests. rewrite Hok, fmap_app.
  by rewrite <-(assoc_L (++)).
Qed.

(** X17. An exception of a fan-out query that is not a protocol error is
    not absorbed: it ends the fan-out at that pair.  The requests of the
    pairs before it and the failing one have been sent, none after it, and no
    file and no report has been written. *)
Theorem fan_out_other_error_aborts (cfg : config) (query_name : string)
    (q_proto : pyval) (query_types nameservers_ips : nat) (answers : answers_dict)
    (σ : state) (qb : list string) (qt : string) (qa ib : list string) (ip : string)
    (ia : list string) :
  let ips := deref (heap σ) nameservers_ips in
  nameservers_ips < length (heap σ) →
  deref (heap σ) query_types = qb ++ qt :: qa →
  ips = ib ++ ip :: ia →
  tested_resolver cfg ≠ None →
  (∀ q, q ∈ qb ++ [qt] → make_query_ok (fan_out_message cfg query_name q) = true) →
  (∀ j q a, list_prod qb ips !! j = Some (q, a) →
     network (length (sends σ) + j) (fan_out_request cfg query_name q_proto q a)
     ≠ RaisesOther) →
  (∀ j a, ib !! j = Some a →
     network (length (sends σ) + length qb * length ips + j)
       (fan_out_request cfg query_name q_proto qt a) ≠ RaisesOther) →
  network (length (sends σ) + length qb * length ips + length ib)
    (fan_out_request cfg query_name q_proto qt ip) = RaisesOther →
  ∃ σ',
    fan_out cfg query_name q_proto query_types nameservers_ips answers σ
      = (Raise OSError, σ') ∧
    sends σ' = sends σ ++
      flat_map (λ q, fan_out_request cfg query_name q_proto q <$> ips) qb ++
      (fan_out_request cfg query_name q_proto qt <$> (ib ++ [ip])) ∧
    fs σ' = fs σ ∧ sunk σ' = sunk σ.
Proof.
  intros ips Hli Hqts Hips Htr Hok Hbefore Hsame Hother.
  assert (∀ q, q ∈ qb → make_query_ok (fan_out_message cfg query_name q) = true)
    as Hokb by (intros; apply Hok; list_mem).
  destruct (outer_regular cfg query_name q_proto nameservers_ips qb answers σ
              Hli Htr Hokb Hbefore) as (a1 & σ1 & H1).
  pose proof (outer_sends _ _ _ _ _ _ _ _ _ Hli H1) as Hs1.
  pose proof (outer_frame _ _ _ _ _ _ _ _ _ Hli H1) as (_ & Hf1 & Hk1 & ext1 & Hh1 & _).
  fold ips in Hs1. rewrite fan_out_requests_all in Hs1 by done.
  assert (length (sends σ1) = length (sends σ) + length qb * length ips) as Hlen.
  { rewrite Hs1, length_app. f_equal.
    apply flat_map_constant_length. intros; by rewrite length_fmap. }
  rewrite fan_out_unfold, Hqts, for_fold_app, (bind_result _ _ _ _ _ H1).
  simpl. unfold bind at 1, outer_body at 1. rewrite bind_read.
  rewrite Hh1, deref_app by done. fold ips. rewrite Hips.
  destruct (inner_other_error cfg query_name q_proto qt ib ip ia
              (<[qt := ∅]> a1) ∅ σ1) as (σ' & Hrun & Hs & Hf & Hk).
  - apply lookup_insert_eq.
  - done.
  - apply Hok. list_mem.
  - intros j a Hj. rewrite Hlen. by apply Hsame.
  - by rewrite Hlen.
  - exists σ'. rewrite Hrun. split; [done|]. split_and!; [|congruence..].
    by rewrite Hs, Hs1, <-Hips, <-(assoc_L (++)).
Qed.

(** ** The ways a test can fail *)

Lemma inner_raises cfg query_name q_proto query_type :
  ∀ ips (answers : answers_dict) d σ e σ',
  answers !! query_type = Some d →
  for_fold (query_one cfg query_name q_proto query_type) ips answers σ = (Raise e, σ') →
  (tested_resolver cfg = None ∧ e = AttributeError) ∨
  (e = OSError ∧
   ∃ n ip, network n (fan_out_request cfg query_name q_proto query_type ip)
           = RaisesOther) ∨
  (e ≠ DNSException ∧
   make_query_ok (fan_out_message cfg query_name query_type) = false ∧
   make_query_error (fan_out_message cfg query_name query_type) = e).
Proof.
  induction ips as [|ip ips IH]; intros answers d σ e σ' Hd; simpl; [done|].
  unfold bind at 1. rewrite (query_one_eq _ _ _ _ _ _ _ _ Hd).
  unfold pair_outcome. destruct (tested_resolver cfg) as [tr|].
  2:{ intros [= <- <-]. by left. }
  destruct (make_query_ok _) eqn:Hok.
  - destruct (network _ _) eqn:Hnet; simpl.
    + intros H. eapply IH in H as [[? ?]|H]; [done|by right|apply lookup_insert_eq].
    + intros H. eapply IH in H as [[? ?]|H]; [done|by right|apply lookup_insert_eq].
    + intros [= <- <-]. right; left. split; [done|]. eauto.
  - destruct (make_query_error _) eqn:Herr; simpl;
      try (intros [= <- <-]; right; right; by split_and!).
    intros H. eapply IH in H as [[? ?]|H]; [done|by right|apply lookup_insert_eq].
Qed.

Lemma outer_raises cfg query_name q_proto li : ∀ qts (answers : answers_dict) σ e σ',
  li < length (heap σ) →
  for_fold (outer_body cfg query_name q_proto li) qts answers σ = (Raise e, σ') →
  (tested_resolver cfg = None ∧ deref (heap σ) li ≠ []) ∨
  (e = OSError ∧
   ∃ n qt ip, network n (fan_out_request cfg query_name q_proto qt ip) = RaisesOther) ∨
  (e ≠ DNSException ∧
   ∃ qt, make_query_ok (fan_out_message cfg query_name qt) = false ∧
         make_query_error (fan_out_message cfg query_name qt) = e).
Proof.
  induction qts as [|qt qts IH]; intros answers σ e σ' Hli; simpl; [done|].
  unfold bind at 1, outer_body at 1. rewrite bind_read.
  destruct (for_fold _ (deref (heap σ) li) _ σ) as [[a1|e1] σ1] eqn:H1.
  - pose proof (inner_frame _ _ _ _ _ _ _ _ _ _ (lookup_insert_eq _ _ _) H1)
      as (_ & _ & _ & ext & Hh1 & _).
    intros H. apply IH in H as [[? Hne]|H]; [left|by right|].
    + split; [done|]. by rewrite Hh1, deref_app in Hne.
    + rewrite Hh1, length_app. lia.
  - intros [= <- <-].
    destruct (deref (heap σ) li) as [|ip ips] eqn:Hips; [done|].
    eapply inner_raises in H1
      as [[? ?]|[(-> & n & ip' & Hnet)|(Hne & Hok & Herr)]];
      [by left| | |apply lookup_insert_eq].
    + right; left. split; [done|]. eauto.
    + right; right. split; [done|]. eauto.
Qed.

Lemma reports_only_bind {A B} (m : M A) (k : A → M B) :
  reports_only m → (∀ a, reports_only (k a)) → reports_only (bind m k).
Proof.
  intros Hm Hk σ r σ'. unfold bind. destruct (m σ) as [[a|e] σ1] eqn:H1.
  - intros H2. destruct (Hm _ _ _ H1) as (Hn1 & Hk1 & new1 & Hs1 & Hd1).
    destruct (Hk _ _ _ _ H2) as (Hn2 & Hk2 & new2 & Hs2 & Hd2).
    split_and!.
    + intros p Hp Hp'. destruct (fs σ1 !! p) eqn:Hp1.
      * apply Hn1; [done|by rewrite Hp1].
      * by apply Hn2.
    + intros p x Hp. by apply Hk2, Hk1.
    + exists (new1 ++ new2). split; [by rewrite Hs2, Hs1, (assoc_L (++))|].
      intros d [Hd|Hd]%elem_of_app.
      * destruct (Hd1 _ Hd) as (p & Hp & Hp'). exists p. split; [done|]. by apply Hk2.
      * destruct (Hd2 _ Hd) as (p & Hp & Hp'). exists p. split; [|done].
        destruct (fs σ !! p) eqn:Hp0; [|done]. apply Hk1 in Hp0. congruence.
  - intros [= <- <-]. by eapply Hm.
Qed.

Lemma reports_only_same {A} (m : M A) :
  (∀ σ, fs (m σ).2 = fs σ ∧ sunk (m σ).2 = sunk σ) → reports_only m.
Proof.
  intros H σ r σ' Hm. destruct (H σ) as [Hf Hs]. rewrite Hm in Hf, Hs. simpl in *.
  split_and!.
  - intros p Hp [x Hx]. congruence.
  - intros p x Hp. congruence.
  - exists []. rewrite app_nil_r. split; [done|].
    intros d Hd. by apply elem_of_nil in Hd.
Qed.

Lemma reports_only_for_each {A} (body : A → M unit) xs :
  (∀ x, reports_only (body x)) → reports_only (for_each body xs).
Proof.
  intros Hbody. induction xs as [|x xs IH]; simpl.
  - by apply reports_only_same.
  - by apply reports_only_bind.
Qed.

Lemma reports_only_store_report details : reports_only (store_report details).
Proof.
  intros σ r σ' Hrun.
  destruct (store_report_named details σ) as (fname & t & Hname & Hfree & Hs).
  rewrite Hrun in Hs. injection Hs as _ ->. simpl. split_and!.
  - intros p Hp Hp'. destruct (decide (p = fname)) as [->|Hne]; [done|].
    rewrite lookup_insert_ne, Hp in Hp' by done. by destruct Hp'.
  - intros p x Hp. rewrite lookup_insert_ne; [done|]. congruence.
  - exists [details]. split; [done|]. intros d ->%list_elem_of_singleton.
    exists fname. split; [done|]. apply lookup_insert_eq.
Qed.

Lemma reports_only_getitem {V} (d : gmap string V) key : reports_only (getitem d key).
Proof. apply reports_only_same. intros σ. unfold getitem. by destruct (d !! key). Qed.

Lemma reports_only_first_item xs : reports_only (first_item xs).
Proof. apply reports_only_same. intros σ. unfold first_item. by destruct (xs !! 0). Qed.

Lemma consistency_check_reports_only query_name query_types nameservers_ips answers :
  reports_only (consistency_check query_name query_types nameservers_ips answers).
Proof.
  unfold consistency_check.
  apply reports_only_bind; [by apply reports_only_same|]. intros qts.
  apply reports_only_for_each. intros qt.
  apply reports_only_bind; [apply reports_only_getitem|]. intros d.
  destruct (dict_truthy d); [|by apply reports_only_same].
  apply reports_only_bind; [by apply reports_only_same|]. intros ips.
  apply reports_only_bind; [apply reports_only_first_item|]. intros reference.
  apply reports_only_bind; [apply reports_only_getitem|]. intros lref.
  apply reports_only_bind; [by apply reports_only_same|]. intros _.
  apply reports_only_bind; [by apply reports_only_same|]. intros ips'.
  apply reports_only_for_each. intros ns_ip. unfold check_one.
  apply reports_only_bind; [apply reports_only_getitem|]. intros l.
  apply reports_only_bind; [by apply reports_only_same|]. intros _.
  apply reports_only_bind; [by apply reports_only_same|]. intros got.
  apply reports_only_bind; [by apply reports_only_same|]. intros ips''.
  apply reports_only_bind; [apply reports_only_first_item|]. intros reference'.
  apply reports_only_bind; [apply reports_only_getitem|]. intros lref'.
  apply reports_only_bind; [by apply reports_only_same|]. intros expected.
  destruct (bool_decide _); [apply reports_only_store_report|by apply reports_only_same].
Qed.

(** The baseline step fails only on a stored file that is not JSON. *)
Lemma baseline_diff_raises name query_name answers σ e σ' :
  baseline_diff name query_name answers σ = (Raise e, σ') →
  e = JSONDecodeError ∧ σ' = σ ∧ ∃ raw, fs σ !! stored_fname name = Some (FText raw).
Proof.
  destruct (fs σ !! stored_fname name) as [old|] eqn:Hfs.
  2:{ by rewrite baseline_diff_absent. }
  unfold baseline_diff.
  rewrite bind_path_exists, Hfs, bool_decide_eq_true_2 by eauto. cbv iota.
  rewrite bind_ret.
  assert ((∃ raw, old = FText raw) ∨ ∀ raw, old ≠ FText raw) as [[raw ->]|Hjson]
    by (destruct old; eauto).
  { unfold bind at 1, json_load. rewrite Hfs. intros [= <- <-]. eauto. }
  rewrite (bind_json_load _ _ _ _ Hfs) by done.
  rewrite bind_current.
  destruct (bool_decide _); [|done].
  destruct (store_report_spec
    (baseline_report query_name old (FJson (snapshot_of (heap σ) answers))) σ)
    as (rf & t & Hrf & Hsr).
  rewrite (bind_result _ _ _ _ _ Hsr), bind_now.
  erewrite bind_rename;
    [|simpl; rewrite lookup_insert_ne by congruence; exact Hfs].
  by rewrite bind_json_dump.
Qed.

(** X18. A test whose lists are in the store can fail in four ways only:
    the lookup of a name server raises (the error of [name2ip]); a query of
    the fan-out raises something that is not a protocol error; [make_query]
    rejects the query of a record type with an exception that is not a
    [DNSException] (the [ValueError] of a type number out of range), which
    line 208 does not catch; or the stored baseline of the test is not JSON.
    The consistency check never fails: no [IndexError] at
    [nameservers_ips[0]] and no [KeyError]. *)
Theorem test_failure_modes (cfg : config) (t : test) (σ σ' : state) (e : exn) :
  t_nameservers t < length (heap σ) →
  t_query_types t < length (heap σ) →
  test_dns_query cfg t σ = (Raise e, σ') →
  (∃ ns σa σb, ns ∈ deref (heap σ) (t_nameservers t) ∧
               name2ip cfg ns σa = (Raise e, σb)) ∨
  (e = OSError ∧
   ∃ n qt ip,
     network n (fan_out_request cfg (t_query_name t)
                  (default (PStr "udp") (t_query_protocol t)) qt ip) = RaisesOther) ∨
  (e ≠ DNSException ∧
   ∃ qt, make_query_ok (fan_out_message cfg (t_query_name t) qt) = false ∧
         make_query_error (fan_out_message cfg (t_query_name t) qt) = e) ∨
  (e = JSONDecodeError ∧
   ∃ raw, fs σ !! stored_fname (t_name t) = Some (FText raw)).
Proof.
  intros Hlns Hlqt Hrun. unfold test_dns_query in Hrun.
  destruct (resolve_nameservers cfg (t_nameservers t) σ) as [[li|e1] σ1] eqn:H1;
    rewrite (bind_result _ _ _ _ _ H1) in Hrun.
  2:{ injection Hrun as <- <-. left. by eapply resolve_nameservers_raises. }
  rewrite (bind_result _ _ _ _ _ (init_answers_spec _ _ _)) in Hrun.
  destruct (fan_out cfg (t_query_name t) (default (PStr "udp") (t_query_protocol t))
              (t_query_types t) li (initial_answers (t_nameservers t) li)
              (with_heap (λ h, alter sorted_list li (alter sorted_list (t_nameservers t) h))
                 σ1)) as [[a|e3] σ3] eqn:H3;
    rewrite (bind_result _ _ _ _ _ H3) in Hrun.
  2:{ injection Hrun as <- <-. right.
      destruct (resolve_nameservers_spec cfg _ σ Hlns)
        as (r & new & raw & Hr & Hnew & Hok).
      rewrite H1 in Hr. injection Hr as <- ->.
      destruct (Hok _ eq_refl) as (-> & resolved & Hres & ->).
      rewrite fan_out_unfold in H3. simpl_state.
      rewrite sorted_store in H3 by done.
      apply outer_raises in H3 as [[Hnone Hne]|[?|?]];
        [exfalso|by left|right; by left|].
      - simpl in Hne. unfold deref in Hne.
        rewrite list_lookup_middle in Hne by (by rewrite length_alter).
        simpl in Hne. destruct Hres as [|ns ips names rest (σa & σb & Hns) _];
          [done|].
        revert Hns. unfold name2ip, bind. simpl. by rewrite Hnone.
      - simpl. rewrite length_app, length_alter. simpl. lia. }
  destruct (collect_ready cfg t σ li σ1 a σ3 Hlns Hlqt H1 H3) as (Hsorted & Hkeys & _).
  destruct (collect_spec cfg t σ li σ1 a σ3 Hlns Hlqt H1 H3)
    as (resolved & new & ext & _ & _ & _ & _ & _ & Hfs3 & _).
  destruct (consistency_check_spec (t_query_name t) a _ li (heap σ3)
              Hsorted Hkeys (t_query_types t) σ3 eq_refl eq_refl)
    as (σ4 & H4 & (_ & _ & _ & _ & Hkept) & _).
  rewrite (bind_result _ _ _ _ _ H4) in Hrun.
  destruct (baseline_diff (t_name t) (t_query_name t) a σ4) as [[drift|e5] σ5] eqn:H5;
    rewrite (bind_result _ _ _ _ _ H5) in Hrun; [done|].
  injection Hrun as <- <-. right; right; right.
  apply baseline_diff_raises in H5 as (-> & _ & raw & Hraw).
  split; [done|]. exists raw. rewrite <-Hfs3.
  destruct (fs σ3 !! stored_fname (t_name t)) as [old|] eqn:Hold.
  - apply Hkept in Hold. congruence.
  - exfalso.
    destruct (consistency_check_reports_only _ _ _ _ _ _ _ H4) as (Hadded & _).
    eapply (report_name_not_stored _ (t_name t)); [|done].
    apply Hadded; [done|by rewrite Hraw].
Qed.

(** ** [run] and [main] *)

Lemma for_each_app {A} (body : A → M unit) xs ys σ :
  for_each body (xs ++ ys) σ
  = bind (for_each body xs) (λ _, for_each body ys) σ.
Proof.
  revert σ. induction xs as [|x xs IH]; intros σ; simpl; [done|].
  rewrite bind_assoc. unfold bind at 1 2. destruct (body x σ) as [[[]|e] σ1]; [|done].
  apply IH.
Qed.

Lemma run_cons cfg e tests σ :
  run cfg (e :: tests) σ =
  match e_type e with
  | None => (Raise (KeyError "type"), σ)
  | Some ty =>
      if bool_decide (ty = PStr "query")
      then bind (test_dns_query cfg (e_test e)) (λ _, run cfg tests) σ
      else run cfg tests σ
  end.
Proof.
  unfold run. simpl. destruct (e_type e) as [ty|]; [|done].
  rewrite bind_assoc, bind_ret. by destruct (bool_decide _).
Qed.

(** X19. [run] executes the entries of type ['query'] and passes over the
    others: when every entry has a ['type'], running the list is running
    its entries of type ['query'], in their order. *)
Theorem run_skips_other_types (cfg : config) (tests : list dns_entry) (σ : state) :
  Forall (λ e, is_Some (e_type e)) tests →
  run cfg tests σ
  = run cfg (filter (λ e, e_type e = Some (PStr "query")) tests) σ.
Proof.
  intros Hall. revert σ. induction Hall as [|e tests [ty Hty] _ IH]; intros σ; [done|].
  destruct (decide (ty = PStr "query")) as [->|Hne].
  - rewrite filter_cons_True by done.
    rewrite !run_cons, Hty, bool_decide_eq_true_2 by done. unfold bind.
    destruct (test_dns_query _ _ _) as [[[]|err] σ1]; [apply IH|done].
  - rewrite filter_cons_False by congruence.
    rewrite run_cons, Hty, bool_decide_eq_false_2 by done. apply IH.
Qed.

(** X20. Nothing in [run] handles the exception of a test: the first test
    that raises ends the run with that exception, in the state the test left,
    and the entries after it are not looked at. *)
Theorem run_stops_at_first_failure (cfg : config) (before after : list dns_entry)
    (e : dns_entry) (σ σ1 σ2 : state) (err : exn) :
  run cfg before σ = (Ok tt, σ1) →
  e_type e = Some (PStr "query") →
  test_dns_query cfg (e_test e) σ1 = (Raise err, σ2) →
  run cfg (before ++ e :: after) σ = (Raise err, σ2).
Proof.
  intros Hbefore Hty Hfail.
  assert (run cfg (before ++ e :: after) σ
          = bind (run cfg before) (λ _, run cfg (e :: after)) σ) as ->
    by apply for_each_app.
  rewrite (bind_result _ _ _ _ _ Hbefore), run_cons, Hty, bool_decide_eq_true_2 by done.
  unfold bind. by rewrite Hfail.
Qed.

Lemma test_resolver_frame resolver σ :
  ∃ r new, test_resolver resolver σ = (r, with_sends (λ s, s ++ new) σ)
           ∧ length new ≤ 1.
Proof.
  unfold test_resolver, try_dns, bind, make_query, getitem, dns_query, ret, raise.
  destruct (make_query_ok _);
    [|destruct (make_query_error _);
      (eexists _, []; rewrite with_sends_nil; split; [done|simpl; lia])].
  destruct (resolver !! "type");
    [|eexists _, []; rewrite with_sends_nil; split; [done|simpl; lia]].
  destruct (resolver !! "ip");
    [|eexists _, []; rewrite with_sends_nil; split; [done|simpl; lia]].
  destruct (network _ _); eexists _, [_]; (split; [done|simpl; lia]).
Qed.

(** X21. When the list of resolvers is empty or the probe of its first
    entry says no, [main] ends in the error of line 102 and runs no test: at
    most the one request of the probe has been sent, and no file, no list
    object and no report has been touched. *)
Theorem main_without_resolver_runs_no_test (cfg : config) (dns : list dns_entry)
    (σ : state) :
  (∀ first, head (resolvers cfg) = Some first →
            fst (test_resolver first σ) = Ok false) →
  ∃ new,
    main cfg dns σ = (Raise NoWorkingResolverFound, with_sends (λ s, s ++ new) σ) ∧
    length new ≤ 1.
Proof.
  intros Hprobe. unfold main, test_all_resolvers, bind.
  destruct (resolvers cfg) as [|first later] eqn:Hrs; simpl.
  { exists []. rewrite with_sends_nil. split; [done|simpl; lia]. }
  specialize (Hprobe first eq_refl).
  destruct (test_resolver_frame first σ) as (r & new & Hr & Hlen).
  rewrite Hr in Hprobe |- *. simpl in Hprobe. subst r.
  exists new. by split.
Qed.

(** ** What the consistency check leaves alone *)

(** X22. On a snapshot as the fan-out leaves it, the consistency check
    returns and is local: it sends no request, it leaves every file where it
    was and adds only report files, and of the list objects it changes only
    the record lists of the checked record types, each of which it leaves
    sorted in place. *)
Theorem consistency_check_is_local (query_name : string) (answers : answers_dict)
    (query_types nameservers_ips : nat) (σ : state) :
  let ips := deref (heap σ) nameservers_ips in
  let qts := deref (heap σ) query_types in
  Sorted String.le ips →
  well_keyed answers qts ips →
  ∃ σ',
    consistency_check query_name query_types nameservers_ips answers σ = (Ok tt, σ') ∧
    sends σ' = sends σ ∧
    (∀ p x, fs σ !! p = Some x → fs σ' !! p = Some x) ∧
    (∀ p, fs σ !! p = None → is_Some (fs σ' !! p) → is_report_name p) ∧
    length (heap σ') = length (heap σ) ∧
    (∀ l, ¬ slots_of answers qts l → heap σ' !! l = heap σ !! l) ∧
    (∀ l, slots_of answers qts l → heap σ' !! l = sorted_list <$> heap σ !! l).
Proof.
  intros ips qts Hsorted Hkeys.
  destruct (consistency_check_spec query_name answers qts nameservers_ips (heap σ)
              Hsorted Hkeys query_types σ eq_refl eq_refl)
    as (σ' & Hrun & (Hv & _ & Hsends & _ & Hfiles) & Hall).
  exists σ'. split_and!; try done.
  - by destruct (consistency_check_reports_only _ _ _ _ _ _ _ Hrun) as (Hadded & _).
  - apply Hv.
  - intros l Hl. by eapply variant_outside.
  - intros l (qt & d & ip & Hqt & Hd & Hl). by eapply Hall.
Qed.

(** ** The names of the numbered reports *)

(** X23. Two numbered report names with different sequence numbers are
    different names, whatever their time stamps are: the number is read back
    from the last field of the name. *)
Theorem numbered_names_distinct (stamp1 stamp2 : string) (k1 k2 : nat) :
  k1 ≠ k2 → report_fname_seq stamp1 k1 ≠ report_fname_seq stamp2 k2.
Proof. intros Hne Heq. by apply report_fname_seq_inj in Heq. Qed.

(** ** The files of a test *)

Lemma baseline_diff_files name query_name answers σ r σ' :
  baseline_diff name query_name answers σ = (r, σ') →
  (∀ p x, fs σ !! p = Some x → ¬ own_file name p → fs σ' !! p = Some x) ∧
  (∀ p, fs σ !! p = None → is_Some (fs σ' !! p) →
        own_file name p ∨ is_report_name p).
Proof.
  destruct (fs σ !! stored_fname name) as [old|] eqn:Hfs.
  2:{ rewrite baseline_diff_absent by done. intros [= <- <-]. simpl. split.
      - intros p x Hp Hown. rewrite lookup_insert_ne; [done|].
        intros <-. apply Hown. by left.
      - intros p Hp Hp'. destruct (decide (p = stored_fname name)) as [->|Hne];
          [left; by left|].
        rewrite lookup_insert_ne, Hp in Hp' by done. by destruct Hp'. }
  unfold baseline_diff.
  rewrite bind_path_exists, Hfs, bool_decide_eq_true_2 by eauto. cbv iota.
  rewrite bind_ret.
  assert ((∃ raw, old = FText raw) ∨ ∀ raw, old ≠ FText raw) as [[raw ->]|Hjson]
    by (destruct old; eauto).
  { unfold bind at 1, json_load. rewrite Hfs. intros [= <- <-]. split; [done|].
    intros p Hp Hp'. rewrite Hp in Hp'. by destruct Hp'. }
  rewrite (bind_json_load _ _ _ _ Hfs) by done.
  rewrite bind_current.
  destruct (bool_decide _).
  2:{ intros [= <- <-]. split; [done|].
      intros p Hp Hp'. rewrite Hp in Hp'. by destruct Hp'. }
  destruct (store_report_named
    (baseline_report query_name old (FJson (snapshot_of (heap σ) answers))) σ)
    as (rf & t & Hname & Hrf & Hsr).
  rewrite (bind_result _ _ _ _ _ Hsr), bind_now.
  erewrite bind_rename;
    [|simpl; rewrite lookup_insert_ne by congruence; exact Hfs].
  rewrite bind_json_dump. intros [= <- <-]. simpl_state. split.
  - intros p x Hp Hown.
    assert (p ≠ stored_fname name) by (intros ->; apply Hown; by left).
    assert (p ≠ archive_fname name (strftime "%Y%m%d-%H%M%S" t))
      by (intros ->; apply Hown; right; eauto).
    assert (p ≠ rf) by congruence.
    by rewrite !lookup_insert_ne, lookup_delete_ne, lookup_insert_ne.
  - intros p Hp Hp'.
    destruct (decide (p = stored_fname name)) as [->|H1]; [left; by left|].
    destruct (decide (p = archive_fname name (strftime "%Y%m%d-%H%M%S" t)))
      as [->|H2]; [left; right; eauto|].
    destruct (decide (p = rf)) as [->|H3]; [by right|].
    rewrite !lookup_insert_ne, lookup_delete_ne, lookup_insert_ne, Hp in Hp' by done.
    by destruct Hp'.
Qed.

(** The report of the baseline step is on disk when the step has ended. *)
Lemma baseline_diff_reports name query_name answers σ r σ' :
  baseline_diff name query_name answers σ = (r, σ') →
  ∃ new, sunk σ' = sunk σ ++ new ∧
         ∀ d, d ∈ new → ∃ p, is_report_name p ∧ fs σ !! p = None
                             ∧ fs σ' !! p = Some (FText d).
Proof.
  assert (∀ σ0 : state, ∃ new, sunk σ0 = sunk σ0 ++ new ∧
            ∀ d, d ∈ new → ∃ p, is_report_name p ∧ fs σ0 !! p = None
                                ∧ fs σ0 !! p = Some (FText d)) as Hnone.
  { intros σ0. exists []. rewrite app_nil_r. split; [done|].
    intros d Hd. by apply elem_of_nil in Hd. }
  destruct (fs σ !! stored_fname name) as [old|] eqn:Hfs.
  2:{ rewrite baseline_diff_absent by done. intros [= <- <-]. simpl.
      exists []. rewrite app_nil_r. split; [done|].
      intros d Hd. by apply elem_of_nil in Hd. }
  unfold baseline_diff.
  rewrite bind_path_exists, Hfs, bool_decide_eq_true_2 by eauto. cbv iota.
  rewrite bind_ret.
  assert ((∃ raw, old = FText raw) ∨ ∀ raw, old ≠ FText raw) as [[raw ->]|Hjson]
    by (destruct old; eauto).
  { unfold bind at 1, json_load. rewrite Hfs. intros [= <- <-]. apply Hnone. }
  rewrite (bind_json_load _ _ _ _ Hfs) by done.
  rewrite bind_current.
  destruct (bool_decide _); [|intros [= <- <-]; apply Hnone].
  destruct (store_report_named
    (baseline_report query_name old (FJson (snapshot_of (heap σ) answers))) σ)
    as (rf & t & Hname & Hrf & Hsr).
  rewrite (bind_result _ _ _ _ _ Hsr), bind_now.
  erewrite bind_rename;
    [|simpl; rewrite lookup_insert_ne by congruence; exact Hfs].
  rewrite bind_json_dump. intros [= <- <-]. simpl_state.
  eexists [_]. split; [done|]. intros d ->%list_elem_of_singleton.
  exists rf. split_and!; [done..|].
  rewrite !lookup_insert_ne, lookup_delete_ne
    by (try apply not_eq_sym; by (apply report_name_not_stored
                                  || apply report_name_not_archive)).
  apply lookup_insert_eq.
Qed.

(** The files up to the baseline step: either the run has ended before that
    step without touching a file, or the step is reached in a state that
    differs from the first one, as to the files, by the reports of the
    check. *)
Lemma test_files_before_baseline cfg t σ :
  t_nameservers t < length (heap σ) →
  t_query_types t < length (heap σ) →
  (∃ e σ', test_dns_query cfg t σ = (Raise e, σ') ∧ fs σ' = fs σ ∧ sunk σ' = sunk σ) ∨
  (∃ a σ4,
     test_dns_query cfg t σ
       = bind (baseline_diff (t_name t) (t_query_name t) a) (λ _, ret tt) σ4 ∧
     (∀ p, fs σ !! p = None → is_Some (fs σ4 !! p) → is_report_name p) ∧
     (∀ p x, fs σ !! p = Some x → fs σ4 !! p = Some x) ∧
     ∃ new, sunk σ4 = sunk σ ++ new ∧
            ∀ d, d ∈ new → ∃ p, fs σ !! p = None ∧ fs σ4 !! p = Some (FText d)).
Proof.
  intros Hlns Hlqt. unfold test_dns_query.
  destruct (resolve_nameservers_spec cfg _ σ Hlns) as (r & new & raw & H1 & Hnew & Hok).
  rewrite (bind_result _ _ _ _ _ H1).
  destruct r as [li|e]; [|left; by eexists _, _].
  destruct (Hok _ eq_refl) as (-> & _).
  rewrite (bind_result _ _ _ _ _ (init_answers_spec _ _ _)).
  set (σ2 := with_heap _ _).
  destruct (fan_out cfg (t_query_name t) (default (PStr "udp") (t_query_protocol t))
              (t_query_types t) (length (heap σ))
              (initial_answers (t_nameservers t) (length (heap σ))) σ2)
    as [[a|e3] σ3] eqn:H3; rewrite (bind_result _ _ _ _ _ H3).
  2:{ left. eexists _, _. split; [done|].
      rewrite fan_out_unfold in H3.
      apply outer_frame in H3 as (_ & -> & -> & _); [done|].
      subst σ2. simpl_state. rewrite !length_alter, length_app. simpl. lia. }
  destruct (collect_ready cfg t σ _ _ a σ3 Hlns Hlqt H1 H3) as (Hsorted & Hkeys & _).
  destruct (collect_spec cfg t σ _ _ a σ3 Hlns Hlqt H1 H3)
    as (resolved & new' & ext & _ & _ & _ & _ & _ & Hfs3 & Hsunk3 & _).
  destruct (consistency_check_spec (t_query_name t) a _ (length (heap σ)) (heap σ3)
              Hsorted Hkeys (t_query_types t) σ3 eq_refl eq_refl)
    as (σ4 & H4 & _).
  rewrite (bind_result _ _ _ _ _ H4).
  right. exists a, σ4. split; [done|]. rewrite <-Hfs3, <-Hsunk3.
  apply (consistency_check_reports_only _ _ _ _ _ _ _ H4).
Qed.

(** X24. Whatever the outcome of a test, the files it leaves differ from
    the files it found only by what is its own: every file that is neither
    the baseline of the test nor one of its archives is still there with its
    content, and every new file is the baseline, an archive of it or a
    report. *)
Theorem test_keeps_foreign_files (cfg : config) (t : test) (σ σ' : state)
    (r : res unit) :
  t_nameservers t < length (heap σ) →
  t_query_types t < length (heap σ) →
  test_dns_query cfg t σ = (r, σ') →
  (∀ p x, fs σ !! p = Some x → ¬ own_file (t_name t) p → fs σ' !! p = Some x) ∧
  (∀ p, fs σ !! p = None → is_Some (fs σ' !! p) →
        own_file (t_name t) p ∨ is_report_name p).
Proof.
  intros Hlns Hlqt Hrun.
  destruct (test_files_before_baseline cfg t σ Hlns Hlqt)
    as [(e & σ1 & He & Hfs & _)|(a & σ4 & Heq & Hnew & Hkept & _)].
  { rewrite Hrun in He. injection He as -> ->. rewrite Hfs. split; [done|].
    intros p Hp Hp'. rewrite Hp in Hp'. by destruct Hp'. }
  rewrite Hrun in Heq. symmetry in Heq.
  destruct (baseline_diff (t_name t) (t_query_name t) a σ4) as [r5 σ5] eqn:H5.
  rewrite (bind_result _ _ _ _ _ H5) in Heq.
  assert (σ' = σ5) as -> by (destruct r5; by injection Heq as _ <-).
  apply baseline_diff_files in H5 as [Hkept5 Hnew5]. split.
  - intros p x Hp Hown. apply Hkept5; [|done]. by apply Hkept.
  - intros p Hp Hp'. destruct (fs σ4 !! p) as [y|] eqn:Hp4.
    + right. apply Hnew; [done|by rewrite Hp4].
    + by apply Hnew5.
Qed.

(** X25. Every report that a test hands to [store_report], from the
    consistency check or from the baseline step, is in the working directory
    when the test ends, whatever its outcome: in a file of its own with a
    report name, which was not there before the test. *)
Theorem test_reports_are_on_disk (cfg : config) (t : test) (σ σ' : state)
    (r : res unit) :
  t_nameservers t < length (heap σ) →
  t_query_types t < length (heap σ) →
  test_dns_query cfg t σ = (r, σ') →
  ∃ new, sunk σ' = sunk σ ++ new ∧
         ∀ d, d ∈ new → ∃ p, is_report_name p ∧ fs σ !! p = None
                             ∧ fs σ' !! p = Some (FText d).
Proof.
  intros Hlns Hlqt Hrun.
  destruct (test_files_before_baseline cfg t σ Hlns Hlqt)
    as [(e & σ1 & He & _ & Hsunk)|(a & σ4 & Heq & Hnew & Hkept & new4 & Hs4 & Hd4)].
  { rewrite Hrun in He. injection He as -> ->. exists []. rewrite app_nil_r.
    split; [done|]. intros d Hd. by apply elem_of_nil in Hd. }
  rewrite Hrun in Heq. symmetry in Heq.
  destruct (baseline_diff (t_name t) (t_query_name t) a σ4) as [r5 σ5] eqn:H5.
  rewrite (bind_result _ _ _ _ _ H5) in Heq.
  assert (σ' = σ5) as -> by (destruct r5; by injection Heq as _ <-).
  destruct (baseline_diff_reports _ _ _ _ _ _ H5) as (new5 & Hs5 & Hd5).
  apply baseline_diff_files in H5 as [Hkept5 _].
  exists (new4 ++ new5). split; [by rewrite Hs5, Hs4, (assoc_L (++))|].
  intros d [Hd|Hd]%elem_of_app.
  - destruct (Hd4 _ Hd) as (p & Hp & Hp').
    assert (is_report_name p) as Hname by (apply Hnew; [done|by rewrite Hp']).
    exists p. split_and!; [done..|]. apply Hkept5; [done|].
    intros [->|[stamp ->]].
    + by eapply report_name_not_stored.
    + by eapply report_name_not_archive.
  - destruct (Hd5 _ Hd) as (p & Hname & Hp & Hp'). exists p. split_and!; [done| |done].
    destruct (fs σ !! p) eqn:Hp0; [|done]. apply Hkept in Hp0. congruence.
Qed.

(** X26. The first run of a test, one that finds no baseline, makes no
    archive and changes no file when it completes: afterwards the baseline
    is there, every file that was there is as it was, and every other new
    file is a report of the consistency check. *)
Theorem first_run_makes_no_archive (cfg : config) (t : test) (σ σ' : state) :
  t_nameservers t < length (heap σ) →
  t_query_types t < length (heap σ) →
  fs σ !! stored_fname (t_name t) = None →
  test_dns_query cfg t σ = (Ok tt, σ') →
  is_Some (fs σ' !! stored_fname (t_name t)) ∧
  (∀ p x, fs σ !! p = Some x → fs σ' !! p = Some x) ∧
  (∀ p, fs σ !! p = None → is_Some (fs σ' !! p) →
        p = stored_fname (t_name t) ∨ is_report_name p).
Proof.
  intros Hlns Hlqt Hfs Hrun.
  destruct (test_files_before_baseline cfg t σ Hlns Hlqt)
    as [(e & σ1 & He & _)|(a & σ4 & Heq & Hnew & Hkept & _)].
  { by rewrite Hrun in He. }
  rewrite Hrun in Heq. symmetry in Heq.
  assert (fs σ4 !! stored_fname (t_name t) = None) as Hfs4.
  { apply eq_None_not_Some. intros Hsome.
    by eapply (report_name_not_stored _ (t_name t)); [apply Hnew|]. }
  rewrite (bind_result _ _ _ _ _ (baseline_diff_absent _ _ _ σ4 Hfs4)) in Heq.
  injection Heq as <-. simpl. split_and!.
  - by rewrite lookup_insert_eq.
  - intros p x Hp. rewrite lookup_insert_ne by congruence. by apply Hkept.
  - intros p Hp Hp'. destruct (decide (p = stored_fname (t_name t))) as [->|Hne];
      [by left|right].
    rewrite lookup_insert_ne in Hp' by done. by apply Hnew.
Qed.


(** ** The fan-out: what a pair holds *)

(** X27. Let the fan-out meet no exception other than protocol errors.
    Then it completes, and a pair of a record type and an address whose last
    request was answered holds, in the snapshot, one string for each record
    of the answer section of that response, in its order: the text of the
    record's type, a space, the text of the record. *)
Theorem fan_out_records_answer (cfg : config) (query_name : string)
    (q_proto : pyval) (query_types nameservers_ips : nat) (answers : answers_dict)
    (σ : state) (qb : list string) (qt : string) (qa ib : list string) (ip : string)
    (ia : list string) (r : response) :
  let qts := deref (heap σ) query_types in
  let ips := deref (heap σ) nameservers_ips in
  nameservers_ips < length (heap σ) →
  qts = qb ++ qt :: qa → qt ∉ qa →
  ips = ib ++ ip :: ia → ip ∉ ia →
  tested_resolver cfg ≠ None →
  (∀ q, q ∈ qts → make_query_ok (fan_out_message cfg query_name q) = true) →
  (∀ j q a, list_prod qts ips !! j = Some (q, a) →
     network (length (sends σ) + j) (fan_out_request cfg query_name q_proto q a)
     ≠ RaisesOther) →
  network (length (sends σ) + length qb * length ips + length ib)
    (fan_out_request cfg query_name q_proto qt ip) = Answered r →
  ∃ answers' σ',
    fan_out cfg query_name q_proto query_types nameservers_ips answers σ
      = (Ok answers', σ') ∧
    ∃ d, snapshot_of (heap σ') answers' !! qt = Some d ∧
         d !! ip = Some ((λ rr, rdatatype_to_text (rdtype rr) +:+ " " +:+ to_text rr)
                           <$> concat (answer r)).
Proof.
  intros qts ips Hli Hqts Hqa Hips Hia Htr Hok Hnet Hans.
  destruct (outer_regular cfg query_name q_proto nameservers_ips qts answers σ)
    as (answers' & σ' & Hrun); try done.
  exists answers', σ'. rewrite fan_out_unfold. fold qts. split; [done|].
  rewrite Hqts in Hrun, Hok.
  destruct (outer_last cfg query_name q_proto nameservers_ips
              qb qt qa ib ip ia answers σ answers' σ' (rrinfos r)
              Hli Hips Hqa Hia Hok Hrun)
    as (d & l & Hd & Hl & Hc).
  { unfold pair_outcome. destruct (tested_resolver cfg); [|done].
    rewrite Hok by list_mem. fold ips in Hips. rewrite <-Hips. by rewrite Hans. }
  exists (deref (heap σ') <$> d). unfold snapshot_of.
  rewrite lookup_fmap, Hd. split; [done|].
  rewrite lookup_fmap, Hl. simpl. unfold deref. by rewrite Hc.
Qed.

Lemma extend_nil σ : extend σ [] [] = σ.
Proof. destruct σ. unfold extend. simpl. by rewrite !app_nil_r. Qed.

Lemma extend_extend σ s1 e1 s2 e2 :
  extend (extend σ s1 e1) s2 e2 = extend σ (s1 ++ s2) (e1 ++ e2).
Proof. unfold extend. simpl. by rewrite <-!(assoc_L (++)). Qed.

(** A record type that [make_query] rejects: a pass that completes (the
    rejection was a [DNSException], then) has sent nothing and made an empty
    list for each address. *)
Lemma inner_rejected cfg query_name q_proto query_type :
  ∀ ips (answers : answers_dict) d σ a' σ',
  answers !! query_type = Some d →
  tested_resolver cfg ≠ None →
  make_query_ok (fan_out_message cfg query_name query_type) = false →
  for_fold (query_one cfg query_name q_proto query_type) ips answers σ = (Ok a', σ') →
  σ' = extend σ [] (replicate (length ips) []).
Proof.
  induction ips as [|ip ips IH]; intros answers d σ a' σ' Hd Htr Hq; simpl.
  { intros [= _ <-]. by rewrite extend_nil. }
  unfold bind at 1. rewrite (query_one_eq _ _ _ _ _ _ _ _ Hd).
  unfold pair_outcome. destruct (tested_resolver cfg) as [tr|] eqn:Htr'; [|done].
  rewrite Hq. destruct (make_query_error _); try done. simpl.
  intros H. eapply IH in H; [|apply lookup_insert_eq|done|done].
  by rewrite H, extend_extend.
Qed.

Lemma fan_out_requests_other cfg query_name q_proto ips qt qts :
  make_query_ok (fan_out_message cfg query_name qt) = false →
  Forall (λ rq, m_rdtype (rq_message rq) ≠ RdText qt)
    (flat_map (fan_out_requests cfg query_name q_proto ips) qts).
Proof.
  intros Hq. induction qts as [|q qts IH]; simpl; [constructor|].
  apply Forall_app. split; [|done].
  unfold fan_out_requests.
  destruct (make_query_ok (fan_out_message cfg query_name q)) eqn:Hok; [|constructor].
  apply Forall_fmap, Forall_forall. intros a _. simpl. intros [= ->]. congruence.
Qed.

(** X28. A record type that [make_query] rejects with a [DNSException] (a
    name that is no record type, say) is not an error of the test: when the
    fan-out completes, no request has been sent for that type, and the
    snapshot holds for it the empty list under every address.  (A rejection
    by another exception does not let the fan-out complete when there are
    addresses.) *)
Theorem fan_out_rejected_type (cfg : config) (query_name : string)
    (q_proto : pyval) (query_types nameservers_ips : nat)
    (answers answers' : answers_dict) (σ σ' : state) (qb : list string) (qt : string)
    (qa : list string) :
  let ips := deref (heap σ) nameservers_ips in
  nameservers_ips < length (heap σ) →
  deref (heap σ) query_types = qb ++ qt :: qa → qt ∉ qa →
  tested_resolver cfg ≠ None →
  make_query_ok (fan_out_message cfg query_name qt) = false →
  fan_out cfg query_name q_proto query_types nameservers_ips answers σ
    = (Ok answers', σ') →
  (∃ new, sends σ' = sends σ ++ new ∧
          Forall (λ rq, m_rdtype (rq_message rq) ≠ RdText qt) new) ∧
  ∃ d, snapshot_of (heap σ') answers' !! qt = Some d ∧
       ∀ ip, ip ∈ ips → d !! ip = Some [].
Proof.
  intros ips Hli Hqts Hqa Htr Hq Hrun. rewrite fan_out_unfold in Hrun. split.
  { eexists. split; [by eapply outer_sends|]. by apply fan_out_requests_other. }
  rewrite Hqts, for_fold_app in Hrun.
  apply bind_ok_inv in Hrun as (a1 & σ1 & H1 & H2).
  pose proof (outer_frame _ _ _ _ _ _ _ _ _ Hli H1) as (_ & _ & _ & ext1 & Hh1 & _).
  simpl in H2. apply bind_ok_inv in H2 as (a2 & σ2 & H2 & H3).
  unfold outer_body in H2. rewrite bind_read in H2.
  rewrite Hh1, deref_app in H2 by done. fold ips in H2.
  pose proof (inner_rejected _ _ _ _ _ _ _ _ _ _ (lookup_insert_eq _ _ _) Htr Hq H2)
    as ->.
  pose proof (inner_frame _ _ _ _ _ _ _ _ _ _ (lookup_insert_eq _ _ _) H2)
    as (_ & _ & _ & ext2 & _ & Ha2).
  destruct (Ha2 _ eq_refl) as (_ & d' & -> & _ & Hin).
  assert (nameservers_ips < length (heap (extend σ1 [] (replicate (length ips) []))))
    as Hli2 by (simpl; rewrite Hh1, !length_app; lia).
  pose proof (outer_frame _ _ _ _ _ _ _ _ _ Hli2 H3) as (_ & _ & _ & ext3 & Hh3 & Ha3).
  destruct (Ha3 _ eq_refl) as (Hother & _).
  exists (deref (heap σ') <$> d'). unfold snapshot_of.
  rewrite lookup_fmap, Hother, lookup_insert_eq by done. split; [done|].
  intros ip Hip. destruct (Hin _ Hip) as (l & Hl & Hrange).
  rewrite lookup_fmap, Hl. simpl. f_equal.
  unfold deref. rewrite Hh3. simpl.
  rewrite lookup_app_l by (rewrite length_app, length_replicate; lia).
  rewrite lookup_app_r by lia.
  rewrite lookup_replicate_2; [done|lia].
Qed.

(** ** The probe and what follows it *)

Lemma names_root_server_iff r :
  names_root_server r = true ↔
  ∃ rr, rr ∈ concat (answer r) ∧ rdtype rr = rdatatype_NS
        ∧ to_text rr ∈ valid_answers.
Proof.
  unfold names_root_server. rewrite existsb_exists. split.
  - intros (rrset & Hrrset & (rr & Hrr & Hok)%existsb_exists).
    apply andb_true_iff in Hok as [Hty Htext].
    exists rr. split_and!.
    + apply list_elem_of_In, in_concat. eauto.
    + by apply N.eqb_eq.
    + by apply bool_decide_eq_true in Htext.
  - intros (rr & Hin & Hty & Htext).
    apply list_elem_of_In, in_concat in Hin as (rrset & Hrrset & Hrr).
    exists rrset. split; [done|]. apply existsb_exists. exists rr. split; [done|].
    apply andb_true_iff. split; [by apply N.eqb_eq|by apply bool_decide_eq_true].
Qed.

(** X29. A probe that is answered says yes exactly when the answer section
    of the response holds a record of type NS whose text is one of the
    thirteen root server names; records of another type and other names do
    not count. *)
Theorem probe_healthy_iff (resolver : gmap string pyval) (ty ip : pyval)
    (r : response) (σ : state) :
  make_query_ok probe_message = true →
  resolver !! "type" = Some ty →
  resolver !! "ip" = Some ip →
  network (length (sends σ)) (probe_request ty ip) = Answered r →
  ∃ b,
    test_resolver resolver σ
      = (Ok b, with_sends (λ s, s ++ [probe_request ty ip]) σ) ∧
    (b = true ↔
     ∃ rr, rr ∈ concat (answer r) ∧ rdtype rr = rdatatype_NS
           ∧ to_text rr ∈ valid_answers).
Proof.
  intros Hq Hty Hip Hnet. exists (names_root_server r). split.
  - unfold test_resolver, try_dns, bind, make_query, getitem, dns_query, ret.
    fold probe_message. rewrite Hq, Hty, Hip. fold (probe_request ty ip).
    by rewrite Hnet.
  - apply names_root_server_iff.
Qed.

(** X30. When the probe of the first resolver says yes, [main] runs the
    tests with that resolver, from the state the probe left: the later
    entries of the list of resolvers are neither probed nor used. *)
Theorem main_uses_first_resolver (cfg : config) (dns : list dns_entry)
    (first : gmap string pyval) (later : list (gmap string pyval)) (σ σ1 : state) :
  resolvers cfg = first :: later →
  test_resolver first σ = (Ok true, σ1) →
  main cfg dns σ = run (Config (first :: later) (Some first)) dns σ1.
Proof.
  intros Hrs Hprobe. unfold main, test_all_resolvers, bind. rewrite Hrs. simpl.
  rewrite Hprobe. simpl.
  by rewrite (test_resolver_healthy_truthy first σ) by (by rewrite Hprobe).
Qed.

End Dnsdiag.

(** * The statements at work *)

(** Decidable side conditions on concrete data. *)
Ltac by_computation := apply (bool_decide_unpack _); vm_compute; exact I.

(** The run of the demo test in a world. *)
Abbreviation demo_run network :=
  (test_dns_query demo_make_query_ok demo_make_query_error
      network demo_strftime demo_rdatatype_to_text
     demo_py_repr demo_cfg demo_test demo_state).

(** The same from a working directory that is not empty. *)
Abbreviation furnished_run network :=
  (test_dns_query demo_make_query_ok demo_make_query_error network demo_strftime
     demo_rdatatype_to_text demo_py_repr demo_cfg demo_test furnished_state).

(** C4: with DNSSEC on and a dead network, the tenth failure is followed by
    the [UnboundLocalError]. *)
Lemma name2ip_all_protocol_errors_witness :
  name2ip demo_make_query_ok demo_make_query_error
      dead_network dnssec_cfg "ns1.example.test" demo_state
  = (Raise (UnboundLocalError "response"),
     with_sends
       (λ s, s ++ replicate 10
          (Request UDP (PStr "203.0.113.1")
             (Message "ns1.example.test" (RdCode rdatatype_A) (PBool true))))
       demo_state).
Proof.
  apply (name2ip_all_protocol_errors demo_make_query_ok demo_make_query_error
      dead_network dnssec_cfg
           (<["dnssec" := PBool true]> demo_resolver) "ns1.example.test"
           (PStr "udp") (PStr "203.0.113.1")
           eq_refl eq_refl eq_refl eq_refl demo_state).
  intros i Hi. reflexivity.
Defined.

(** C10: with DNSSEC on, one protocol error and then an empty answer that
    carries an EDNS option: two requests, and the [AttributeError] of line
    135 in place of the error of line 137. *)
Lemma name2ip_empty_answer_no_retry_witness :
  name2ip demo_make_query_ok demo_make_query_error edns_network dnssec_cfg
    "ns1.example.test" demo_state
  = (Raise AttributeError,
     with_sends
       (λ s, s ++ replicate 2
          (Request UDP (PStr "203.0.113.1")
             (Message "ns1.example.test" (RdCode rdatatype_A) (PBool true))))
       demo_state).
Proof.
  apply (name2ip_empty_answer_no_retry demo_make_query_ok demo_make_query_error
           edns_network dnssec_cfg
           (<["dnssec" := PBool true]> demo_resolver) "ns1.example.test"
           (PStr "udp") (PStr "203.0.113.1")
           eq_refl eq_refl eq_refl eq_refl 1 (Response [] ["NSID"]) demo_state).
  - lia.
  - intros i Hi. assert (i = 0) as -> by lia. reflexivity.
  - reflexivity.
  - reflexivity.
Defined.

(** C5: the first run of a test. *)
Lemma baseline_first_run_witness :
  baseline_diff demo_strftime demo_py_repr "t1" "example.test" answered_answers
    disagreeing_state
  = (Ok false,
     with_fs
       <[stored_fname "t1" :=
           FJson (snapshot_of (heap disagreeing_state) answered_answers)]>
       disagreeing_state).
Proof.
  apply (baseline_first_run demo_strftime demo_py_repr "t1" "example.test"
           answered_answers disagreeing_state).
  reflexivity.
Defined.

(** C7: the stored baseline has sorted lists, the current answers have not
    been sorted, so they differ. *)
Lemma baseline_drift_archives_witness :
  ∃ t σ',
    let old := FJson {[ "A" := {[ "198.51.100.1" := ["A a"; "A b"];
                                  "198.51.100.2" := ["A a"; "A b"] ]};
                        "nameservers" := {[ "names" := ["ns1.example.test"] ]};
                        "nameservers_ips" :=
                          {[ "ips" := ["198.51.100.1"; "198.51.100.2"] ]} ]} in
    let archive := archive_fname "t1" (demo_strftime "%Y%m%d-%H%M%S" t) in
    baseline_diff demo_strftime demo_py_repr "t1" "example.test" answered_answers
      answered_state = (Ok true, σ') ∧
    archive ≠ stored_fname "t1" ∧
    fs σ' !! archive = Some old ∧
    fs σ' !! stored_fname "t1"
      = Some (FJson (snapshot_of (heap answered_state) answered_answers)) ∧
    (∀ p d, fs answered_state !! p = Some d → p ≠ stored_fname "t1" → p ≠ archive →
            fs σ' !! p = Some d).
Proof.
  apply (baseline_drift_archives demo_strftime demo_py_repr "t1" "example.test"
           answered_answers _ answered_state).
  - vm_compute; reflexivity.
  - intros raw. discriminate.
  - by_computation.
Defined.

(** C3: two addresses that disagree. *)
Lemma consistency_reports_witness :
  let ips := deref (heap disagreeing_state) 2 in
  let qts := deref (heap disagreeing_state) 0 in
  let snap := snapshot_of (heap disagreeing_state) answered_answers in
  ∃ reference σ',
    let reported :=
      filter (λ p, sorted_records snap p.1 p.2 ≠ sorted_records snap p.1 reference)
        (list_prod qts ips) in
    ips !! 0 = Some reference ∧
    (∀ ip, ip ∈ ips → String.le reference ip) ∧
    consistency_check demo_strftime "example.test" 0 2 answered_answers
      disagreeing_state = (Ok tt, σ') ∧
    sunk σ' = sunk disagreeing_state ++
      (mismatch_report "example.test" snap reference <$> reported) ∧
    (NoDup qts → NoDup ips → NoDup reported).
Proof.
  apply (consistency_reports demo_strftime "example.test" answered_answers 0 2
           disagreeing_state).
  - discriminate.
  - by_computation.
  - by_computation.
Defined.

(** C6: the answers arrive in another order than the baseline has them. *)
Lemma baseline_order_independent_witness :
  ∃ σ',
    consistency_check demo_strftime "example.test" 0 2 answered_answers answered_state
      = (Ok tt, σ') ∧
    baseline_diff demo_strftime demo_py_repr "t1" "example.test" answered_answers σ'
      = (Ok false, σ').
Proof.
  apply (baseline_order_independent demo_strftime demo_py_repr "t1" "example.test"
           answered_answers 0 2
           {[ "A" := {[ "198.51.100.1" := ["A a"; "A b"];
                        "198.51.100.2" := ["A a"; "A b"] ]};
              "nameservers" := {[ "names" := ["ns1.example.test"] ]};
              "nameservers_ips" := {[ "ips" := ["198.51.100.1"; "198.51.100.2"] ]} ]}
           answered_state).
  - by_computation.
  - by_computation.
  - by_computation.
  - vm_compute; reflexivity.
  - vm_compute; reflexivity.
  - apply canon_same_up_to_order. vm_compute; reflexivity.
Defined.

(** C2: the demo test where both name servers share their address. *)
Lemma fan_out_addresses_sorted_witness :
  ∃ resolved,
    let ips := sorted_list (concat resolved) in
    let qts := deref (alter sorted_list 1 (heap demo_state)) 0 in
    resolved_by demo_make_query_ok demo_make_query_error shared_address_network demo_cfg
      (deref (heap demo_state) 1) resolved ∧
    Sorted String.le ips ∧
    ips ≡ₚ concat resolved ∧
    filter is_fan_out (sends (snd (demo_run shared_address_network))) =
      filter is_fan_out (sends demo_state) ++
      flat_map (fan_out_requests demo_make_query_ok demo_cfg "example.test"
                  (PStr "udp") ips) qts.
Proof.
  apply (fan_out_addresses_sorted demo_make_query_ok demo_make_query_error
      shared_address_network
           demo_strftime demo_rdatatype_to_text demo_py_repr demo_cfg demo_test
           demo_state (snd (demo_run shared_address_network))).
  - simpl. lia.
  - simpl. lia.
  - vm_compute; reflexivity.
Defined.

(** C8: the demo test lists its name servers in descending order. *)
Lemma test_sorts_nameservers_in_place_witness :
  heap (snd (demo_run shared_address_network)) !! 1
    = Some (sorted_list (deref (heap demo_state) 1)) ∧
  (∀ l, l < length (heap demo_state) → l ≠ 1 →
        heap (snd (demo_run shared_address_network)) !! l = heap demo_state !! l) ∧
  (0 ≠ 1 → deref (heap (snd (demo_run shared_address_network))) 0
           = deref (heap demo_state) 0).
Proof.
  apply (test_sorts_nameservers_in_place demo_make_query_ok demo_make_query_error
      shared_address_network
           demo_strftime demo_rdatatype_to_text demo_py_repr demo_cfg demo_test
           demo_state (snd (demo_run shared_address_network))).
  - simpl. lia.
  - simpl. lia.
  - vm_compute; reflexivity.
Defined.

(** C9: the first of two addresses fails on a protocol error. *)
Lemma fan_out_absorbs_protocol_errors_witness :
  ∃ answers' σ',
    fan_out demo_make_query_ok demo_make_query_error
        recovering_network demo_rdatatype_to_text demo_cfg
      "example.test" (PStr "udp") 0 2 (initial_answers 1 2) disagreeing_state
      = (Ok answers', σ') ∧
    sends σ' = sends disagreeing_state ++
      flat_map (λ q, fan_out_request demo_cfg "example.test" (PStr "udp") q <$>
                     deref (heap disagreeing_state) 2)
        (deref (heap disagreeing_state) 0) ∧
    ∃ d, snapshot_of (heap σ') answers' !! "A" = Some d
         ∧ d !! "198.51.100.1" = Some [].
Proof.
  apply (fan_out_absorbs_protocol_errors demo_make_query_ok demo_make_query_error
      recovering_network
           demo_rdatatype_to_text demo_cfg "example.test" (PStr "udp")
           0 2 (initial_answers 1 2) disagreeing_state
           [] "A" [] [] "198.51.100.1" ["198.51.100.2"]).
  - simpl. lia.
  - reflexivity.
  - apply not_elem_of_nil.
  - reflexivity.
  - by_computation.
  - discriminate.
  - intros q Hq. reflexivity.
  - intros j q a Hj. unfold recovering_network.
    destruct (length (sends disagreeing_state) + j =? 0)%nat; discriminate.
  - reflexivity.
Defined.

(** ** Where the specification asks for more *)

(** C2 as stated fails: both name servers resolve to 198.51.100.1, and the
    fan-out queries that address twice. *)
Lemma fan_out_queries_an_address_twice :
  fst (demo_run shared_address_network) = Ok tt ∧
  rq_where <$> filter is_fan_out (sends (snd (demo_run shared_address_network)))
    = [PStr "198.51.100.1"; PStr "198.51.100.1"] ∧
  ¬ NoDup (rq_where <$> filter is_fan_out
             (sends (snd (demo_run shared_address_network)))).
Proof.
  assert (rq_where <$> filter is_fan_out (sends (snd (demo_run shared_address_network)))
          = [PStr "198.51.100.1"; PStr "198.51.100.1"]) as H by (vm_compute; reflexivity).
  split_and!; [vm_compute; reflexivity|done|].
  rewrite H. intros Hnd. apply NoDup_cons in Hnd as [Hin _].
  apply Hin. by left.
Qed.

(** C3 as stated fails: 198.51.100.2 is in the fan-out list twice and
    disagrees with the reference, and the check stores two reports that name
    the record type A and that address. *)
Lemma address_reported_twice :
  fst (demo_run overlapping_network) = Ok tt ∧
  sunk (snd (demo_run overlapping_network))
    = [ inconsistency_report "example.test" "A" "198.51.100.2" "198.51.100.1"
          ["A 198.51.100.9"] ["A 198.51.100.8"];
        inconsistency_report "example.test" "A" "198.51.100.2" "198.51.100.1"
          ["A 198.51.100.9"] ["A 198.51.100.8"] ].
Proof. split; vm_compute; reflexivity. Qed.

(** C8 as stated fails: the list [nameservers] of the test is not what it
    was before the run. *)
Lemma nameservers_list_changed :
  fst (demo_run shared_address_network) = Ok tt ∧
  deref (heap demo_state) (t_nameservers demo_test)
    = ["ns2.example.test"; "ns1.example.test"] ∧
  deref (heap (snd (demo_run shared_address_network))) (t_nameservers demo_test)
    = ["ns1.example.test"; "ns2.example.test"] ∧
  deref (heap (snd (demo_run shared_address_network))) (t_nameservers demo_test)
    ≠ deref (heap demo_state) (t_nameservers demo_test).
Proof.
  assert (deref (heap (snd (demo_run shared_address_network))) (t_nameservers demo_test)
          = ["ns1.example.test"; "ns2.example.test"]) as H by (vm_compute; reflexivity).
  split_and!; [vm_compute; reflexivity|done|done|]. rewrite H. discriminate.
Qed.

(** C9 as stated fails: the first request for the pair of A and
    198.51.100.1 ends in a protocol error, the test completes, and the list
    of that pair in the stored snapshot is not empty, because the address is
    in the fan-out list a second time. *)
Lemma failed_pair_not_left_empty :
  fst (demo_run flaky_network) = Ok tt ∧
  sends (snd (demo_run flaky_network)) !! 2
    = Some (fan_out_request demo_cfg "example.test" (PStr "udp") "A" "198.51.100.1") ∧
  flaky_network 2
    (fan_out_request demo_cfg "example.test" (PStr "udp") "A" "198.51.100.1")
    = RaisesDNS ∧
  stored_records (snd (demo_run flaky_network)) "t1" "A" "198.51.100.1"
    = Some ["A 198.51.100.9"].
Proof. split_and!; vm_compute; reflexivity. Qed.

(** ** The further properties at work *)

(** X1: the plain name and the name with 000 are taken, the report goes to
    the name with 001. *)
Lemma store_report_first_free_name_witness :
  store_report demo_strftime "report" crowded_state =
    (Ok tt,
     State (sends crowded_state) (ticks crowded_state + 2 + 2)
       (<[report_candidate demo_strftime (ticks crowded_state) 2 := FText "report"]>
          (fs crowded_state))
       (heap crowded_state) (sunk crowded_state ++ ["report"])).
Proof.
  apply (store_report_first_free_name demo_strftime "report" crowded_state 2).
  - intros i Hi. destruct i as [|[|i]]; [vm_compute; by eexists..|lia].
  - vm_compute; reflexivity.
Defined.

(** X5: two resolvers, the first of which answers the probe with a root
    server. *)
Lemma selected_resolver_usable_witness :
  ∃ first later ty ip r rr,
    resolvers two_resolver_cfg = first :: later ∧
    Config [demo_resolver; backup_resolver] (Some demo_resolver)
      = Config (resolvers two_resolver_cfg) (Some first) ∧
    first !! "type" = Some ty ∧ first !! "ip" = Some ip ∧
    with_sends (λ s, s ++ [probe_request (PStr "udp") (PStr "203.0.113.1")]) demo_state
      = with_sends (λ s, s ++ [probe_request ty ip]) demo_state ∧
    root_network (length (sends demo_state)) (probe_request ty ip) = Answered r ∧
    rr ∈ concat (answer r) ∧ rdtype rr = rdatatype_NS ∧ to_text rr ∈ valid_answers.
Proof.
  apply (selected_resolver_usable demo_make_query_ok demo_make_query_error root_network
           two_resolver_cfg
           (Config [demo_resolver; backup_resolver] (Some demo_resolver)) demo_state
           (with_sends (λ s, s ++ [probe_request (PStr "udp") (PStr "203.0.113.1")])
              demo_state)).
  vm_compute; reflexivity.
Defined.

(** X6: an entry with an address and no ['type'], before a complete one
    whose probe would be answered. *)
Lemma selection_missing_key_witness :
  test_all_resolvers demo_make_query_ok demo_make_query_error root_network untyped_cfg
    demo_state
  = (Raise (KeyError "type"), demo_state).
Proof.
  apply (selection_missing_key demo_make_query_ok demo_make_query_error root_network
           untyped_cfg {["ip" := PStr "203.0.113.1"]} [backup_resolver] "type"
           demo_state).
  - reflexivity.
  - reflexivity.
  - left. reflexivity.
  - vm_compute; reflexivity.
Defined.

(** X7: one protocol error, then an answer with one address. *)
Lemma name2ip_returns_a_records_witness :
  name2ip demo_make_query_ok demo_make_query_error
      recovering_network demo_cfg "ns1.example.test" demo_state
  = (Ok (a_records (a_answer ["198.51.100.9"])),
     with_sends
       (λ s, s ++ replicate 2
          (Request UDP (PStr "203.0.113.1")
             (Message "ns1.example.test" (RdCode rdatatype_A) (PBool false))))
       demo_state).
Proof.
  apply (name2ip_returns_a_records demo_make_query_ok demo_make_query_error
      recovering_network demo_cfg
           demo_resolver "ns1.example.test" (PStr "udp") (PStr "203.0.113.1")
           eq_refl eq_refl eq_refl eq_refl 1 (a_answer ["198.51.100.9"]) demo_state).
  - lia.
  - intros i Hi. assert (i = 0) as -> by lia. reflexivity.
  - reflexivity.
  - vm_compute. discriminate.
Defined.

(** X8: one protocol error, then an error of the socket layer. *)
Lemma name2ip_other_error_no_retry_witness :
  name2ip demo_make_query_ok demo_make_query_error
      broken_network demo_cfg "ns1.example.test" demo_state
  = (Raise (NoARecordFound "ns1.example.test" (PStr "203.0.113.1")),
     with_sends
       (λ s, s ++ replicate 2
          (Request UDP (PStr "203.0.113.1")
             (Message "ns1.example.test" (RdCode rdatatype_A) (PBool false))))
       demo_state).
Proof.
  apply (name2ip_other_error_no_retry demo_make_query_ok demo_make_query_error
      broken_network demo_cfg
           demo_resolver "ns1.example.test" (PStr "udp") (PStr "203.0.113.1")
           eq_refl eq_refl eq_refl eq_refl 1 demo_state).
  - lia.
  - intros i Hi. assert (i = 0) as -> by lia. reflexivity.
  - reflexivity.
Defined.

(** X9: a name with an empty label. *)
Lemma name2ip_rejected_name_witness :
  name2ip picky_make_query_ok demo_make_query_error
      shared_address_network demo_cfg "ns1..example.test"
    demo_state
  = (Raise (NoARecordFound "ns1..example.test" (PStr "203.0.113.1")), demo_state).
Proof.
  apply (name2ip_rejected_name picky_make_query_ok demo_make_query_error
      shared_address_network demo_cfg
           demo_resolver "ns1..example.test" (PStr "203.0.113.1") demo_state).
  - reflexivity.
  - reflexivity.
  - vm_compute; reflexivity.
Defined.

(** X10: a configuration in which no resolver has been selected. *)
Lemma name2ip_without_resolver_witness :
  name2ip demo_make_query_ok demo_make_query_error
      shared_address_network (Config [demo_resolver] None)
    "ns1.example.test" demo_state
  = (Raise (UnboundLocalError "dnssec_opt"), demo_state).
Proof.
  apply (name2ip_without_resolver demo_make_query_ok demo_make_query_error
      shared_address_network
           (Config [demo_resolver] None) "ns1.example.test" demo_state).
  reflexivity.
Defined.

(** X12: a lookup that returns. *)
Lemma name2ip_result_nonempty_witness :
  ["198.51.100.1"] ≠ [] ∧
  length (sends demo_state)
  < length (sends (snd (name2ip demo_make_query_ok demo_make_query_error
      shared_address_network demo_cfg
                          "ns1.example.test" demo_state))).
Proof.
  apply (name2ip_result_nonempty demo_make_query_ok demo_make_query_error
      shared_address_network demo_cfg
           "ns1.example.test" demo_state).
  vm_compute; reflexivity.
Defined.

(** X13: no name server can be looked up. *)
Lemma resolution_failure_aborts_test_witness :
  let e := NoARecordFound "ns2.example.test" (PStr "203.0.113.1") in
  let σ1 := snd (resolve_nameservers demo_make_query_ok demo_make_query_error
      dead_network demo_cfg
                   (t_nameservers demo_test) demo_state) in
  demo_run dead_network = (Raise e, σ1) ∧
  (∃ ns σa σb, ns ∈ deref (heap demo_state) (t_nameservers demo_test) ∧
               name2ip demo_make_query_ok demo_make_query_error
                   dead_network demo_cfg ns σa = (Raise e, σb)) ∧
  filter is_fan_out (sends σ1) = filter is_fan_out (sends demo_state) ∧
  fs σ1 = fs demo_state ∧ sunk σ1 = sunk demo_state ∧
  (∀ l, l < length (heap demo_state) → heap σ1 !! l = heap demo_state !! l).
Proof.
  apply (resolution_failure_aborts_test demo_make_query_ok demo_make_query_error
      dead_network demo_strftime
           demo_rdatatype_to_text demo_py_repr demo_cfg demo_test demo_state).
  - simpl. lia.
  - vm_compute; reflexivity.
Defined.

(** X14: a test without name servers. *)
Lemma test_without_nameservers_witness :
  ∃ σ' snap,
    test_dns_query demo_make_query_ok demo_make_query_error shared_address_network demo_strftime
      demo_rdatatype_to_text demo_py_repr demo_cfg demo_test idle_state = (Ok tt, σ') ∧
    sends σ' = sends idle_state ∧ sunk σ' = sunk idle_state ∧
    heap σ' = heap idle_state ++ [[]] ∧
    fs σ' = <[stored_fname (t_name demo_test) := FJson snap]> (fs idle_state) ∧
    (∀ qt, qt ∈ deref (heap idle_state) (t_query_types demo_test) → snap !! qt = Some ∅).
Proof.
  apply (test_without_nameservers demo_make_query_ok demo_make_query_error
      shared_address_network
           demo_strftime demo_rdatatype_to_text demo_py_repr demo_cfg demo_test
           idle_state).
  - simpl. lia.
  - simpl. lia.
  - reflexivity.
  - reflexivity.
Defined.

(** X15: after a drift has been recorded, nothing is left to do. *)
Lemma baseline_diff_settles_witness :
  baseline_diff demo_strftime demo_py_repr "t1" "example.test" answered_answers
    (snd (baseline_diff demo_strftime demo_py_repr "t1" "example.test"
            answered_answers answered_state))
  = (Ok false,
     snd (baseline_diff demo_strftime demo_py_repr "t1" "example.test"
            answered_answers answered_state)).
Proof.
  apply (baseline_diff_settles demo_strftime demo_py_repr "t1" "example.test"
           answered_answers answered_state _ true).
  vm_compute; reflexivity.
Defined.

(** X16: the baseline of the demo test. *)
Lemma completed_test_baseline_sorted_witness :
  ∃ snap,
    fs (snd (demo_run shared_address_network)) !! stored_fname (t_name demo_test)
      = Some (FJson snap) ∧
    ∀ k d key l, snap !! k = Some d → d !! key = Some l → Sorted String.le l.
Proof.
  apply (completed_test_baseline_sorted demo_make_query_ok demo_make_query_error
      shared_address_network
           demo_strftime demo_rdatatype_to_text demo_py_repr demo_cfg demo_test
           demo_state).
  - simpl. lia.
  - simpl. lia.
  - vm_compute; reflexivity.
Defined.

(** X17: the query to the second of three addresses fails in the socket
    layer; the third address gets no query. *)
Lemma fan_out_other_error_aborts_witness :
  ∃ σ',
    fan_out demo_make_query_ok demo_make_query_error socket_error_network
      demo_rdatatype_to_text demo_cfg
      "example.test" (PStr "udp") 0 2 (initial_answers 1 2) three_address_state
      = (Raise OSError, σ') ∧
    sends σ' = sends three_address_state ++
      flat_map (λ q, fan_out_request demo_cfg "example.test" (PStr "udp") q <$>
                     deref (heap three_address_state) 2) [] ++
      (fan_out_request demo_cfg "example.test" (PStr "udp") "A" <$>
         (["198.51.100.1"] ++ ["198.51.100.2"])) ∧
    fs σ' = fs three_address_state ∧ sunk σ' = sunk three_address_state.
Proof.
  apply (fan_out_other_error_aborts demo_make_query_ok demo_make_query_error
           socket_error_network
           demo_rdatatype_to_text demo_cfg "example.test" (PStr "udp")
           0 2 (initial_answers 1 2) three_address_state
           [] "A" [] ["198.51.100.1"] "198.51.100.2" ["198.51.100.3"]).
  - simpl. lia.
  - reflexivity.
  - reflexivity.
  - discriminate.
  - intros q Hq. reflexivity.
  - intros j q a Hj. simpl in Hj. by rewrite lookup_nil in Hj.
  - intros j a Hj. destruct j as [|j]; [discriminate|].
    simpl in Hj. by rewrite lookup_nil in Hj.
  - reflexivity.
Defined.

(** X18: a test that asks for the record type TYPE65536 fails in the third
    way, on the [ValueError] of [make_query]. *)
Lemma test_failure_modes_witness :
  let run_test :=
    test_dns_query ranged_make_query_ok ranged_make_query_error shared_address_network
      demo_strftime demo_rdatatype_to_text demo_py_repr demo_cfg demo_test
      out_of_range_state in
  fst run_test = Raise ValueError ∧
  ((∃ ns σa σb, ns ∈ deref (heap out_of_range_state) (t_nameservers demo_test) ∧
                name2ip ranged_make_query_ok ranged_make_query_error
                  shared_address_network demo_cfg ns σa = (Raise ValueError, σb)) ∨
   (ValueError = OSError ∧
    ∃ n qt ip,
      shared_address_network n
        (fan_out_request demo_cfg (t_query_name demo_test)
           (default (PStr "udp") (t_query_protocol demo_test)) qt ip)
      = RaisesOther) ∨
   (ValueError ≠ DNSException ∧
    ∃ qt, ranged_make_query_ok
            (fan_out_message demo_cfg (t_query_name demo_test) qt) = false ∧
          ranged_make_query_error
            (fan_out_message demo_cfg (t_query_name demo_test) qt) = ValueError) ∨
   (ValueError = JSONDecodeError ∧
    ∃ raw, fs out_of_range_state !! stored_fname (t_name demo_test)
           = Some (FText raw))).
Proof.
  split; [vm_compute; reflexivity|].
  apply (test_failure_modes ranged_make_query_ok ranged_make_query_error
           shared_address_network demo_strftime
           demo_rdatatype_to_text demo_py_repr demo_cfg demo_test out_of_range_state
           (snd (test_dns_query ranged_make_query_ok ranged_make_query_error
                   shared_address_network demo_strftime demo_rdatatype_to_text
                   demo_py_repr demo_cfg demo_test out_of_range_state))).
  - simpl. lia.
  - simpl. lia.
  - vm_compute; reflexivity.
Defined.

(** X19: an entry of another type before the demo test. *)
Lemma run_skips_other_types_witness :
  run demo_make_query_ok demo_make_query_error
      shared_address_network demo_strftime demo_rdatatype_to_text
    demo_py_repr demo_cfg [zone_entry; query_entry] demo_state
  = run demo_make_query_ok demo_make_query_error
      shared_address_network demo_strftime demo_rdatatype_to_text
      demo_py_repr demo_cfg
      (filter (λ e, e_type e = Some (PStr "query")) [zone_entry; query_entry])
      demo_state.
Proof.
  apply (run_skips_other_types demo_make_query_ok demo_make_query_error
      shared_address_network demo_strftime
           demo_rdatatype_to_text demo_py_repr demo_cfg [zone_entry; query_entry]
           demo_state).
  repeat (constructor; [by eexists|]). constructor.
Defined.

(** X20: the demo test twice on a dead network: the second one is not
    begun. *)
Lemma run_stops_at_first_failure_witness :
  run demo_make_query_ok demo_make_query_error dead_network demo_strftime demo_rdatatype_to_text
    demo_py_repr demo_cfg ([] ++ query_entry :: [query_entry]) demo_state
  = (Raise (NoARecordFound "ns2.example.test" (PStr "203.0.113.1")),
     snd (demo_run dead_network)).
Proof.
  apply (run_stops_at_first_failure demo_make_query_ok demo_make_query_error
      dead_network demo_strftime
           demo_rdatatype_to_text demo_py_repr demo_cfg [] [query_entry] query_entry
           demo_state demo_state).
  - reflexivity.
  - reflexivity.
  - vm_compute; reflexivity.
Defined.

(** X21: the only resolver does not answer the probe. *)
Lemma main_without_resolver_runs_no_test_witness :
  ∃ new,
    main demo_make_query_ok demo_make_query_error
        dead_network demo_strftime demo_rdatatype_to_text
      demo_py_repr demo_cfg [query_entry] demo_state
    = (Raise NoWorkingResolverFound, with_sends (λ s, s ++ new) demo_state) ∧
    length new ≤ 1.
Proof.
  apply (main_without_resolver_runs_no_test demo_make_query_ok demo_make_query_error
      dead_network
           demo_strftime demo_rdatatype_to_text demo_py_repr demo_cfg [query_entry]
           demo_state).
  intros first [= <-]. vm_compute; reflexivity.
Defined.

(** X22: the check of two addresses that disagree. *)
Lemma consistency_check_is_local_witness :
  let ips := deref (heap disagreeing_state) 2 in
  let qts := deref (heap disagreeing_state) 0 in
  ∃ σ',
    consistency_check demo_strftime "example.test" 0 2 answered_answers
      disagreeing_state = (Ok tt, σ') ∧
    sends σ' = sends disagreeing_state ∧
    (∀ p x, fs disagreeing_state !! p = Some x → fs σ' !! p = Some x) ∧
    (∀ p, fs disagreeing_state !! p = None → is_Some (fs σ' !! p) →
          is_report_name p) ∧
    length (heap σ') = length (heap disagreeing_state) ∧
    (∀ l, ¬ slots_of answered_answers qts l →
          heap σ' !! l = heap disagreeing_state !! l) ∧
    (∀ l, slots_of answered_answers qts l →
          heap σ' !! l = sorted_list <$> heap disagreeing_state !! l).
Proof.
  apply (consistency_check_is_local demo_strftime "example.test" answered_answers 0 2
           disagreeing_state).
  - by_computation.
  - by_computation.
Defined.

(** X23: the names with the numbers 7 and 1007. *)
Lemma numbered_names_distinct_witness :
  report_fname_seq "20260101-000000" 7 ≠ report_fname_seq "20260101-000000-00" 1007.
Proof.
  apply (numbered_names_distinct "20260101-000000" "20260101-000000-00" 7 1007).
  lia.
Defined.

(** X24: the demo test in a working directory that holds two files of
    others. *)
Lemma test_keeps_foreign_files_witness :
  fs furnished_state !! "notes.txt" = Some (FText "keep") ∧
  (∀ p x, fs furnished_state !! p = Some x → ¬ own_file (t_name demo_test) p →
          fs (snd (furnished_run overlapping_network)) !! p = Some x) ∧
  (∀ p, fs furnished_state !! p = None →
        is_Some (fs (snd (furnished_run overlapping_network)) !! p) →
        own_file (t_name demo_test) p ∨ is_report_name p).
Proof.
  split; [reflexivity|].
  apply (test_keeps_foreign_files demo_make_query_ok demo_make_query_error
           overlapping_network demo_strftime
           demo_rdatatype_to_text demo_py_repr demo_cfg demo_test furnished_state
           (snd (furnished_run overlapping_network)) (Ok tt)).
  - simpl. lia.
  - simpl. lia.
  - vm_compute; reflexivity.
Defined.

(** X25: the two reports of the demo test with overlapping addresses. *)
Lemma test_reports_are_on_disk_witness :
  ∃ new,
    sunk (snd (demo_run overlapping_network)) = sunk demo_state ++ new ∧
    ∀ d, d ∈ new →
         ∃ p, is_report_name p ∧ fs demo_state !! p = None
              ∧ fs (snd (demo_run overlapping_network)) !! p = Some (FText d).
Proof.
  apply (test_reports_are_on_disk demo_make_query_ok demo_make_query_error
      overlapping_network demo_strftime
           demo_rdatatype_to_text demo_py_repr demo_cfg demo_test demo_state
           (snd (demo_run overlapping_network)) (Ok tt)).
  - simpl. lia.
  - simpl. lia.
  - vm_compute; reflexivity.
Defined.

(** X26: the first run of the demo test in a working directory that holds
    two files of others. *)
Lemma first_run_makes_no_archive_witness :
  fs furnished_state !! "notes.txt" = Some (FText "keep") ∧
  is_Some (fs (snd (furnished_run overlapping_network))
             !! stored_fname (t_name demo_test)) ∧
  (∀ p x, fs furnished_state !! p = Some x →
          fs (snd (furnished_run overlapping_network)) !! p = Some x) ∧
  (∀ p, fs furnished_state !! p = None →
        is_Some (fs (snd (furnished_run overlapping_network)) !! p) →
        p = stored_fname (t_name demo_test) ∨ is_report_name p).
Proof.
  split; [reflexivity|].
  apply (first_run_makes_no_archive demo_make_query_ok demo_make_query_error
           overlapping_network
           demo_strftime demo_rdatatype_to_text demo_py_repr demo_cfg demo_test
           furnished_state (snd (furnished_run overlapping_network))).
  - simpl. lia.
  - simpl. lia.
  - reflexivity.
  - vm_compute; reflexivity.
Defined.

(** X27: the first address fails on a protocol error, the second one
    answers. *)
Lemma fan_out_records_answer_witness :
  ∃ answers' σ',
    fan_out demo_make_query_ok demo_make_query_error
        recovering_network demo_rdatatype_to_text demo_cfg
      "example.test" (PStr "udp") 0 2 (initial_answers 1 2) disagreeing_state
      = (Ok answers', σ') ∧
    ∃ d, snapshot_of (heap σ') answers' !! "A" = Some d ∧
         d !! "198.51.100.2"
         = Some ((λ rr, demo_rdatatype_to_text (rdtype rr) +:+ " " +:+ to_text rr)
                   <$> concat (answer (a_answer ["198.51.100.9"]))).
Proof.
  apply (fan_out_records_answer demo_make_query_ok demo_make_query_error recovering_network
           demo_rdatatype_to_text demo_cfg "example.test" (PStr "udp")
           0 2 (initial_answers 1 2) disagreeing_state
           [] "A" [] ["198.51.100.1"] "198.51.100.2" []).
  - simpl. lia.
  - reflexivity.
  - apply not_elem_of_nil.
  - reflexivity.
  - apply not_elem_of_nil.
  - discriminate.
  - intros q Hq. reflexivity.
  - intros j q a Hj. unfold recovering_network.
    destruct (length (sends disagreeing_state) + j =? 0)%nat; discriminate.
  - reflexivity.
Defined.

(** X28: a test that asks for the record type BOGUS. *)
Lemma fan_out_rejected_type_witness :
  let σ' := snd (fan_out typed_make_query_ok demo_make_query_error shared_address_network
                   demo_rdatatype_to_text demo_cfg "example.test" (PStr "udp") 0 2
                   (initial_answers 1 2) bogus_state) in
  let answers' := <["BOGUS" := {["198.51.100.1" := 3]}]> (initial_answers 1 2) in
  (∃ new, sends σ' = sends bogus_state ++ new ∧
          Forall (λ rq, m_rdtype (rq_message rq) ≠ RdText "BOGUS") new) ∧
  ∃ d, snapshot_of (heap σ') answers' !! "BOGUS" = Some d ∧
       ∀ ip, ip ∈ deref (heap bogus_state) 2 → d !! ip = Some [].
Proof.
  apply (fan_out_rejected_type typed_make_query_ok demo_make_query_error shared_address_network
           demo_rdatatype_to_text demo_cfg "example.test" (PStr "udp") 0 2
           (initial_answers 1 2)
           (<["BOGUS" := {["198.51.100.1" := 3]}]> (initial_answers 1 2))
           bogus_state _ [] "BOGUS" []).
  - simpl. lia.
  - reflexivity.
  - apply not_elem_of_nil.
  - discriminate.
  - reflexivity.
  - vm_compute; reflexivity.
Defined.

(** X29: the answer names a root server. *)
Lemma probe_healthy_iff_witness :
  ∃ b,
    test_resolver demo_make_query_ok demo_make_query_error root_network demo_resolver demo_state
      = (Ok b, with_sends
                 (λ s, s ++ [probe_request (PStr "udp") (PStr "203.0.113.1")])
                 demo_state) ∧
    (b = true ↔
     ∃ rr, rr ∈ concat (answer (Response [[Rdata rdatatype_NS "a.root-servers.net."]] []))
           ∧ rdtype rr = rdatatype_NS ∧ to_text rr ∈ valid_answers).
Proof.
  apply (probe_healthy_iff demo_make_query_ok demo_make_query_error root_network demo_resolver
           (PStr "udp") (PStr "203.0.113.1")
           (Response [[Rdata rdatatype_NS "a.root-servers.net."]] []) demo_state).
  - reflexivity.
  - reflexivity.
  - reflexivity.
  - reflexivity.
Defined.

(** X30: [main] with two resolvers and the demo test: the probe goes to the
    first resolver, and so do the lookups of the test, which completes; the
    second resolver gets no request. *)
Lemma main_uses_first_resolver_witness :
  let world_main :=
    main demo_make_query_ok demo_make_query_error working_network demo_strftime
      demo_rdatatype_to_text demo_py_repr two_resolver_cfg [query_entry] demo_state in
  fst world_main = Ok tt ∧
  length (sends (snd world_main)) = 5 ∧
  (PStr "203.0.113.2" ∉ rq_where <$> sends (snd world_main)) ∧
  world_main
  = run demo_make_query_ok demo_make_query_error working_network demo_strftime
      demo_rdatatype_to_text demo_py_repr
      (Config [demo_resolver; backup_resolver] (Some demo_resolver)) [query_entry]
      (snd (test_resolver demo_make_query_ok demo_make_query_error working_network
              demo_resolver demo_state)).
Proof.
  split_and!; [vm_compute; reflexivity|vm_compute; reflexivity|by_computation|].
  apply (main_uses_first_resolver demo_make_query_ok demo_make_query_error
           working_network demo_strftime
           demo_rdatatype_to_text demo_py_repr two_resolver_cfg [query_entry]
           demo_resolver [backup_resolver] demo_state).
  - reflexivity.
  - vm_compute; reflexivity.
Defined.
